(** * UserConfig: layered configuration resolution and hot reload

    A shallow embedding of [packages/umi-build-dev/src/UserConfig.js]:
    the structural transform [normalizeConfig], the file loader
    [requireFile], the static and the instance method [getConfig] and the
    handler that [watchWithDevServer] registers for file events.
    [initConfigPlugins] and [watchConfigs] wire the instance to the plugin
    registry and to the file watcher; they are not embedded, and the
    registry is the parameter [plugins].

    JavaScript values are modelled as finite trees.  Objects are lists of
    own enumerable properties kept in the order in which [Object.keys]
    enumerates them; numbers are integers ([NaN] and fractions are left
    out); arrays and functions are not part of the value model.  Trees
    are immutable, so [clone] is the identity and two references never
    alias: where the source mutates an object that is reachable from
    another one, the tree model writes the new object back at the place
    it is reachable from.  That is what the source does as long as the
    object written to is not shared.  [normalizeConfig] writes to the
    objects it is handed, so it is modelled a second time on a heap of
    objects with addresses, where an assignment is seen through every
    reference; the tree transform is proved to compute what the heap
    transform leaves in an unshared configuration, and what concerns
    sharing is stated on the heap.  A property read sees own properties
    only: the names
    the code reads ([default], [context], [pages], [exportStatic],
    [htmlSuffix] and the namespaces of the plugins) are taken not to be
    names of [Object.prototype].

    The collaborators are parameters: the file system and the module
    loader ([existsSync], [require]), the process environment, [path.join]
    (which never returns the empty string), [didyoumean],
    [lodash.isequal], the constant [CONFIG_FILES] and the [modifyConfig]
    hook of the host service.  [require] stands for a fresh evaluation of
    the file, which is what the handler gets by passing [force]; of the
    module cache only the keys that [force] deletes are modelled.  Calls
    that leave the coordinator are recorded in a trace. *)

From Stdlib Require Import List Sorted String Ascii Bool ZArith NArith Lia.
From Stdlib Require Import Decimal DecimalN DecimalString.
Import ListNotations.
Open Scope string_scope.

(** ** JavaScript values *)

#[local] Set Warnings "-register-all".

Inductive value : Type :=
| VUndef
| VNull
| VBool (b : bool)
| VNum (n : Z)
| VStr (s : string)
| VObj (ps : list (string * value)).

Definition props : Type := list (string * value).

(** What the code can throw.  The source throws [Error] objects that carry
    a message; the constructors keep the data the message is built from. *)
Inductive error : Type :=
| TypeError
| LoadError (msg : string)
| ConfigFileError (relativeFile : string) (cause : error)
| HookError (msg : string)
| PluginError (msg : string)
| ValidationError (name : string) (msg : string)
| UnknownKeyError (relativeFile key : string) (guess : option string)
    (pluginNames : list string).

Inductive result (A : Type) : Type :=
| Ok (a : A)
| Throw (e : error).
Arguments Ok {A} a.
Arguments Throw {A} e.

Definition rbind {A B} (r : result A) (k : A -> result B) : result B :=
  match r with
  | Ok a => k a
  | Throw e => Throw e
  end.

Declare Scope js_scope.
Delimit Scope js_scope with js.
Notation "x <- c ;; k" := (rbind c (fun x => k))
  (at level 61, c at next level, right associativity) : js_scope.
Open Scope js_scope.

(** [ToBoolean]. *)
Definition truthy (v : value) : bool :=
  match v with
  | VUndef | VNull => false
  | VBool b => b
  | VNum n => negb (n =? 0)%Z
  | VStr s => negb (s =? "")
  | VObj _ => true
  end.

(** [typeof v === 'object'] *)
Definition typeof_object (v : value) : bool :=
  match v with
  | VNull | VObj _ => true
  | _ => false
  end.

(** [a || b] *)
Definition js_or (a b : value) : value := if truthy a then a else b.

(** ** Strings *)

(** [s.slice(-n)]: the last [n] characters, the whole string when it is
    shorter. *)
Definition slice_last (n : nat) (s : string) : string :=
  substring (String.length s - n) n s.

(** [s.charAt(0)] *)
Definition charAt0 (s : string) : string := substring 0 1 s.

(** ** Property keys

    A key that is the canonical decimal form of an integer below
    [2^32 - 1] is an array index; [OrdinaryOwnPropertyKeys] lists those
    first, in ascending order, and the other keys after them in the order
    in which they were created. *)

Definition index_key (i : N) : string := NilZero.string_of_uint (N.to_uint i).

Definition array_index (k : string) : option N :=
  match NilZero.uint_of_string k with
  | Some d =>
      let i := N.of_uint d in
      if (index_key i =? k) && (i <? 4294967295)%N then Some i else None
  | None => None
  end.

Definition key_before (k k' : string) : bool :=
  match array_index k, array_index k' with
  | Some i, Some j => (i <? j)%N
  | Some _, None => true
  | None, _ => false
  end.

Fixpoint lookup (k : string) (ps : props) : option value :=
  match ps with
  | [] => None
  | (k', v) :: t => if k =? k' then Some v else lookup k t
  end.

Definition has (k : string) (ps : props) : bool :=
  match lookup k ps with Some _ => true | None => false end.

Fixpoint update (k : string) (v : value) (ps : props) : props :=
  match ps with
  | [] => []
  | (k', v') :: t => if k =? k' then (k', v) :: t else (k', v') :: update k v t
  end.

Fixpoint insert_new (k : string) (v : value) (ps : props) : props :=
  match ps with
  | [] => [(k, v)]
  | (k', v') :: t =>
      if key_before k k' then (k, v) :: ps else (k', v') :: insert_new k v t
  end.

(** [o[k] = v] on an ordinary object: an existing property keeps its
    place, a new one is created at the place its key has in the
    enumeration order. *)
Definition put (k : string) (v : value) (ps : props) : props :=
  if has k ps then update k v ps else insert_new k v ps.

Definition keys (ps : props) : list string := map fst ps.

(** The characters of a string, as the indexed own properties of its
    wrapper object. *)
Fixpoint string_entries (i : N) (s : string) : props :=
  match s with
  | EmptyString => []
  | String c t => (index_key i, VStr (String c "")) :: string_entries (N.succ i) t
  end.

Definition own_entries (v : value) : props :=
  match v with
  | VObj ps => ps
  | VStr s => string_entries 0 s
  | _ => []
  end.

(** [v[k]] for a [v] that is neither [undefined] nor [null]. *)
Definition member (v : value) (k : string) : value :=
  match v with
  | VStr s =>
      if k =? "length" then VNum (Z.of_nat (String.length s))
      else match lookup k (string_entries 0 s) with Some c => c | None => VUndef end
  | _ => match lookup k (own_entries v) with Some x => x | None => VUndef end
  end.

Definition nullish (v : value) : bool :=
  match v with VUndef | VNull => true | _ => false end.

(** [v[k]]: reading a property of [undefined] or [null] throws. *)
Definition get_prop (v : value) (k : string) : result value :=
  if nullish v then Throw TypeError else Ok (member v k).

(** [v[k] = x] in strict mode (the file is an ES module): only objects
    can be written to. *)
Definition set_prop (v : value) (k : string) (x : value) : result value :=
  match v with
  | VObj ps => Ok (VObj (put k x ps))
  | _ => Throw TypeError
  end.

(** [Object.keys(v)] *)
Definition Object_keys (v : value) : result (list string) :=
  if nullish v then Throw TypeError else Ok (keys (own_entries v)).

(** [{...acc, ...v}]: every own key of [v], in enumeration order, is read
    from [v] and defined on the object being built.  Spreading
    [undefined], [null], a boolean or a number adds nothing. *)
Definition spread (acc : props) (v : value) : props :=
  fold_left (fun o k => put k (member v k) o) (keys (own_entries v)) acc.

(** [keys.forEach(f)] and [keys.reduce(f, init)] for a callback that can
    throw. *)
Fixpoint foldM {A B} (f : A -> B -> result A) (l : list B) (a : A) : result A :=
  match l with
  | [] => Ok a
  | b :: t => a' <- f a b ;; foldM f t a'
  end.

(** ** normalizeConfig (lines 13-53) *)

(** The body of the [forEach] callback of lines 17-23, on trees.  [page]
    is the object stored at [config.pages[key]]; line 19 assigns to
    [page.context] in place, and on a tree the assignment is written
    back along the one path from [config] to the page.  This is the
    effect of line 19 when the page is neither [config] nor another
    page nor reachable from the rest of [config]; the assignment itself,
    whatever is shared, is [h_propagate_context] below, and
    [propagate_step] relates the two. *)
Definition propagate_context (config : value) (key : string) : result value :=
  pages <- get_prop config "pages" ;;
  page <- get_prop pages key ;;
  context <- get_prop config "context" ;;
  page_context <- get_prop page "context" ;;
  page' <- set_prop page "context" (VObj (spread (spread [] context) page_context)) ;;
  pages' <- set_prop pages key page' ;;
  set_prop config "pages" pages'.

(** Lines 36-46: the new key of a page. *)
Definition newKey (htmlSuffix : bool) (key : string) : string :=
  let newKey := key in
  let newKey :=
    if htmlSuffix
       && negb (slice_last 1 newKey =? "/")
       && negb (slice_last 5 newKey =? ".html")
    then newKey ++ ".html" else newKey in
  if negb (charAt0 newKey =? "/") then "/" ++ newKey else newKey.

(** Lines 30-34 *)
Definition htmlSuffix_of (config : value) : bool :=
  let exportStatic := member config "exportStatic" in
  truthy exportStatic && typeof_object exportStatic
  && truthy (member exportStatic "htmlSuffix").

(** The callback of [reduce] of lines 35-49. *)
Definition rekey (config : value) (htmlSuffix : bool)
    (memo : props) (key : string) : result props :=
  pages <- get_prop config "pages" ;;
  page <- get_prop pages key ;;
  Ok (put (newKey htmlSuffix key) page memo).

(** Lines 16-52, on the object chosen by line 14. *)
Definition normalize_rest (config : value) : result value :=
  context <- get_prop config "context" ;;
  pages <- get_prop config "pages" ;;
  config <-
    (if truthy context && truthy pages then
       ks <- Object_keys pages ;;
       foldM propagate_context ks config
     else Ok config) ;;
  pages <- get_prop config "pages" ;;
  if truthy pages then
    let htmlSuffix := htmlSuffix_of config in
    ks <- Object_keys pages ;;
    memo <- foldM (rekey config htmlSuffix) ks [] ;;
    set_prop config "pages" (VObj memo)
  else Ok config.

Definition normalizeConfig (config : value) : result value :=
  default <- get_prop config "default" ;;
  let config := js_or default config in
  normalize_rest config.

(** ** The coordinator's environment *)

(** A schema plugin: the namespace it owns and its optional callbacks.
    A callback that returns [Some msg] throws an [Error] with that
    message. *)
Record Plugin : Type := {
  name : string;
  validate : option (value -> option string);
  onChange : option (value -> option string)
}.

(** What a function of the host returns: a value, or it throws an
    [Error] with a message. *)
Inductive outcome : Type :=
| Returns (v : value)
| Throws (msg : string).

(** What does not change during a watch session: the imported constant
    [CONFIG_FILES], [service.paths.cwd], [path.join], the libraries
    [didyoumean] and [lodash.isequal], the host's [modifyConfig] hook
    behind [service.applyPlugins] and the plugin instances built by
    [initConfigPlugins]. *)
Record Host : Type := {
  CONFIG_FILES : list string;
  cwd : string;
  join : string -> string -> string;
  didyoumean : string -> list string -> option string;
  isEqual : value -> value -> bool;
  modifyConfig : value -> outcome;
  plugins : list Plugin
}.

(** What a file event can have changed: the files on disk, seen through
    [existsSync] and [require], and the process environment. *)
Record World : Type := {
  existsSync : string -> bool;
  require : string -> outcome;
  UMI_ENV : option string;
  NODE_ENV : option string
}.

(** Calls that leave the coordinator, in the order they are made. *)
Inductive event : Type :=
| PrintWarn (files : list string)
| PrintError (e : error)
| ConsoleError (e : error)
| ConsoleLog (msg : string)
| SetMiddlewareConfig (config : value)
| Reload
| SetInitialConfig (name : string) (v : value)
| SetServiceConfig (name : string) (v : value)
| OnChange (name : string) (config : value).

(** The fields of the [UserConfig] instance, the two mappings of the host
    service it writes to, and the calls made so far. *)
Record State : Type := {
  this_config : value;
  this_configFailed : bool;
  this_file : option string;
  this_relativeFile : option string;
  service_config : props;
  service_initialConfig : props;
  trace : list event
}.

Definition with_config (c : value) (s : State) : State :=
  {| this_config := c; this_configFailed := this_configFailed s;
     this_file := this_file s; this_relativeFile := this_relativeFile s;
     service_config := service_config s;
     service_initialConfig := service_initialConfig s; trace := trace s |}.

Definition with_configFailed (b : bool) (s : State) : State :=
  {| this_config := this_config s; this_configFailed := b;
     this_file := this_file s; this_relativeFile := this_relativeFile s;
     service_config := service_config s;
     service_initialConfig := service_initialConfig s; trace := trace s |}.

Definition with_file (f : option string) (s : State) : State :=
  {| this_config := this_config s; this_configFailed := this_configFailed s;
     this_file := f; this_relativeFile := this_relativeFile s;
     service_config := service_config s;
     service_initialConfig := service_initialConfig s; trace := trace s |}.

Definition with_relativeFile (f : option string) (s : State) : State :=
  {| this_config := this_config s; this_configFailed := this_configFailed s;
     this_file := this_file s; this_relativeFile := f;
     service_config := service_config s;
     service_initialConfig := service_initialConfig s; trace := trace s |}.

Definition with_service_config (ps : props) (s : State) : State :=
  {| this_config := this_config s; this_configFailed := this_configFailed s;
     this_file := this_file s; this_relativeFile := this_relativeFile s;
     service_config := ps;
     service_initialConfig := service_initialConfig s; trace := trace s |}.

Definition with_service_initialConfig (ps : props) (s : State) : State :=
  {| this_config := this_config s; this_configFailed := this_configFailed s;
     this_file := this_file s; this_relativeFile := this_relativeFile s;
     service_config := service_config s;
     service_initialConfig := ps; trace := trace s |}.

Definition emit (e : event) (s : State) : State :=
  {| this_config := this_config s; this_configFailed := this_configFailed s;
     this_file := this_file s; this_relativeFile := this_relativeFile s;
     service_config := service_config s;
     service_initialConfig := service_initialConfig s;
     trace := trace s ++ [e] |}.

(** Line 234 *)
Definition debug_line (ev path : string) : string :=
  "[DEBUG] [" ++ ev ++ "] " ++ path.

(** Statements that read and write the state and can throw.  What was
    written before a throw stays written. *)
Definition M (A : Type) : Type := State -> State * result A.

Definition ret {A} (a : A) : M A := fun s => (s, Ok a).
Definition throw {A} (e : error) : M A := fun s => (s, Throw e).
Definition lift {A} (r : result A) : M A := fun s => (s, r).
Definition modify (f : State -> State) : M unit := fun s => (f s, Ok tt).
Definition gets {A} (f : State -> A) : M A := fun s => (s, Ok (f s)).

Definition bind {A B} (m : M A) (k : A -> M B) : M B :=
  fun s =>
    match m s with
    | (s', Ok a) => k a s'
    | (s', Throw e) => (s', Throw e)
    end.

Declare Scope m_scope.
Delimit Scope m_scope with m.
Notation "x <- c ;; k" := (bind c (fun x => k))
  (at level 61, c at next level, right associativity) : m_scope.
Notation "c ;;; k" := (bind c (fun _ => k))
  (at level 61, right associativity) : m_scope.

(** [for (const x of l) body] *)
Fixpoint forM {A} (body : A -> M unit) (l : list A) : M unit :=
  match l with
  | [] => ret tt
  | a :: t => bind (body a) (fun _ => forM body t)
  end.

(** [when c m]: [if (c) m] *)
Definition when (c : bool) (m : M unit) : M unit := if c then m else ret tt.

(** ** Paths *)

(** The replacement text of [String.prototype.replace] for a pattern
    without capture groups ([GetSubstitution]): [$$] stands for a dollar
    sign, [$&] for the matched text, [$`] for the text before the match
    and [$'] for the text after it; any other dollar sign stands for
    itself. *)
Fixpoint substitution (matched before after rep : string) : string :=
  match rep with
  | EmptyString => EmptyString
  | String c rest =>
      if Ascii.eqb c "$"%char then
        match rest with
        | EmptyString => String c EmptyString
        | String d t =>
            if Ascii.eqb d "$"%char
            then String "$"%char (substitution matched before after t)
            else if Ascii.eqb d "&"%char
            then matched ++ substitution matched before after t
            else if Ascii.eqb d "`"%char
            then before ++ substitution matched before after t
            else if Ascii.eqb d "'"%char
            then after ++ substitution matched before after t
            else String c (substitution matched before after rest)
        end
      else String c (substitution matched before after rest)
  end.

(** [file.replace(/\.js$/, rep)]: the pattern matches the last three
    characters of a file that ends in [.js], and nothing of any other
    file; the replacement text is [rep] with its dollar patterns
    expanded. *)
Definition replace_js (file rep : string) : string :=
  if slice_last 3 file =? ".js"
  then
    let before := substring 0 (String.length file - 3) file in
    before ++ substitution ".js" before "" rep
  else file.

(** [s.replace(pat, '')] for a string pattern: the first occurrence goes. *)
Fixpoint remove_first (pat s : string) : string :=
  if prefix pat s then substring (String.length pat) (String.length s) s
  else match s with
       | EmptyString => EmptyString
       | String c t => String c (remove_first pat t)
       end.

Section Coordinator.

Variable h : Host.

(** ** getConfigFile (lines 55-70) *)
Definition getConfigFile (w : World) : M (option string) :=
  let files := filter (existsSync w) (map (join h (cwd h)) (CONFIG_FILES h)) in
  (when (1 <? List.length files)%nat (modify (emit (PrintWarn files))) ;;;
   ret (hd_error files))%m.

(** The default [onError] of [requireFile], lines 79-82. *)
Definition defaultOnError (e : error) (filePath : string) : M value :=
  (modify (emit (ConsoleError e)) ;;; ret (VObj []))%m.

(** The [try] block of [requireFile], lines 84-85: [require] and
    [normalizeConfig] are both inside it. *)
Definition try_load (w : World) (filePath : string) : result value :=
  match require w filePath with
  | Returns m => normalizeConfig (js_or m (VObj []))
  | Throws msg => Throw (LoadError msg)
  end.

(** ** requireFile (lines 72-89) *)
Definition requireFile (w : World) (filePath : string)
    (onError : option (error -> string -> M value)) : M value :=
  if negb (existsSync w filePath) then ret (VObj [])
  else
    let onError := match onError with Some f => f | None => defaultOnError end in
    match try_load w filePath with
    | Ok config => ret config
    | Throw e => onError e filePath
    end.

(** The [onError] of [getConfig], lines 164-172. *)
Definition getConfig_onError (e : error) (file : string) : M value :=
  let msg := ConfigFileError (remove_first (cwd h ++ "/") file) e in
  (modify (emit (PrintError msg)) ;;; throw msg)%m.

(** [env ? requireFile(...) : {}] with [env] a string or [undefined]. *)
Definition env_set (env : option string) : option string :=
  match env with
  | Some e => if truthy (VStr e) then Some e else None
  | None => None
  end.

Definition isDev (w : World) : bool :=
  match NODE_ENV w with
  | Some e => e =? "development"
  | None => false
  end.

(** Lines 174-178: the three units, loaded left to right, spread into one
    object literal. *)
Definition loadUnits (w : World) (file : string) : M value :=
  (base <- requireFile w file (Some getConfig_onError) ;;
   env <- match env_set (UMI_ENV w) with
          | Some env => requireFile w (replace_js file ("." ++ env ++ ".js")) None
          | None => ret (VObj [])
          end ;;
   loc <- (if isDev w then requireFile w (replace_js file ".local.js") None
           else ret (VObj [])) ;;
   ret (VObj (spread (spread (spread [] base) env) loc)))%m.

(** Lines 185-199: one turn of the validation loop. *)
Definition validatePlugin (setConfig : option (value -> State -> State))
    (config : value) (plugin : Plugin) : M unit :=
  (v <- lift (get_prop config (name plugin)) ;;
   match validate plugin with
   | Some f =>
       if truthy v then
         match f v with
         | None => ret tt
         | Some msg =>
             match setConfig with
             | Some set => modify (set config)
             | None => ret tt
             end ;;;
             modify (emit (PrintError (PluginError msg))) ;;;
             throw (ValidationError (name plugin) msg)
         end
       else ret tt
   | None => ret tt
   end)%m.

(** Lines 203-215: one turn of the loop over the keys of the config. *)
Definition checkKey (setConfig : option (value -> State -> State))
    (relativeFile : string) (config : value) (pluginNames : list string)
    (key : string) : M unit :=
  if negb (existsb (String.eqb key) pluginNames) then
    (match setConfig with
     | Some set => modify (set config)
     | None => ret tt
     end ;;;
     let msg := UnknownKeyError relativeFile key
                  (didyoumean h key pluginNames) pluginNames in
     modify (emit (PrintError msg)) ;;;
     throw msg)%m
  else ret tt.

(** Lines 160-182 of [getConfig]: the units are loaded and merged, the
    merge is normalized and handed to the [modifyConfig] hook. *)
Definition resolveConfig (w : World) (file : string) : M value :=
  (let relativeFile := remove_first (cwd h ++ "/") file in
   modify (with_relativeFile (Some relativeFile)) ;;;
   merged <- loadUnits w file ;;
   config <- lift (normalizeConfig merged) ;;
   match modifyConfig h config with
   | Returns config => ret config
   | Throws msg => throw (HookError msg)
   end)%m.

(** Lines 184-215 of [getConfig]: validation by the plugins, then the
    search for a key that no plugin owns. *)
Definition checkConfig (setConfig : option (value -> State -> State))
    (relativeFile : string) (config : value) : M unit :=
  (forM (validatePlugin setConfig config) (plugins h) ;;;
   let pluginNames := map name (plugins h) in
   ks <- lift (Object_keys config) ;;
   forM (checkKey setConfig relativeFile config pluginNames) ks)%m.

(** ** getConfig (lines 135-218)

    [force] evicts the three candidate paths of every conventional file
    from the module cache, so that [require] evaluates the files again;
    [require w] is what [require] returns after that. *)
Definition getConfig (w : World) (force : bool)
    (setConfig : option (value -> State -> State)) : M value :=
  (file <- getConfigFile w ;;
   modify (with_file file) ;;;
   match file with
   | None => ret (VObj [])
   | Some file =>
       config <- resolveConfig w file ;;
       checkConfig setConfig (remove_first (cwd h ++ "/") file) config ;;;
       ret config
   end)%m.

(** [clone]: values are immutable trees. *)
Definition clone (v : value) : value := v.

(** Lines 256-265: one turn of the loop over the plugins. *)
Definition diffPlugin (newConfig oldConfig : value) (plugin : Plugin) : M unit :=
  (nv <- lift (get_prop newConfig (name plugin)) ;;
   ov <- lift (get_prop oldConfig (name plugin)) ;;
   if negb (isEqual h nv ov) then
     modify (fun s => emit (SetInitialConfig (name plugin) nv)
               (with_service_initialConfig
                  (put (name plugin) nv (service_initialConfig s)) s)) ;;;
     modify (fun s => emit (SetServiceConfig (name plugin) nv)
               (with_service_config (put (name plugin) nv (service_config s)) s)) ;;;
     match onChange plugin with
     | Some f =>
         modify (emit (OnChange (name plugin) newConfig)) ;;;
         match f newConfig with
         | Some msg => throw (PluginError msg)
         | None => ret tt
         end
     | None => ret tt
     end
   else ret tt)%m.

(** The [setConfig] passed to [getConfig] by the handler, lines 238-241. *)
Definition handler_setConfig (newConfig : value) (s : State) : State :=
  with_config newConfig (emit (ConsoleLog "set config") s).

(** Lines 236-265: the body of the [try]. *)
Definition handler_body (w : World) : M unit :=
  (newConfig <- getConfig w true (Some handler_setConfig) ;;
   modify (emit (SetMiddlewareConfig newConfig)) ;;;
   configFailed <- gets this_configFailed ;;
   when configFailed
     (modify (with_configFailed false) ;;; modify (emit Reload)) ;;;
   oldConfig <- gets (fun s => clone (this_config s)) ;;
   modify (with_config newConfig) ;;;
   forM (diffPlugin newConfig oldConfig) (plugins h))%m.

(** ** The handler registered by watchWithDevServer (lines 233-271) *)
Definition watch_handler (w : World) (ev path : string) (s : State) : State :=
  let s := emit (ConsoleLog (debug_line ev path)) s in
  match handler_body w s with
  | (s', Ok _) => s'
  | (s', Throw e) =>
      emit (ConsoleError e) (emit (ConsoleError e) (with_configFailed true s'))
  end.

End Coordinator.

(** ** normalizeConfig, one loop at a time

    Closed forms of the two loops of [normalizeConfig] over a [pages]
    object, used to reason about them. *)

(** What lines 19-22 make of one page. *)
Definition with_context (context page : value) : value :=
  match page with
  | VObj q =>
      VObj (put "context"
              (VObj (spread (spread [] context) (member page "context"))) q)
  | _ => page
  end.

(** The pages after the [forEach] of lines 17-23 has visited [ks]. *)
Definition propagate_all (context : value) (ks : list string) (ps : props) : props :=
  fold_left
    (fun ps k =>
       match lookup k ps with
       | Some p => update k (with_context context p) ps
       | None => ps
       end) ks ps.

(** The accumulator after the [reduce] of lines 35-49 has visited [ks]. *)
Definition rekey_all (hs : bool) (pages : value) (ks : list string)
    (memo : props) : props :=
  fold_left (fun memo k => put (newKey hs k) (member pages k) memo) ks memo.

(** The pages as lines 17-23 leave them. *)
Definition propagated (cs ps : props) : props :=
  if truthy (member (VObj cs) "context")
  then propagate_all (member (VObj cs) "context") (keys ps) ps
  else ps.

(** The pages object as lines 35-49 rebuild it. *)
Definition rekeyed (cs ps : props) : props :=
  rekey_all (htmlSuffix_of (VObj cs)) (VObj (propagated cs ps)) (keys ps) [].

(** ** Enumeration order, on the keys alone *)


(** Where a new key goes, and what [put] does to the list of keys. *)
Fixpoint enum_insert (k : string) (ks : list string) : list string :=
  match ks with
  | [] => [k]
  | k0 :: t => if key_before k k0 then k :: ks else k0 :: enum_insert k t
  end.

Definition enum_put (k : string) (ks : list string) : list string :=
  if existsb (String.eqb k) ks then ks else enum_insert k ks.




(** The first character of [k] is a decimal digit. *)
Definition digit_head (k : string) : bool :=
  match k with
  | String c _ =>
      match c with
      | "0" | "1" | "2" | "3" | "4" | "5" | "6" | "7" | "8" | "9" => true
      | _ => false
      end%char
  | EmptyString => false
  end.

(** ** The rewriting of page keys in the words of the specification *)

Definition ends_with (suffix s : string) : Prop := exists p, s = p ++ suffix.
Definition begins_with (pre s : string) : Prop := exists t, s = pre ++ t.

(** [htmlSuffix] is set: [exportStatic] is an object whose [htmlSuffix]
    member is truthy. *)
Definition htmlSuffix_set (config : value) : Prop :=
  exists es, member config "exportStatic" = VObj es
             /\ truthy (member (VObj es) "htmlSuffix") = true.

(** [k'] is [k] rewritten: first the suffix, then the leading slash. *)
Definition rewritten (suffixing : Prop) (k k' : string) : Prop :=
  exists k1,
    (suffixing /\ ~ ends_with "/" k /\ ~ ends_with ".html" k -> k1 = k ++ ".html")
    /\ (~ (suffixing /\ ~ ends_with "/" k /\ ~ ends_with ".html" k) -> k1 = k)
    /\ (begins_with "/" k1 -> k' = k1)
    /\ (~ begins_with "/" k1 -> k' = "/" ++ k1).

(** Line 14: the object that is normalized and returned, the [default]
    export of a transpiled module when there is one. *)
Definition chosen (config : value) : value :=
  js_or (member config "default") config.


(** What [requireFile] returns for an override file: a file that is
    missing or fails to load counts as an empty object. *)
Definition load_unit (w : World) (filePath : string) : value :=
  if existsSync w filePath then
    match try_load w filePath with
    | Ok config => config
    | Throw _ => VObj []
    end
  else VObj [].

(** The member [k] of the merge of three units: the last unit that has
    the key decides, whatever the earlier ones hold. *)
Definition precedence (base env loc : value) (k : string) : option value :=
  if existsb (String.eqb k) (keys (own_entries loc)) then Some (member loc k)
  else if existsb (String.eqb k) (keys (own_entries env)) then Some (member env k)
  else if existsb (String.eqb k) (keys (own_entries base)) then Some (member base k)
  else None.

(** The failures of [getConfig] that reject a resolved configuration. *)
Definition is_rejection (e : error) : bool :=
  match e with
  | ValidationError _ _ | UnknownKeyError _ _ _ _ => true
  | _ => false
  end.

(** The events of the per-namespace propagation for namespace [N]. *)
Definition touches (N : string) (e : event) : Prop :=
  match e with
  | SetInitialConfig n _ | SetServiceConfig n _ | OnChange n _ => n = N
  | _ => False
  end.

(** Calls that only report. *)
Definition is_log (e : event) : Prop :=
  match e with
  | PrintWarn _ | PrintError _ | ConsoleError _ | ConsoleLog _ => True
  | _ => False
  end.

(** [s'] is [s] after some reporting and nothing else: the accepted
    configuration, the failure flag and the service are as they were. *)
Definition only_logs (s s' : State) : Prop :=
  this_config s' = this_config s
  /\ this_configFailed s' = this_configFailed s
  /\ service_config s' = service_config s
  /\ service_initialConfig s' = service_initialConfig s
  /\ exists evs, trace s' = (trace s ++ evs)%list /\ Forall is_log evs.

(** What [getConfig] does with the caller's [setConfig], when there is
    one, before it throws. *)
Definition call_setConfig (setConfig : option (value -> State -> State))
    (config : value) (s : State) : State :=
  match setConfig with
  | Some set => set config s
  | None => s
  end.

(** What [printError] is given before [e] is thrown: the plugin's own
    message for a validation failure, the message of the error itself
    otherwise. *)
Definition printed (e : error) : error :=
  match e with
  | ValidationError _ msg => PluginError msg
  | _ => e
  end.

(** A check passes and leaves the state alone, or throws a [TypeError]
    on a missing configuration, or rejects the configuration: then the
    caller's [setConfig] has been given the configuration, the error has
    been printed, and nothing else has happened. *)
Definition check_outcome (setConfig : option (value -> State -> State))
    (config : value) (s : State) (out : State * result unit) : Prop :=
  out = (s, Ok tt)
  \/ (out = (s, Throw TypeError) /\ nullish config = true)
  \/ exists e, is_rejection e = true
               /\ out = (emit (PrintError (printed e)) (call_setConfig setConfig config s),
                         Throw e).

(** The state in which the propagation loop starts. *)
Definition before_diff (newConfig : value) (s1 : State) : State :=
  let s := emit (SetMiddlewareConfig newConfig) s1 in
  with_config newConfig
    (if this_configFailed s1 then emit Reload (with_configFailed false s) else s).

(** What the loop of lines 256-265 has done when it leaves [s] as [s']
    with result [r], having made the calls [evs]: the accepted
    configuration and the failure flag are as they were; a namespace whose
    value is deep-equal in the new and the old configuration is not
    touched; when the loop completes, every plugin of [ps] whose namespace
    differs has had the service's two entries written and its [onChange]
    called; the loop fails with a [TypeError] or in an [onChange]. *)
Definition diffed (h : Host) (newConfig oldConfig : value) (ps : list Plugin)
    (s s' : State) (r : result unit) (evs : list event) : Prop :=
  trace s' = (trace s ++ evs)%list
  /\ this_config s' = this_config s
  /\ this_configFailed s' = this_configFailed s
  /\ (forall N,
        isEqual h (member newConfig N) (member oldConfig N) = true ->
        (forall e, In e evs -> ~ touches N e)
        /\ lookup N (service_config s') = lookup N (service_config s)
        /\ lookup N (service_initialConfig s') = lookup N (service_initialConfig s))
  /\ (r = Ok tt ->
      forall plugin, In plugin ps ->
        isEqual h (member newConfig (name plugin)) (member oldConfig (name plugin))
        = false ->
        In (SetInitialConfig (name plugin) (member newConfig (name plugin))) evs
        /\ In (SetServiceConfig (name plugin) (member newConfig (name plugin))) evs
        /\ (onChange plugin <> None -> In (OnChange (name plugin) newConfig) evs))
  /\ (forall e, r = Throw e -> e = TypeError \/ exists msg, e = PluginError msg).

(** ** Example configurations *)

Definition spec_pages_input : value :=
  VObj [("pages", VObj [("index", VObj []); ("/about", VObj [])]);
        ("exportStatic", VObj [("htmlSuffix", VBool true)])].

Definition spec_context_input : value :=
  VObj [("context", VObj [("x", VNum 1)]);
        ("pages", VObj [("/a", VObj [("context", VObj [("x", VNum 2)])]);
                       ("/b", VObj [])])].

(** A module whose [default] export has a [default] member of its own. *)
Definition nested_default_input : value :=
  VObj [("default", VObj [("default", VObj [("a", VNum 1)])])].

(** ** An example host

    Deep equality in the manner of [lodash.isequal] on these values: the
    members of two objects are compared key by key, whatever their
    order. *)
Fixpoint deep_equal (a b : value) : bool :=
  match a, b with
  | VUndef, VUndef => true
  | VNull, VNull => true
  | VBool x, VBool y => Bool.eqb x y
  | VNum x, VNum y => (x =? y)%Z
  | VStr x, VStr y => (x =? y)%string
  | VObj pa, VObj pb =>
      (List.length pa =? List.length pb)%nat
      && (fix all (l : list (string * value)) : bool :=
            match l with
            | [] => true
            | (k, v) :: t =>
                match lookup k pb with
                | Some v' => deep_equal v v'
                | None => false
                end && all t
            end) pa
  | _, _ => false
  end.

(** The [join] of the example host.  [path.join] also normalises its
    result (it collapses repeated separators and resolves [.] and [..]);
    on a directory without a trailing separator and a plain relative
    name, which is all the examples hand it, it is this concatenation. *)
Definition example_join (dir file : string) : string := dir ++ "/" ++ file.

Definition example_host (ps : list Plugin) : Host :=
  {| CONFIG_FILES := [".umirc.js"; "config/config.js"];
     cwd := "/app";
     join := example_join;
     didyoumean := fun _ _ => None;
     isEqual := deep_equal;
     modifyConfig := Returns;
     plugins := ps |}.

(** A disk holding the given files, each with what loading it gives. *)
Definition disk (files : list (string * outcome)) (env node : option string) : World :=
  {| existsSync := fun p => existsb (fun f => fst f =? p) files;
     require := fun p =>
       match find (fun f => fst f =? p) files with
       | Some f => snd f
       | None => Throws "Cannot find module"
       end;
     UMI_ENV := env;
     NODE_ENV := node |}.

(** The instance as the constructor leaves it (lines 113-122), with the
    configuration the service has read at startup. *)
Definition started (config : value) : State :=
  {| this_config := config; this_configFailed := false;
     this_file := None; this_relativeFile := None;
     service_config := own_entries config;
     service_initialConfig := own_entries config;
     trace := [] |}.

Definition owner (n : string) : Plugin :=
  {| name := n; validate := None; onChange := None |}.

Definition listener (n : string) : Plugin :=
  {| name := n; validate := None; onChange := Some (fun _ => None) |}.

(** The example of the specification: base [{a:1,b:1}], environment
    override [{b:2}], local override [{b:3}], in development mode. *)
Definition precedence_world : World :=
  disk [("/app/.umirc.js", Returns (VObj [("a", VNum 1); ("b", VNum 1)]));
        ("/app/.umirc.prod.js", Returns (VObj [("b", VNum 2)]));
        ("/app/.umirc.local.js", Returns (VObj [("b", VNum 3)]))]
       (Some "prod") (Some "development").

(** A disk on which the environment override does not parse. *)
Definition broken_override_world : World :=
  disk [("/app/.umirc.js", Returns (VObj [("a", VNum 1)]));
        ("/app/.umirc.prod.js", Throws "SyntaxError: Unexpected token")]
       (Some "prod") None.

(** A plugin whose namespace must hold a number. *)
Definition numeric (n : string) : Plugin :=
  {| name := n;
     validate := Some (fun v => match v with
                                | VNum _ => None
                                | _ => Some "must be a number"
                                end);
     onChange := None |}.

(** A disk on which the environment override does not parse and the
    base file holds a value that its plugin rejects. *)
Definition broken_override_invalid_world : World :=
  disk [("/app/.umirc.js", Returns (VObj [("a", VStr "one")]));
        ("/app/.umirc.prod.js", Throws "SyntaxError: Unexpected token")]
       (Some "prod") None.

(** A cycle that starts Failed: the last reload was rejected for the
    key [b], which no plugin owned then; now [b] has an owner. *)
Definition rejected_state : State :=
  {| this_config := VObj [("a", VNum 1); ("b", VNum 2)];
     this_configFailed := true;
     this_file := Some "/app/.umirc.js";
     this_relativeFile := Some ".umirc.js";
     service_config := [("a", VNum 1)];
     service_initialConfig := [("a", VNum 1)];
     trace := [] |}.

(** The disk after a later edit of the base file: [b] has changed, [a]
    has not, and the overrides are gone. *)
Definition edited_world : World :=
  disk [("/app/.umirc.js", Returns (VObj [("a", VNum 1); ("b", VNum 4)]))]
       None None.

(** ** The rest of the file *)

Section Static.

Variable h : Host.

(** ** UserConfig.getConfig, the static method (lines 92-111)

    Called with [opts.cwd] the working directory of the host and
    [opts.service] its service.  All three files are read with the
    default handler; there is no hook and no check. *)
Definition static_getConfig (w : World) : M value :=
  (absConfigPath <- getConfigFile h w ;;
   match absConfigPath with
   | Some absConfigPath =>
       base <- requireFile w absConfigPath None ;;
       env <- match env_set (UMI_ENV w) with
              | Some env =>
                  requireFile w (replace_js absConfigPath ("." ++ env ++ ".js")) None
              | None => ret (VObj [])
              end ;;
       loc <- (if isDev w then requireFile w (replace_js absConfigPath ".local.js") None
               else ret (VObj [])) ;;
       lift (normalizeConfig (VObj (spread (spread (spread [] base) env) loc)))
   | None => ret (VObj [])
   end)%m.

(** [`${env}`] for an [env] that may be [undefined]. *)
Definition env_text (w : World) : string :=
  match UMI_ENV w with
  | Some e => e
  | None => "undefined"
  end.

(** Lines 148-158: the keys that [force] deletes from [require.cache]. *)
Definition evicted (w : World) : list string :=
  flat_map
    (fun file =>
       [join h (cwd h) file;
        join h (cwd h) (replace_js file ("." ++ env_text w ++ ".js"));
        join h (cwd h) (replace_js file ".local.js")])
    (CONFIG_FILES h).

(** The paths that lines 174-178 hand to [requireFile] for the base file
    [file]. *)
Definition loaded (w : World) (file : string) : list string :=
  (file
   :: match env_set (UMI_ENV w) with
      | Some env => [replace_js file ("." ++ env ++ ".js")]
      | None => []
      end
   ++ (if isDev w then [replace_js file ".local.js"] else []))%list.

(** The test of line 187 and the call of line 189: the plugin has no
    [validate], or its namespace is falsy, or [validate] returns. *)
Definition accepts (config : value) (plugin : Plugin) : bool :=
  match validate plugin with
  | Some f =>
      if truthy (member config (name plugin)) then
        match f (member config (name plugin)) with
        | None => true
        | Some _ => false
        end
      else true
  | None => true
  end.

(** The test of line 204: some plugin has this name. *)
Definition owned (key : string) : bool :=
  existsb (String.eqb key) (map name (plugins h)).

End Static.

(** A statement whose result does not depend on the state it starts in. *)
Definition stateless {A} (m : M A) : Prop :=
  forall s s', snd (m s) = snd (m s').

(** Two statements with the same result, whatever the states they start
    in. *)
Definition same_result {A} (m m' : M A) : Prop :=
  forall s s', snd (m s) = snd (m' s').

(** The disk [w] with the file [p] rewritten to export an empty object. *)
Definition emptied (w : World) (p : string) : World :=
  {| existsSync := existsSync w;
     require := fun q => if q =? p then Returns (VObj []) else require w q;
     UMI_ENV := UMI_ENV w;
     NODE_ENV := NODE_ENV w |}.

(** A statement that leaves [this.file] and [this.relativeFile] alone. *)
Definition keeps_files {A} (m : M A) : Prop :=
  forall s, this_file (fst (m s)) = this_file s
            /\ this_relativeFile (fst (m s)) = this_relativeFile s.

(** A disk without any configuration file. *)
Definition empty_world : World := disk [] None None.

(** A plugin that owns [n] and accepts only the number 1 for it. *)
Definition strict (n : string) : Plugin :=
  {| name := n;
     validate := Some (fun v => match v with
                                | VNum 1 => None
                                | _ => Some "must be 1"
                                end);
     onChange := None |}.

(** A page that line 19 cannot write to: a context is to be propagated
    and some entry of [pages] is not an object. *)
Definition bad_page (c : value) : Prop :=
  truthy (member c "context") = true
  /\ truthy (member c "pages") = true
  /\ exists k, In k (keys (own_entries (member c "pages")))
               /\ forall q, member (member c "pages") k <> VObj q.

Definition is_object (v : value) : bool :=
  match v with VObj _ => true | _ => false end.


(** * normalizeConfig on the heap

    [normalizeConfig] writes to the objects it is given: line 19 assigns
    to [page.context] and line 35 to [config.pages].  Here objects live
    at addresses of a heap, a property holds a primitive or the address
    of an object, and an assignment changes the object at its address,
    for everything that refers to it.  On a configuration in which the
    objects written to are not shared, the functions of this part compute
    what [normalizeConfig] above computes on the tree of the
    configuration. *)

Inductive ref_value : Type :=
| RUndef
| RNull
| RBool (b : bool)
| RNum (n : Z)
| RStr (s : string)
| RRef (a : nat).

(** The own enumerable properties of an object, in enumeration order. *)
Definition cells : Type := list (string * ref_value).

(** The object at address [a] is the [a]-th element; a new object goes
    to the end. *)
Definition heap : Type := list cells.

Definition r_truthy (v : ref_value) : bool :=
  match v with
  | RUndef | RNull => false
  | RBool b => b
  | RNum n => negb (n =? 0)%Z
  | RStr s => negb (s =? "")
  | RRef _ => true
  end.

Definition r_typeof_object (v : ref_value) : bool :=
  match v with
  | RNull | RRef _ => true
  | _ => false
  end.

Definition r_or (a b : ref_value) : ref_value := if r_truthy a then a else b.

Definition r_nullish (v : ref_value) : bool :=
  match v with RUndef | RNull => true | _ => false end.

Fixpoint h_lookup (k : string) (cs : cells) : option ref_value :=
  match cs with
  | [] => None
  | (k', v) :: t => if k =? k' then Some v else h_lookup k t
  end.

Definition h_has (k : string) (cs : cells) : bool :=
  match h_lookup k cs with Some _ => true | None => false end.

Fixpoint h_update (k : string) (v : ref_value) (cs : cells) : cells :=
  match cs with
  | [] => []
  | (k', v') :: t => if k =? k' then (k', v) :: t else (k', v') :: h_update k v t
  end.

Fixpoint h_insert_new (k : string) (v : ref_value) (cs : cells) : cells :=
  match cs with
  | [] => [(k, v)]
  | (k', v') :: t =>
      if key_before k k' then (k, v) :: cs else (k', v') :: h_insert_new k v t
  end.

Definition h_put (k : string) (v : ref_value) (cs : cells) : cells :=
  if h_has k cs then h_update k v cs else h_insert_new k v cs.

Definition h_keys (cs : cells) : list string := map fst cs.

Fixpoint string_cells (i : N) (s : string) : cells :=
  match s with
  | EmptyString => []
  | String c t => (index_key i, RStr (String c "")) :: string_cells (N.succ i) t
  end.

Definition cells_of (hp : heap) (a : nat) : cells :=
  match nth_error hp a with
  | Some cs => cs
  | None => []
  end.

Definition h_own_entries (hp : heap) (v : ref_value) : cells :=
  match v with
  | RRef a => cells_of hp a
  | RStr s => string_cells 0 s
  | _ => []
  end.

Definition h_member (hp : heap) (v : ref_value) (k : string) : ref_value :=
  match v with
  | RStr s =>
      if k =? "length" then RNum (Z.of_nat (String.length s))
      else match h_lookup k (string_cells 0 s) with Some c => c | None => RUndef end
  | _ => match h_lookup k (h_own_entries hp v) with Some x => x | None => RUndef end
  end.

Definition h_get_prop (hp : heap) (v : ref_value) (k : string) : result ref_value :=
  if r_nullish v then Throw TypeError else Ok (h_member hp v k).

(** The heap with [cs] at address [a]. *)
Fixpoint write (a : nat) (cs : cells) (hp : heap) : heap :=
  match hp, a with
  | [], _ => []
  | _ :: t, O => cs :: t
  | c :: t, S a' => c :: write a' cs t
  end.

(** [v[k] = x] in strict mode: the object that [v] refers to changes. *)
Definition h_set_prop (hp : heap) (v : ref_value) (k : string) (x : ref_value)
  : result heap :=
  match v with
  | RRef a => Ok (write a (h_put k x (cells_of hp a)) hp)
  | _ => Throw TypeError
  end.

Definition h_Object_keys (hp : heap) (v : ref_value) : result (list string) :=
  if r_nullish v then Throw TypeError else Ok (h_keys (h_own_entries hp v)).

Definition h_spread (hp : heap) (acc : cells) (v : ref_value) : cells :=
  fold_left (fun o k => h_put k (h_member hp v k) o) (h_keys (h_own_entries hp v)) acc.

(** The body of the [forEach] callback of lines 17-23: the object
    literal of lines 19-22 is a new object, and line 19 writes its address
    into the page. *)
Definition h_propagate_context (config : ref_value) (hp : heap) (key : string)
  : result heap :=
  pages <- h_get_prop hp config "pages" ;;
  page <- h_get_prop hp pages key ;;
  context <- h_get_prop hp config "context" ;;
  page_context <- h_get_prop hp page "context" ;;
  let merged := h_spread hp (h_spread hp [] context) page_context in
  h_set_prop (hp ++ [merged])%list page "context" (RRef (List.length hp)).

(** Lines 30-34 *)
Definition h_htmlSuffix_of (hp : heap) (config : ref_value) : bool :=
  let exportStatic := h_member hp config "exportStatic" in
  r_truthy exportStatic && r_typeof_object exportStatic
  && r_truthy (h_member hp exportStatic "htmlSuffix").

(** The callback of [reduce] of lines 35-49, for the accumulator at
    address [memo]. *)
Definition h_rekey (config : ref_value) (htmlSuffix : bool) (memo : nat)
    (hp : heap) (key : string) : result heap :=
  pages <- h_get_prop hp config "pages" ;;
  page <- h_get_prop hp pages key ;;
  h_set_prop hp (RRef memo) (newKey htmlSuffix key) page.

(** Lines 16-52, on the object chosen by line 14. *)
Definition h_normalize_rest (hp : heap) (config : ref_value)
  : result (heap * ref_value) :=
  context <- h_get_prop hp config "context" ;;
  pages <- h_get_prop hp config "pages" ;;
  hp <-
    (if r_truthy context && r_truthy pages then
       ks <- h_Object_keys hp pages ;;
       foldM (h_propagate_context config) ks hp
     else Ok hp) ;;
  pages <- h_get_prop hp config "pages" ;;
  if r_truthy pages then
    let htmlSuffix := h_htmlSuffix_of hp config in
    ks <- h_Object_keys hp pages ;;
    let memo := List.length hp in
    hp <- foldM (h_rekey config htmlSuffix memo) ks (hp ++ [[]])%list ;;
    hp <- h_set_prop hp config "pages" (RRef memo) ;;
    Ok (hp, config)
  else Ok (hp, config).

(** Line 14 *)
Definition h_chosen (hp : heap) (config : ref_value) : ref_value :=
  r_or (h_member hp config "default") config.

Definition h_normalizeConfig (hp : heap) (config : ref_value)
  : result (heap * ref_value) :=
  default <- h_get_prop hp config "default" ;;
  h_normalize_rest hp (r_or default config).

(** ** Trees on the heap *)

(** [rep hp v t]: from [v] the heap [hp] holds the finite tree [t]. *)
Inductive rep (hp : heap) : ref_value -> value -> Prop :=
| rep_undef : rep hp RUndef VUndef
| rep_null : rep hp RNull VNull
| rep_bool b : rep hp (RBool b) (VBool b)
| rep_num n : rep hp (RNum n) (VNum n)
| rep_str s : rep hp (RStr s) (VStr s)
| rep_ref a cs ts :
    nth_error hp a = Some cs -> reps hp cs ts -> rep hp (RRef a) (VObj ts)
with reps (hp : heap) : cells -> props -> Prop :=
| reps_nil : reps hp [] []
| reps_cons k x t cs ts :
    rep hp x t -> reps hp cs ts -> reps hp ((k, x) :: cs) ((k, t) :: ts).

Scheme rep_reps_ind := Minimality for rep Sort Prop
  with reps_rep_ind := Minimality for reps Sort Prop.


(** [reach hp v a]: the object at [a] is [v] or is referred to from
    inside [v]. *)
Inductive reach (hp : heap) : ref_value -> nat -> Prop :=
| reach_here a : reach hp (RRef a) a
| reach_step a cs k x b :
    nth_error hp a = Some cs -> In (k, x) cs -> reach hp x b ->
    reach hp (RRef a) b.

(** The addresses among some values. *)
Definition refs (vs : list ref_value) : list nat :=
  flat_map (fun v => match v with RRef a => [a] | _ => [] end) vs.

(** The values stored in [config.pages]. *)
Definition page_values (hp : heap) (config : ref_value) : list ref_value :=
  map snd (h_own_entries hp (h_member hp config "pages")).

(** What [normalizeConfig] reads and does not write: the members of the
    configuration other than [pages], and the members of the pages. *)
Definition kept (hp : heap) (config : ref_value) : list ref_value :=
  (map snd (filter (fun c => negb (fst c =? "pages")) (h_own_entries hp config))
   ++ flat_map (fun p => match p with
                         | RRef a => map snd (cells_of hp a)
                         | _ => []
                         end) (page_values hp config))%list.

(** The objects that [normalizeConfig] writes to are not shared: the
    configuration is not its own [pages] object nor one of its pages, the
    [pages] object is not a page, no object is the page of two keys, and
    neither the configuration nor a page can be reached from what is only
    read. *)
Definition separated (hp : heap) (config : ref_value) : Prop :=
  match config with
  | RRef c =>
      let pages := h_member hp config "pages" in
      let pcs := h_own_entries hp pages in
      NoDup (h_keys (cells_of hp c))
      /\ NoDup (h_keys pcs)
      /\ (forall k k' a,
            h_lookup k pcs = Some (RRef a) -> h_lookup k' pcs = Some (RRef a) ->
            k = k')
      /\ ~ In c (refs (pages :: page_values hp config))
      /\ (forall P, pages = RRef P -> ~ In P (refs (page_values hp config)))
      /\ (forall x a,
            In x (kept hp config) ->
            In a (c :: refs (page_values hp config)) ->
            ~ reach hp x a)
  | _ => True
  end.

(** ** What the refinement keeps *)

(** The configuration at address [c] holds the tree [cfg] and the
    objects that the pass writes to are not shared. *)
Definition inv (c : nat) (hp : heap) (cfg : value) : Prop :=
  rep hp (RRef c) cfg /\ separated hp (RRef c).

(** A value from which nothing that is written can be reached. *)
Definition safe (c : nat) (hp : heap) (y : ref_value) : Prop :=
  forall b, reach hp y b ->
    b < List.length hp /\ b <> c /\ ~ In b (refs (page_values hp (RRef c))).

(** The accumulator of the [reduce] of lines 35-49, with cells [mc] on
    the heap and properties [memo] in the tree: it holds pages of the
    configuration at [c], each under the new key of a key of [pages]. *)
Definition rekeying (c : nat) (hp1 : heap) (hs : bool) (mc : cells) (memo : props)
  : Prop :=
  reps hp1 mc memo
  /\ (forall nk a, In (nk, RRef a) mc -> In (RRef a) (page_values hp1 (RRef c)))
  /\ (forall nk a, h_lookup nk mc = Some (RRef a) ->
        exists k, nk = newKey hs k
                  /\ h_lookup k (h_own_entries hp1 (h_member hp1 (RRef c) "pages"))
                     = Some (RRef a))
  /\ NoDup (keys memo).

(** The configuration at [c] is allocated and is not one of its pages. *)
Definition apart (c : nat) (hp : heap) : Prop :=
  c < List.length hp /\ ~ In c (refs (page_values hp (RRef c))).

(** ** Example heaps *)

(** The context example of the specification, every object at an address
    of its own. *)
Definition spec_context_heap : heap :=
  [ [("context", RRef 1); ("pages", RRef 2)];
    [("x", RNum 1)];
    [("/a", RRef 3); ("/b", RRef 5)];
    [("context", RRef 4)];
    [("x", RNum 2)];
    [] ].

(** A configuration whose only page is the object that is also its
    context. *)
Definition shared_page_heap : heap :=
  [ [("context", RRef 1); ("pages", RRef 2)];
    [("x", RNum 1)];
    [("/a", RRef 1)] ].


(** * Facts *)

(** ** Strings *)

Lemma substring_0_0 s : substring 0 0 s = "".
Proof. destruct s; reflexivity. Qed.

Lemma substring_0_length s : substring 0 (String.length s) s = s.
Proof. induction s as [|c s IH]; simpl; [reflexivity | now rewrite IH]. Qed.

Lemma substring_0_ge s : forall n, String.length s <= n -> substring 0 n s = s.
Proof.
  induction s as [|c s IH]; intros [|n] Hn; simpl in *; try reflexivity; try lia.
  rewrite IH by lia. reflexivity.
Qed.

Lemma substring_skip p s n :
  substring (String.length p) n (p ++ s) = substring 0 n s.
Proof. induction p as [|c p IH]; simpl; [reflexivity | exact IH]. Qed.

Lemma substring_split s : forall m, m <= String.length s ->
  s = substring 0 m s ++ substring m (String.length s - m) s.
Proof.
  induction s as [|c s IH]; intros [|m] Hm; simpl in *; try lia.
  - reflexivity.
  - now rewrite substring_0_length.
  - rewrite <- IH by lia. reflexivity.
Qed.

Lemma length_append s t : String.length (s ++ t) = String.length s + String.length t.
Proof. induction s as [|c s IH]; simpl; [reflexivity | now rewrite IH]. Qed.

(** [s.slice(-n) === suffix] says that [s] ends in [suffix]. *)
Lemma slice_last_ends_with suffix s :
  suffix <> "" ->
  slice_last (String.length suffix) s = suffix <-> ends_with suffix s.
Proof.
  intros Hne. unfold slice_last, ends_with. split.
  - intros H.
    destruct (Nat.le_gt_cases (String.length suffix) (String.length s)) as [Hle|Hgt].
    + exists (substring 0 (String.length s - String.length suffix) s).
      rewrite (substring_split s (String.length s - String.length suffix)) at 1 by lia.
      f_equal. rewrite <- H at 3. f_equal. lia.
    + replace (String.length s - String.length suffix) with 0 in H by lia.
      rewrite substring_0_ge in H by lia. exists "". now subst.
  - intros [p ->]. rewrite length_append.
    replace (String.length p + String.length suffix - String.length suffix)
      with (String.length p) by lia.
    rewrite substring_skip. apply substring_0_length.
Qed.

Lemma charAt0_begins_with s : charAt0 s = "/" <-> begins_with "/" s.
Proof.
  unfold charAt0, begins_with. split.
  - destruct s as [|c s]; simpl; [discriminate|].
    rewrite substring_0_0. intros [= ->]. now exists s.
  - intros [t ->]. simpl. now rewrite substring_0_0.
Qed.

(** ** Properties of objects *)

Lemma has_In k ps : has k ps = true <-> In k (keys ps).
Proof.
  unfold has. induction ps as [|[k' v] t IH]; simpl.
  - split; [discriminate | tauto].
  - destruct (String.eqb_spec k k') as [->|Hne].
    + split; auto.
    + rewrite IH. split; [auto | intros [H|H]; [congruence | exact H]].
Qed.



Lemma lookup_Some_In k v ps : lookup k ps = Some v -> In k (keys ps).
Proof. intros H. apply has_In. unfold has. now rewrite H. Qed.

Lemma In_lookup_Some k ps : In k (keys ps) -> exists v, lookup k ps = Some v.
Proof.
  intros H. apply has_In in H. unfold has in H.
  destruct (lookup k ps) as [v|]; [now exists v | discriminate].
Qed.

Lemma keys_update k v ps : keys (update k v ps) = keys ps.
Proof.
  induction ps as [|[k' v'] t IH]; simpl; [reflexivity|].
  destruct (k =? k'); simpl; [reflexivity | now rewrite IH].
Qed.

Lemma lookup_update k v k' ps :
  lookup k' (update k v ps) =
  if k' =? k then (if has k ps then Some v else None) else lookup k' ps.
Proof.
  unfold has. induction ps as [|[k0 v0] t IH]; simpl.
  - now destruct (k' =? k).
  - destruct (String.eqb_spec k k0) as [->|Hne]; simpl.
    + destruct (String.eqb_spec k' k0); reflexivity.
    + destruct (String.eqb_spec k' k0) as [->|Hne'].
      * destruct (String.eqb_spec k0 k); [congruence | reflexivity].
      * exact IH.
Qed.

Lemma update_same k v ps : lookup k ps = Some v -> update k v ps = ps.
Proof.
  induction ps as [|[k' v'] t IH]; simpl; [reflexivity|].
  destruct (k =? k'); [intros [= ->]; reflexivity | intros H; now rewrite IH].
Qed.

Lemma update_update k v v' ps : update k v (update k v' ps) = update k v ps.
Proof.
  induction ps as [|[k' v0] t IH]; simpl; [reflexivity|].
  destruct (k =? k') eqn:E; simpl; rewrite E; [reflexivity | now rewrite IH].
Qed.

Lemma keys_insert_new k v ps k' :
  In k' (keys (insert_new k v ps)) <-> k' = k \/ In k' (keys ps).
Proof.
  induction ps as [|[k0 v0] t IH]; simpl.
  - split; intros [H|H]; auto.
  - destruct (key_before k k0); simpl; [split; intros [H|H]; auto|].
    rewrite IH. split; intros H; tauto.
Qed.

Lemma lookup_insert_new k v k' ps :
  has k ps = false ->
  lookup k' (insert_new k v ps) = if k' =? k then Some v else lookup k' ps.
Proof.
  unfold has. induction ps as [|[k0 v0] t IH]; simpl; intros Hk.
  - reflexivity.
  - destruct (String.eqb_spec k k0) as [->|Hne]; [discriminate|].
    destruct (key_before k k0); simpl.
    + reflexivity.
    + destruct (String.eqb_spec k' k0) as [->|Hne'].
      * destruct (String.eqb_spec k0 k); [congruence | reflexivity].
      * now apply IH.
Qed.

Lemma lookup_put k v k' ps :
  lookup k' (put k v ps) = if k' =? k then Some v else lookup k' ps.
Proof.
  unfold put. destruct (has k ps) eqn:E.
  - rewrite lookup_update, E. reflexivity.
  - now apply lookup_insert_new.
Qed.

Lemma keys_put k v ps k' :
  In k' (keys (put k v ps)) <-> k' = k \/ In k' (keys ps).
Proof.
  unfold put. destruct (has k ps) eqn:E.
  - rewrite keys_update. apply has_In in E. split; [auto | intros [->|H]; auto].
  - apply keys_insert_new.
Qed.


Lemma put_present k v ps : In k (keys ps) -> put k v ps = update k v ps.
Proof. intros H. apply has_In in H. unfold put. now rewrite H. Qed.

(** [{...acc, ...v}] member by member: the keys of [v] win. *)
Lemma lookup_spread v x : forall acc,
  lookup x (spread acc v) =
  if existsb (String.eqb x) (keys (own_entries v)) then Some (member v x)
  else lookup x acc.
Proof.
  unfold spread. induction (keys (own_entries v)) as [|k ks IH]; intros acc; simpl.
  - reflexivity.
  - rewrite IH, lookup_put.
    destruct (String.eqb_spec x k) as [->|Hne]; simpl.
    + now destruct (existsb (String.eqb k) ks).
    + reflexivity.
Qed.

Lemma existsb_eqb_In x ks : existsb (String.eqb x) ks = true <-> In x ks.
Proof.
  rewrite existsb_exists. split.
  - intros [y [Hy E]]. apply String.eqb_eq in E. now subst.
  - intros H. exists x. split; [exact H | apply String.eqb_refl].
Qed.

(** ** Enumeration order *)







Lemma enum_insert_In k ks x : In x (enum_insert k ks) <-> x = k \/ In x ks.
Proof.
  induction ks as [|k0 t IH]; simpl.
  - split; intros [H|H]; auto.
  - destruct (key_before k k0); simpl; [split; intros [H|H]; auto|].
    rewrite IH. tauto.
Qed.


Lemma enum_insert_NoDup k ks : ~ In k ks -> NoDup ks -> NoDup (enum_insert k ks).
Proof.
  induction ks as [|k0 t IH]; simpl; intros Hn Hd.
  - constructor; [tauto | constructor].
  - destruct (key_before k k0).
    + constructor; [simpl; tauto | exact Hd].
    + inversion Hd; subst. constructor.
      * rewrite enum_insert_In. intuition congruence.
      * apply IH; tauto.
Qed.



Lemma enum_put_NoDup k ks : NoDup ks -> NoDup (enum_put k ks).
Proof.
  unfold enum_put. destruct (existsb (String.eqb k) ks) eqn:E; [auto|].
  apply enum_insert_NoDup. rewrite <- existsb_eqb_In. congruence.
Qed.





Lemma existsb_keys_has k ps : existsb (String.eqb k) (keys ps) = has k ps.
Proof.
  apply eq_true_iff_eq. rewrite existsb_eqb_In. symmetry. apply has_In.
Qed.

Lemma keys_insert_new_enum k v ps :
  keys (insert_new k v ps) = enum_insert k (keys ps).
Proof.
  induction ps as [|[k0 v0] t IH]; simpl; [reflexivity|].
  destruct (key_before k k0); simpl; [reflexivity | now rewrite IH].
Qed.

Lemma keys_put_enum k v ps : keys (put k v ps) = enum_put k (keys ps).
Proof.
  unfold put, enum_put. rewrite existsb_keys_has.
  destruct (has k ps); [apply keys_update | apply keys_insert_new_enum].
Qed.












(** The key computed by lines 36-46 is the key rewritten as specified. *)
Lemma newKey_rewritten (hs : bool) (k : string) :
  rewritten (hs = true) k (newKey hs k).
Proof.
  unfold newKey, rewritten.
  set (c := hs && negb (slice_last 1 k =? "/") && negb (slice_last 5 k =? ".html")).
  assert (Hc : c = true <-> hs = true /\ ~ ends_with "/" k /\ ~ ends_with ".html" k).
  { unfold c. rewrite !andb_true_iff, !negb_true_iff, !String.eqb_neq.
    rewrite <- (slice_last_ends_with "/" k) by discriminate.
    rewrite <- (slice_last_ends_with ".html" k) by discriminate.
    simpl String.length. tauto. }
  exists (if c then k ++ ".html" else k).
  repeat split.
  - intros H. apply Hc in H. now rewrite H.
  - intros H. destruct c; [exfalso; apply H; now apply Hc | reflexivity].
  - intros H. apply charAt0_begins_with in H. now rewrite H.
  - intros H. rewrite <- charAt0_begins_with in H.
    apply String.eqb_neq in H. now rewrite H.
Qed.

(** C5, as the specification states it, fails: the key ['/about'] does
    get the suffix. *)
Lemma C5_pages_example_counterexample :
  ~ (exists r, normalizeConfig spec_pages_input = Ok r
               /\ forall k, In k (keys (own_entries (member r "pages")))
                            <-> k = "/index.html" \/ k = "/about").
Proof.
  intros [r [Hr Hk]]. vm_compute in Hr. injection Hr as <-.
  assert (H : In "/about" (keys (own_entries (member
     (VObj [("pages", VObj [("/index.html", VObj []); ("/about.html", VObj [])]);
            ("exportStatic", VObj [("htmlSuffix", VBool true)])]) "pages")))).
  { apply Hk. now right. }
  vm_compute in H. destruct H as [H|[H|[]]]; discriminate.
Qed.

(** C5 (amended): normalizing
    [{pages:{index:{}, '/about':{}}, exportStatic:{htmlSuffix:true}}]
    yields a pages mapping with exactly the keys ['/index.html'] and
    ['/about.html']: the already-slashed key keeps its slash and, like the
    other key, gets the ['.html'] suffix.  Both pages are the empty
    objects they were. *)
Theorem C5_pages_example :
  exists r ps,
    normalizeConfig spec_pages_input = Ok r
    /\ member r "pages" = VObj ps
    /\ (forall k, In k (keys ps) <-> k = "/index.html" \/ k = "/about.html")
    /\ ~ In "/about" (keys ps)
    /\ lookup "/index.html" ps = Some (VObj [])
    /\ lookup "/about.html" ps = Some (VObj []).
Proof.
  exists (VObj [("pages", VObj [("/index.html", VObj []); ("/about.html", VObj [])]);
                ("exportStatic", VObj [("htmlSuffix", VBool true)])]).
  exists [("/index.html", VObj []); ("/about.html", VObj [])].
  split; [reflexivity|]. split; [reflexivity|]. split; [|split].
  - intros k. simpl. split.
    + intros [<-|[<-|[]]]; auto.
    + intros [-> | ->]; auto.
  - simpl. intros [H|[H|[]]]; discriminate.
  - split; reflexivity.
Qed.

(** ** The loops of normalizeConfig *)




Lemma propagate_context_step cs ps key :
  lookup "pages" cs = Some (VObj ps) -> In key (keys ps) ->
  propagate_context (VObj cs) key =
  match lookup key ps with
  | Some (VObj q) =>
      Ok (VObj (update "pages"
                  (VObj (update key
                           (with_context (member (VObj cs) "context") (VObj q)) ps))
                  cs))
  | _ => Throw TypeError
  end.
Proof.
  intros Hp Hk. unfold propagate_context, get_prop at 1. simpl nullish. cbv iota.
  simpl member at 1. rewrite Hp. cbn [rbind].
  unfold get_prop at 1. simpl nullish. cbv iota. cbn [rbind member own_entries].
  destruct (In_lookup_Some _ _ Hk) as [p Hp']. rewrite Hp'.
  unfold get_prop at 1. simpl nullish. cbv iota. cbn [rbind].
  destruct p as [| | | | |q]; try reflexivity.
  unfold get_prop. simpl nullish. cbv iota. cbn [rbind set_prop].
  rewrite (put_present key) by exact Hk.
  rewrite (put_present "pages") by (eapply lookup_Some_In; eassumption).
  reflexivity.
Qed.

Lemma lookup_update_pages k v cs :
  (k =? "pages") = false -> lookup k (update "pages" v cs) = lookup k cs.
Proof. intros H. now rewrite lookup_update, H. Qed.

Lemma member_update_pages k v cs :
  (k =? "pages") = false ->
  member (VObj (update "pages" v cs)) k = member (VObj cs) k.
Proof. intros H. simpl. now rewrite lookup_update_pages. Qed.

Lemma foldM_propagate context : forall ks cs ps,
  lookup "pages" cs = Some (VObj ps) ->
  member (VObj cs) "context" = context ->
  incl ks (keys ps) ->
  (forall k, In k ks -> exists q, lookup k ps = Some (VObj q)) ->
  foldM propagate_context ks (VObj cs)
  = Ok (VObj (update "pages" (VObj (propagate_all context ks ps)) cs)).
Proof.
  induction ks as [|k ks IH]; intros cs ps Hp Hc Hi Ho; simpl.
  - now rewrite update_same.
  - rewrite (propagate_context_step cs ps k Hp) by (apply Hi; now left).
    destruct (Ho k (or_introl eq_refl)) as [q Hq]. rewrite Hq, Hc. cbn [rbind].
    rewrite IH with (ps := update k (with_context context (VObj q)) ps).
    + now rewrite update_update.
    + rewrite lookup_update, String.eqb_refl.
      apply lookup_Some_In, has_In in Hp. now rewrite Hp.
    + rewrite <- Hc. now apply member_update_pages.
    + rewrite keys_update. intros x Hx. apply Hi. now right.
    + intros x Hx. rewrite lookup_update.
      destruct (x =? k).
      * apply lookup_Some_In, has_In in Hq. rewrite Hq.
        unfold with_context. eauto.
      * apply Ho. now right.
Qed.

(** When the [forEach] of lines 17-23 completes, every page it visited is
    an object. *)
Lemma foldM_propagate_inv : forall ks cs ps r,
  lookup "pages" cs = Some (VObj ps) ->
  incl ks (keys ps) ->
  foldM propagate_context ks (VObj cs) = Ok r ->
  forall k, In k ks -> exists q, lookup k ps = Some (VObj q).
Proof.
  induction ks as [|k ks IH]; intros cs ps r Hp Hi Hr x Hx; [destruct Hx|].
  simpl in Hr.
  rewrite (propagate_context_step cs ps k Hp) in Hr by (apply Hi; now left).
  destruct (lookup k ps) as [[| | | | |q]|] eqn:Hq; try discriminate.
  cbn [rbind] in Hr.
  destruct Hx as [->|Hx]; [eauto|].
  assert (Hp' : lookup "pages"
                  (update "pages"
                     (VObj (update k
                              (with_context (member (VObj cs) "context") (VObj q)) ps))
                     cs)
                = Some (VObj (update k
                                (with_context (member (VObj cs) "context") (VObj q))
                                ps))).
  { rewrite lookup_update, String.eqb_refl.
    apply lookup_Some_In, has_In in Hp. now rewrite Hp. }
  assert (Hi' : incl ks (keys (update k
                   (with_context (member (VObj cs) "context") (VObj q)) ps))).
  { rewrite keys_update. intros y Hy. apply Hi. now right. }
  destruct (IH _ _ _ Hp' Hi' Hr x Hx) as [q' Hq'].
  rewrite lookup_update in Hq'.
  destruct (x =? k) eqn:E; [|eauto].
  apply String.eqb_eq in E. subst. eauto.
Qed.

Lemma foldM_rekey config pages hs : forall ks memo,
  nullish config = false -> member config "pages" = pages ->
  nullish pages = false ->
  foldM (rekey config hs) ks memo = Ok (rekey_all hs pages ks memo).
Proof.
  intros ks memo Hc Hp Hn. revert memo.
  induction ks as [|k ks IH]; intros memo; simpl; [reflexivity|].
  unfold rekey at 1, get_prop. rewrite Hc. cbn [rbind]. rewrite Hp, Hn.
  cbn [rbind]. apply IH.
Qed.

Lemma index_key_digit i : digit_head (index_key i) = true.
Proof.
  unfold index_key, NilZero.string_of_uint.
  destruct (N.to_uint i); reflexivity.
Qed.


Lemma string_entries_digit k v : forall s i,
  lookup k (string_entries i s) = Some v -> digit_head k = true.
Proof.
  induction s as [|c s IH]; intros i; simpl; [discriminate|].
  destruct (String.eqb_spec k (index_key i)) as [->|Hne].
  - intros _. apply index_key_digit.
  - apply IH.
Qed.

(** A string has no member under a key that does not start with a digit,
    [length] apart. *)
Lemma member_string s k :
  digit_head k = false -> (k =? "length") = false -> member (VStr s) k = VUndef.
Proof.
  intros Hd Hl. simpl. rewrite Hl.
  destruct (lookup k (string_entries 0 s)) as [v|] eqn:E; [|reflexivity].
  apply string_entries_digit in E. congruence.
Qed.


Lemma newKey_begins hs k : charAt0 (newKey hs k) = "/".
Proof.
  unfold newKey.
  match goal with |- context [negb (charAt0 ?x =? "/")] => generalize x end.
  intros x. destruct (String.eqb_spec (charAt0 x) "/") as [E|E]; simpl.
  - exact E.
  - unfold charAt0. simpl. now rewrite substring_0_0.
Qed.


Lemma ends_with_slash suffix s : ends_with suffix s -> ends_with suffix ("/" ++ s).
Proof. intros [p ->]. exists ("/" ++ p). reflexivity. Qed.

Lemma newKey_ends k :
  ends_with "/" (newKey true k) \/ ends_with ".html" (newKey true k).
Proof.
  unfold newKey. cbn [andb].
  destruct (String.eqb_spec (slice_last 1 k) "/") as [E1|E1]; cbn [negb andb].
  - apply (slice_last_ends_with "/") in E1; [|discriminate].
    left. destruct (negb (charAt0 k =? "/")); [now apply ends_with_slash | exact E1].
  - destruct (String.eqb_spec (slice_last 5 k) ".html") as [E5|E5]; cbn [negb].
    + apply (slice_last_ends_with ".html") in E5; [|discriminate].
      right. destruct (negb (charAt0 k =? "/")); [now apply ends_with_slash | exact E5].
    + right.
      assert (H : ends_with ".html" (k ++ ".html")) by now exists k.
      destruct (negb (charAt0 (k ++ ".html") =? "/"));
        [now apply ends_with_slash | exact H].
Qed.


Lemma keys_propagate_all context : forall ks ps,
  keys (propagate_all context ks ps) = keys ps.
Proof.
  induction ks as [|k ks IH]; intros ps; simpl; [reflexivity|].
  rewrite IH. destruct (lookup k ps); [apply keys_update | reflexivity].
Qed.



Lemma rekey_all_keys hs pages : forall ks memo k',
  In k' (keys (rekey_all hs pages ks memo)) <->
  In k' (keys memo) \/ exists k, In k ks /\ k' = newKey hs k.
Proof.
  induction ks as [|k ks IH]; intros memo k'; simpl.
  - split; [auto | intros [H|[k [[] _]]]; exact H].
  - rewrite IH, keys_put. split.
    + intros [[->|H]|[k0 [H ->]]]; eauto.
    + intros [H|[k0 [[->|H] ->]]]; eauto.
Qed.

Lemma rekey_all_NoDup hs pages : forall ks memo,
  NoDup (keys memo) -> NoDup (keys (rekey_all hs pages ks memo)).
Proof.
  induction ks as [|k ks IH]; intros memo H; simpl; [exact H|].
  apply IH. rewrite keys_put_enum. now apply enum_put_NoDup.
Qed.



(** ** normalizeConfig in closed form *)


Lemma get_prop_obj cs k : get_prop (VObj cs) k = Ok (member (VObj cs) k).
Proof. reflexivity. Qed.

Lemma member_pages_updated v cs :
  In "pages" (keys cs) -> member (VObj (update "pages" v cs)) "pages" = v.
Proof.
  intros H. simpl. rewrite lookup_update, String.eqb_refl.
  apply has_In in H. now rewrite H.
Qed.

Lemma htmlSuffix_of_update v cs :
  htmlSuffix_of (VObj (update "pages" v cs)) = htmlSuffix_of (VObj cs).
Proof.
  unfold htmlSuffix_of. now rewrite member_update_pages by reflexivity.
Qed.

Lemma normalize_rest_pages cs ps :
  lookup "pages" cs = Some (VObj ps) ->
  (truthy (member (VObj cs) "context") = true ->
   forall k, In k (keys ps) -> exists q, lookup k ps = Some (VObj q)) ->
  normalize_rest (VObj cs) = Ok (VObj (update "pages" (VObj (rekeyed cs ps)) cs)).
Proof.
  intros Hp Ho.
  assert (Hm : member (VObj cs) "pages" = VObj ps) by (simpl; now rewrite Hp).
  assert (Hin : In "pages" (keys cs)) by (eapply lookup_Some_In; eassumption).
  unfold normalize_rest, rekeyed, propagated. rewrite !get_prop_obj. cbn [rbind].
  rewrite Hm. cbn [truthy]. rewrite andb_true_r.
  destruct (truthy (member (VObj cs) "context")) eqn:Hc.
  - unfold Object_keys at 1. cbn [nullish rbind own_entries].
    rewrite (foldM_propagate (member (VObj cs) "context") (keys ps) cs ps Hp eq_refl)
      by (apply incl_refl || auto).
    cbn [rbind]. rewrite get_prop_obj. cbn [rbind].
    rewrite member_pages_updated by exact Hin. cbn [truthy].
    unfold Object_keys. cbn [nullish rbind own_entries].
    rewrite keys_propagate_all.
    erewrite foldM_rekey;
      [ | reflexivity | apply member_pages_updated; exact Hin | reflexivity].
    cbn [rbind set_prop]. rewrite htmlSuffix_of_update.
    rewrite put_present by (rewrite keys_update; exact Hin).
    now rewrite update_update.
  - cbn [rbind]. rewrite get_prop_obj. cbn [rbind]. rewrite Hm. cbn [truthy].
    unfold Object_keys. cbn [nullish rbind own_entries].
    erewrite foldM_rekey; [ | reflexivity | exact Hm | reflexivity].
    cbn [rbind set_prop]. now rewrite put_present by exact Hin.
Qed.

(** When normalization completes on a configuration with a truthy
    context, every page is an object. *)
Lemma normalize_rest_pages_inv cs ps r :
  lookup "pages" cs = Some (VObj ps) ->
  truthy (member (VObj cs) "context") = true ->
  normalize_rest (VObj cs) = Ok r ->
  forall k, In k (keys ps) -> exists q, lookup k ps = Some (VObj q).
Proof.
  intros Hp Hc Hr.
  assert (Hm : member (VObj cs) "pages" = VObj ps) by (simpl; now rewrite Hp).
  unfold normalize_rest in Hr. rewrite !get_prop_obj in Hr. cbn [rbind] in Hr.
  rewrite Hm, Hc in Hr. cbn [truthy andb] in Hr.
  unfold Object_keys at 1 in Hr. cbn [nullish rbind own_entries] in Hr.
  destruct (foldM propagate_context (keys ps) (VObj cs)) as [c1|e] eqn:Hf;
    [|discriminate].
  eapply foldM_propagate_inv; eauto. apply incl_refl.
Qed.

(** Without a truthy [pages] nothing is done. *)
Lemma normalize_rest_no_pages c :
  nullish c = false -> truthy (member c "pages") = false ->
  normalize_rest c = Ok c.
Proof.
  intros Hn Hp. unfold normalize_rest, get_prop. rewrite Hn. cbn [rbind].
  rewrite Hp, andb_false_r. cbn [rbind]. rewrite Hn. cbn [rbind].
  now rewrite Hp.
Qed.

(** A [pages] that is truthy but not an object: [true], a number, or a
    string, whose characters are then its pages. *)
Lemma normalize_rest_odd_pages cs p :
  lookup "pages" cs = Some p -> truthy p = true ->
  (forall ps, p <> VObj ps) ->
  normalize_rest (VObj cs) =
  if truthy (member (VObj cs) "context")
     && match p with VStr _ => true | _ => false end
  then Throw TypeError
  else Ok (VObj (update "pages"
                   (VObj (rekey_all (htmlSuffix_of (VObj cs)) p
                            (keys (own_entries p)) []))
                   cs)).
Proof.
  intros Hp Ht Ho.
  assert (Hm : member (VObj cs) "pages" = p) by (simpl; now rewrite Hp).
  assert (Hin : In "pages" (keys cs)) by (eapply lookup_Some_In; eassumption).
  assert (Hn : nullish p = false) by (destruct p; simpl in *; congruence).
  unfold normalize_rest. rewrite !get_prop_obj. cbn [rbind].
  rewrite Hm, Ht, andb_true_r.
  assert (Hstep2 :
    (pages <- get_prop (VObj cs) "pages" ;;
     if truthy pages then
       let htmlSuffix := htmlSuffix_of (VObj cs) in
       ks <- Object_keys pages ;;
       memo <- foldM (rekey (VObj cs) htmlSuffix) ks [] ;;
       set_prop (VObj cs) "pages" (VObj memo)
     else Ok (VObj cs))
    = Ok (VObj (update "pages"
                  (VObj (rekey_all (htmlSuffix_of (VObj cs)) p
                           (keys (own_entries p)) []))
                  cs))).
  { rewrite get_prop_obj. cbn [rbind]. rewrite Hm, Ht. cbv zeta.
    unfold Object_keys. rewrite Hn. cbn [rbind].
    erewrite foldM_rekey; [ | reflexivity | exact Hm | exact Hn].
    cbn [rbind set_prop]. now rewrite put_present by exact Hin. }
  destruct (truthy (member (VObj cs) "context")) eqn:Hc; cbn [andb].
  - destruct p as [| |b|n|s|ps]; try discriminate.
    + cbn [Object_keys nullish own_entries keys map rbind foldM]. exact Hstep2.
    + cbn [Object_keys nullish own_entries keys map rbind foldM]. exact Hstep2.
    + destruct s as [|a s]; [discriminate|].
      unfold Object_keys. cbn [nullish rbind own_entries string_entries keys map foldM].
      unfold propagate_context at 1. rewrite get_prop_obj. cbn [rbind].
      rewrite Hm. reflexivity.
    + exfalso. now apply (Ho ps).
  - cbn [rbind]. exact Hstep2.
Qed.




Lemma normalizeConfig_chosen x :
  nullish x = false -> normalizeConfig x = normalize_rest (chosen x).
Proof.
  intros H. unfold normalizeConfig, get_prop. rewrite H. reflexivity.
Qed.


Lemma member_pages_obj c ps :
  member c "pages" = VObj ps ->
  exists cs, c = VObj cs /\ lookup "pages" cs = Some (VObj ps).
Proof.
  destruct c as [| |b|n|s|cs]; try (simpl; discriminate).
  - rewrite member_string by reflexivity. discriminate.
  - simpl. destruct (lookup "pages" cs) as [v|] eqn:E; [|discriminate].
    intros ->. exists cs. auto.
Qed.

Lemma htmlSuffix_of_set c : htmlSuffix_of c = true <-> htmlSuffix_set c.
Proof.
  unfold htmlSuffix_of, htmlSuffix_set. split.
  - rewrite !andb_true_iff. intros [[H1 H2] H3].
    destruct (member c "exportStatic") as [| | | | |es]; try discriminate.
    exists es. auto.
  - intros [es [-> H]]. now rewrite H.
Qed.

Lemma rewritten_iff (P Q : Prop) k k' : (P <-> Q) -> rewritten P k k' -> rewritten Q k k'.
Proof.
  intros HPQ [k1 [H1 [H2 [H3 H4]]]]. exists k1. repeat split; auto.
  - intros H. apply H1. tauto.
  - intros H. apply H2. tauto.
Qed.

(** ** The claims about normalizeConfig *)


(** C6: for every configuration with a pages mapping, normalization
    rewrites every key of [pages]: when [exportStatic.htmlSuffix] is set
    and the key does not already end in ['/'] or ['.html'], ['.html'] is
    appended; then the key is made to begin with ['/'].  The keys of the
    normalized pages are exactly the rewritten keys.  (When a context is
    propagated the pages have to be objects for normalization to
    complete.) *)
Theorem C6_pages_keys_rewritten (x : value) (ps : props) :
  nullish x = false ->
  member (chosen x) "pages" = VObj ps ->
  (truthy (member (chosen x) "context") = true ->
   forall k, In k (keys ps) -> exists q, lookup k ps = Some (VObj q)) ->
  exists r ps',
    normalizeConfig x = Ok r
    /\ member r "pages" = VObj ps'
    /\ (forall k, In k (keys ps) ->
          exists k', In k' (keys ps') /\ rewritten (htmlSuffix_set (chosen x)) k k')
    /\ (forall k', In k' (keys ps') ->
          exists k, In k (keys ps) /\ rewritten (htmlSuffix_set (chosen x)) k k').
Proof.
  intros Hn Hp Ho. rewrite normalizeConfig_chosen by exact Hn.
  destruct (member_pages_obj _ _ Hp) as [cs [Hc Hl]]. rewrite Hc in *.
  exists (VObj (update "pages" (VObj (rekeyed cs ps)) cs)), (rekeyed cs ps).
  assert (Hin : In "pages" (keys cs)) by (eapply lookup_Some_In; eassumption).
  assert (Hrw : forall k, rewritten (htmlSuffix_set (VObj cs)) k
                            (newKey (htmlSuffix_of (VObj cs)) k)).
  { intros k. eapply rewritten_iff; [|apply newKey_rewritten].
    apply htmlSuffix_of_set. }
  repeat split.
  - now apply normalize_rest_pages.
  - now apply member_pages_updated.
  - intros k Hk. exists (newKey (htmlSuffix_of (VObj cs)) k). split; [|apply Hrw].
    unfold rekeyed. apply rekey_all_keys. right. eauto.
  - intros k' Hk'. unfold rekeyed in Hk'. apply rekey_all_keys in Hk'.
    destruct Hk' as [[]|[k [Hk ->]]]. exists k. split; [exact Hk | apply Hrw].
Qed.

Lemma C6_pages_keys_rewritten_witness :
  exists r ps',
    normalizeConfig spec_pages_input = Ok r
    /\ member r "pages" = VObj ps'
    /\ (forall k, In k ["index"; "/about"] ->
          exists k', In k' (keys ps')
                     /\ rewritten (htmlSuffix_set (chosen spec_pages_input)) k k')
    /\ (forall k', In k' (keys ps') ->
          exists k, In k ["index"; "/about"]
                    /\ rewritten (htmlSuffix_set (chosen spec_pages_input)) k k').
Proof.
  apply (C6_pages_keys_rewritten spec_pages_input
           [("index", VObj []); ("/about", VObj [])]);
    [reflexivity | reflexivity | discriminate].
Defined.




(** The example of the specification: the page's own [x] wins in ['/a'],
    ['/b'] inherits the top-level [x]. *)
Example context_example :
  exists r,
    normalizeConfig spec_context_input = Ok r
    /\ member (member (member (member r "pages") "/a") "context") "x" = VNum 2
    /\ member (member (member (member r "pages") "/b") "context") "x" = VNum 1.
Proof. eexists. split; [reflexivity|]. split; reflexivity. Qed.

Lemma normalize_rest_shape c r :
  normalize_rest c = Ok r ->
  r = c \/ exists cs memo, c = VObj cs /\ r = VObj (update "pages" (VObj memo) cs).
Proof.
  intros Hr.
  assert (Hnp : nullish c = false -> truthy (member c "pages") = false -> r = c).
  { intros Hn Hp. rewrite normalize_rest_no_pages in Hr by assumption. congruence. }
  destruct c as [| |b|n|s|cs]; try discriminate;
    try (left; apply Hnp; reflexivity).
  - left. apply Hnp; [reflexivity|]. now rewrite member_string.
  - destruct (lookup "pages" cs) as [p|] eqn:Hp;
      [|left; apply Hnp; [reflexivity | simpl; now rewrite Hp]].
    destruct (truthy p) eqn:Ht;
      [|left; apply Hnp; [reflexivity | simpl; now rewrite Hp]].
    right. exists cs.
    destruct p as [| |b|n|s|ps]; try discriminate.
    + rewrite (normalize_rest_odd_pages cs _ Hp Ht) in Hr by discriminate.
      rewrite andb_false_r in Hr. injection Hr as <-. eauto.
    + rewrite (normalize_rest_odd_pages cs _ Hp Ht) in Hr by discriminate.
      rewrite andb_false_r in Hr. injection Hr as <-. eauto.
    + rewrite (normalize_rest_odd_pages cs _ Hp Ht) in Hr by discriminate.
      destruct (truthy (member (VObj cs) "context") && true); [discriminate|].
      injection Hr as <-. eauto.
    + assert (Ho : truthy (member (VObj cs) "context") = true ->
                   forall k, In k (keys ps) -> exists q, lookup k ps = Some (VObj q)).
      { intros Hc. eapply normalize_rest_pages_inv; eauto. }
      rewrite (normalize_rest_pages cs ps Hp Ho) in Hr. injection Hr as <-. eauto.
Qed.

(** Normalization leaves every namespace but [pages] as it is. *)
Lemma normalize_rest_member c r k :
  normalize_rest c = Ok r -> k <> "pages" -> member r k = member c k.
Proof.
  intros Hr Hk. apply normalize_rest_shape in Hr.
  destruct Hr as [->|[cs [memo [-> ->]]]]; [reflexivity|].
  apply member_update_pages. now apply String.eqb_neq.
Qed.

(** ** Loading the units *)

Section Loading.

Variable h : Host.
Variable w : World.

Lemma requireFile_default p s :
  exists s', requireFile w p None s = (s', Ok (load_unit w p)) /\ only_logs s s'.
Proof.
  unfold requireFile, load_unit.
  assert (R : only_logs s s).
  { repeat split. exists []. split; [now rewrite app_nil_r | constructor]. }
  destruct (existsSync w p); cbn [negb];
    [|exists s; split; [reflexivity | exact R]].
  destruct (try_load w p) as [c|e];
    [exists s; split; [reflexivity | exact R]|].
  eexists. split; [reflexivity|].
  repeat split. exists [ConsoleError e]. split; [reflexivity|].
  repeat constructor.
Qed.

Lemma requireFile_base_ok file base s :
  existsSync w file = true -> try_load w file = Ok base ->
  requireFile w file (Some (getConfig_onError h)) s = (s, Ok base).
Proof. intros He Hl. unfold requireFile. now rewrite He, Hl. Qed.

Lemma requireFile_base_throw file e s :
  existsSync w file = true -> try_load w file = Throw e ->
  requireFile w file (Some (getConfig_onError h)) s
  = (emit (PrintError (ConfigFileError (remove_first (cwd h ++ "/") file) e)) s,
     Throw (ConfigFileError (remove_first (cwd h ++ "/") file) e)).
Proof. intros He Hl. unfold requireFile. now rewrite He, Hl. Qed.

End Loading.

Lemma only_logs_refl s : only_logs s s.
Proof.
  repeat split. exists []. split; [now rewrite app_nil_r | constructor].
Qed.

Lemma only_logs_trans s1 s2 s3 : only_logs s1 s2 -> only_logs s2 s3 -> only_logs s1 s3.
Proof.
  intros (A1 & A2 & A3 & A4 & e1 & A5 & A6) (B1 & B2 & B3 & B4 & e2 & B5 & B6).
  repeat split; try congruence.
  exists (e1 ++ e2)%list. split.
  - now rewrite B5, A5, app_assoc.
  - apply Forall_app. auto.
Qed.

Lemma only_logs_emit s e : is_log e -> only_logs s (emit e s).
Proof.
  intros H. repeat split. exists [e]. split; [reflexivity | now repeat constructor].
Qed.

(** The object that line 174 hands to [normalizeConfig], when the base
    file loads. *)
Lemma loadUnits_ok h w file base s :
  existsSync w file = true -> try_load w file = Ok base ->
  exists s',
    loadUnits h w file s
    = (s', Ok (VObj (spread
                       (spread (spread [] base)
                          match env_set (UMI_ENV w) with
                          | Some e => load_unit w (replace_js file ("." ++ e ++ ".js"))
                          | None => VObj []
                          end)
                       (if isDev w then load_unit w (replace_js file ".local.js")
                        else VObj []))))
    /\ only_logs s s'.
Proof.
  intros He Hl. unfold loadUnits, bind.
  rewrite (requireFile_base_ok h w file base s He Hl).
  assert (E : exists s1,
    match env_set (UMI_ENV w) with
    | Some env => requireFile w (replace_js file ("." ++ env ++ ".js")) None
    | None => ret (VObj [])
    end s
    = (s1, Ok match env_set (UMI_ENV w) with
              | Some e => load_unit w (replace_js file ("." ++ e ++ ".js"))
              | None => VObj []
              end) /\ only_logs s s1).
  { destruct (env_set (UMI_ENV w)) as [e|].
    - apply requireFile_default.
    - exists s. split; [reflexivity | apply only_logs_refl]. }
  destruct E as [s1 [E1 L1]]. rewrite E1.
  assert (F : exists s2,
    (if isDev w then requireFile w (replace_js file ".local.js") None
     else ret (VObj [])) s1
    = (s2, Ok (if isDev w then load_unit w (replace_js file ".local.js")
               else VObj [])) /\ only_logs s1 s2).
  { destruct (isDev w).
    - apply requireFile_default.
    - exists s1. split; [reflexivity | apply only_logs_refl]. }
  destruct F as [s2 [F1 L2]]. rewrite F1.
  exists s2. split; [reflexivity | eapply only_logs_trans; eassumption].
Qed.

Lemma lookup_spread3 base env loc k :
  lookup k (spread (spread (spread [] base) env) loc) = precedence base env loc k.
Proof. unfold precedence. now rewrite !lookup_spread. Qed.

(** ** Resolution on the example of the specification *)

(** The example of the specification, through [getConfig]: the resolved
    [b] is 3 and [a] is 1. *)
Example precedence_example :
  snd (getConfig (example_host [owner "a"; owner "b"]) precedence_world true None
         (started (VObj [])))
  = Ok (VObj [("a", VNum 1); ("b", VNum 3)]).
Proof. reflexivity. Qed.

(** ** The checks of getConfig *)

Section Checks.

Variable h : Host.
Variable setConfig : option (value -> State -> State).
Variable config : value.

Lemma validatePlugin_outcome plugin s :
  check_outcome setConfig config s (validatePlugin setConfig config plugin s).
Proof.
  unfold check_outcome, validatePlugin, bind, lift, get_prop.
  destruct (nullish config) eqn:Hn; [right; left; auto|].
  destruct (validate plugin) as [f|]; [|left; reflexivity].
  destruct (truthy (member config (name plugin))); [|left; reflexivity].
  destruct (f (member config (name plugin))) as [msg|]; [|left; reflexivity].
  right. right. exists (ValidationError (name plugin) msg).
  split; [reflexivity|].
  unfold call_setConfig. destruct setConfig; reflexivity.
Qed.

Lemma checkKey_outcome rel names key s :
  check_outcome setConfig config s (checkKey h setConfig rel config names key s).
Proof.
  unfold check_outcome, checkKey.
  destruct (existsb (String.eqb key) names); cbn [negb]; [left; reflexivity|].
  right. right. eexists (UnknownKeyError rel key _ names).
  split; [reflexivity|].
  unfold call_setConfig, bind, modify, throw.
  destruct setConfig; reflexivity.
Qed.

Lemma forM_check_outcome {A} (body : A -> M unit) l :
  (forall a s, check_outcome setConfig config s (body a s)) ->
  forall s, check_outcome setConfig config s (forM body l s).
Proof.
  intros Hb. induction l as [|a l IH]; intros s; simpl.
  - left. reflexivity.
  - unfold bind. destruct (Hb a s) as [E|[[E Hn]|[e [He E]]]]; rewrite E.
    + apply IH.
    + right. left. auto.
    + right. right. eauto.
Qed.

Lemma checkConfig_outcome rel s :
  check_outcome setConfig config s (checkConfig h setConfig rel config s).
Proof.
  unfold checkConfig, bind.
  destruct (forM_check_outcome (validatePlugin setConfig config) (plugins h)
              validatePlugin_outcome s) as [E|[[E Hn]|[e [He E]]]]; rewrite E.
  - unfold lift, Object_keys.
    destruct (nullish config) eqn:Hn; [right; left; auto|].
    apply forM_check_outcome. intros a s0. apply checkKey_outcome.
  - right. left. auto.
  - right. right. eauto.
Qed.

End Checks.

(** ** Failures of normalizeConfig *)

Lemma rbind_Throw {A B} (r : result A) (k : A -> result B) e :
  rbind r k = Throw e -> r = Throw e \/ exists a, r = Ok a /\ k a = Throw e.
Proof. destruct r as [a|e']; simpl; [eauto | intros [= ->]; auto]. Qed.

Lemma get_prop_Throw v k e : get_prop v k = Throw e -> e = TypeError.
Proof. unfold get_prop. destruct (nullish v); congruence. Qed.

Lemma set_prop_Throw v k x e : set_prop v k x = Throw e -> e = TypeError.
Proof. destruct v; simpl; congruence. Qed.

Lemma Object_keys_Throw v e : Object_keys v = Throw e -> e = TypeError.
Proof. unfold Object_keys. destruct (nullish v); congruence. Qed.

Lemma foldM_Throw {A B} (f : A -> B -> result A) e :
  (forall a b, f a b = Throw e -> e = TypeError) ->
  forall l a, foldM f l a = Throw e -> e = TypeError.
Proof.
  intros Hf. induction l as [|b l IH]; intros a; simpl; [discriminate|].
  intros H. apply rbind_Throw in H. destruct H as [H|[a' [_ H]]]; eauto.
Qed.

Ltac type_error :=
  repeat match goal with
         | H : rbind _ _ = Throw _ |- _ =>
             apply rbind_Throw in H; destruct H as [H|[? [_ H]]]
         | H : get_prop _ _ _ = Throw _ |- _ => apply get_prop_Throw in H
         | H : get_prop _ _ = Throw _ |- _ => apply get_prop_Throw in H
         | H : set_prop _ _ _ = Throw _ |- _ => apply set_prop_Throw in H
         | H : Object_keys _ = Throw _ |- _ => apply Object_keys_Throw in H
         | H : (if ?c then _ else _) = Throw _ |- _ => destruct c
         | H : Ok _ = Throw _ |- _ => discriminate H
         end; try assumption.

Lemma propagate_context_Throw c k e : propagate_context c k = Throw e -> e = TypeError.
Proof. unfold propagate_context. intros H. type_error. Qed.

Lemma rekey_Throw c hs memo k e : rekey c hs memo k = Throw e -> e = TypeError.
Proof. unfold rekey. intros H. type_error. Qed.

(** [normalizeConfig] fails with a [TypeError] or not at all. *)
Lemma normalizeConfig_Throw c e : normalizeConfig c = Throw e -> e = TypeError.
Proof.
  unfold normalizeConfig, normalize_rest. intros H. type_error.
  - eapply (foldM_Throw propagate_context);
      [intros a b; apply propagate_context_Throw | eassumption].
  - eapply (foldM_Throw (rekey _ _)); [intros a b; apply rekey_Throw | eassumption].
Qed.

(** ** The phases of getConfig *)

Section Phases.

Variable h : Host.
Variable w : World.

Lemma getConfigFile_logs s :
  exists s0,
    getConfigFile h w s
    = (s0, Ok (hd_error (filter (existsSync w)
                           (map (join h (cwd h)) (CONFIG_FILES h)))))
    /\ only_logs s s0.
Proof.
  unfold getConfigFile, bind, when.
  destruct (1 <? List.length _)%nat.
  - eexists. split; [reflexivity|]. now apply only_logs_emit.
  - exists s. split; [reflexivity | apply only_logs_refl].
Qed.

Lemma found_exists file :
  hd_error (filter (existsSync w) (map (join h (cwd h)) (CONFIG_FILES h)))
  = Some file ->
  existsSync w file = true.
Proof.
  intros H.
  assert (Hin : In file (filter (existsSync w)
                           (map (join h (cwd h)) (CONFIG_FILES h)))).
  { destruct (filter _ _); [discriminate|]. injection H as ->. now left. }
  apply filter_In in Hin. tauto.
Qed.

Lemma loadUnits_logs file s :
  exists s' r, loadUnits h w file s = (s', r) /\ only_logs s s'
               /\ forall e, r = Throw e -> is_rejection e = false.
Proof.
  unfold loadUnits, bind.
  assert (B : exists s1 r1,
    requireFile w file (Some (getConfig_onError h)) s = (s1, r1)
    /\ only_logs s s1 /\ forall e, r1 = Throw e -> is_rejection e = false).
  { unfold requireFile.
    destruct (existsSync w file); cbn [negb];
      [|exists s, (Ok (VObj [])); split; [reflexivity|];
        split; [apply only_logs_refl | discriminate]].
    destruct (try_load w file) as [c|e].
    - exists s, (Ok c). split; [reflexivity|].
      split; [apply only_logs_refl | discriminate].
    - eexists _, _. split; [reflexivity|]. split.
      + now apply only_logs_emit.
      + intros e' [= <-]. reflexivity. }
  destruct B as [s1 [[base|e] [E1 [L1 R1]]]]; rewrite E1; [|eauto].
  assert (E : exists s2 env,
    match env_set (UMI_ENV w) with
    | Some env => requireFile w (replace_js file ("." ++ env ++ ".js")) None
    | None => ret (VObj [])
    end s1 = (s2, Ok env) /\ only_logs s1 s2).
  { destruct (env_set (UMI_ENV w)) as [e|].
    - destruct (requireFile_default w (replace_js file ("." ++ e ++ ".js")) s1)
        as [s2 [E2 L2]]. eauto.
    - exists s1, (VObj []). split; [reflexivity | apply only_logs_refl]. }
  destruct E as [s2 [env [E2 L2]]]. rewrite E2.
  assert (F : exists s3 loc,
    (if isDev w then requireFile w (replace_js file ".local.js") None
     else ret (VObj [])) s2 = (s3, Ok loc) /\ only_logs s2 s3).
  { destruct (isDev w).
    - destruct (requireFile_default w (replace_js file ".local.js") s2)
        as [s3 [E3 L3]]. eauto.
    - exists s2, (VObj []). split; [reflexivity | apply only_logs_refl]. }
  destruct F as [s3 [loc [E3 L3]]]. rewrite E3.
  eexists _, _. split; [reflexivity|]. split; [|discriminate].
  eapply only_logs_trans; [|eassumption].
  eapply only_logs_trans; eassumption.
Qed.

Lemma only_logs_relativeFile f s : only_logs s (with_relativeFile f s).
Proof.
  repeat split. exists []. split; [now rewrite app_nil_r | constructor].
Qed.

Lemma only_logs_file f s : only_logs s (with_file f s).
Proof.
  repeat split. exists []. split; [now rewrite app_nil_r | constructor].
Qed.

(** Resolution only reports, and does not fail by rejecting a
    configuration. *)
Lemma resolveConfig_logs file s :
  exists s' r, resolveConfig h w file s = (s', r) /\ only_logs s s'
               /\ forall e, r = Throw e -> is_rejection e = false.
Proof.
  unfold resolveConfig, bind, modify.
  destruct (loadUnits_logs file
              (with_relativeFile (Some (remove_first (cwd h ++ "/") file)) s))
    as [s1 [r1 [E1 [L1 R1]]]].
  rewrite E1.
  assert (L : only_logs s s1).
  { eapply only_logs_trans; [apply only_logs_relativeFile | exact L1]. }
  destruct r1 as [merged|e]; [|eauto].
  unfold lift. destruct (normalizeConfig merged) as [c|e] eqn:En.
  - destruct (modifyConfig h c) as [c'|msg].
    + exists s1, (Ok c'). split; [reflexivity|]. split; [exact L | discriminate].
    + exists s1, (Throw (HookError msg)). split; [reflexivity|].
      split; [exact L|]. intros e [= <-]. reflexivity.
  - exists s1, (Throw e). split; [reflexivity|]. split; [exact L|].
    intros e' [= <-]. apply normalizeConfig_Throw in En. now subst.
Qed.

(** [getConfig], phase by phase: without a configuration file the result
    is the empty object; otherwise resolution runs, and when it returns a
    configuration the checks decide. *)
Lemma getConfig_phases force setConfig s :
  let found := hd_error (filter (existsSync w)
                           (map (join h (cwd h)) (CONFIG_FILES h))) in
  let s0 := with_file found (fst (getConfigFile h w s)) in
  only_logs s s0 /\
  match found with
  | None => getConfig h w force setConfig s = (s0, Ok (VObj []))
  | Some file =>
      exists s1 r1,
        resolveConfig h w file s0 = (s1, r1)
        /\ only_logs s s1
        /\ match r1 with
           | Throw e =>
               getConfig h w force setConfig s = (s1, Throw e)
               /\ is_rejection e = false
           | Ok config =>
               getConfig h w force setConfig s = (s1, Ok config)
               \/ (getConfig h w force setConfig s = (s1, Throw TypeError)
                   /\ nullish config = true)
               \/ exists e,
                    is_rejection e = true
                    /\ getConfig h w force setConfig s
                       = (emit (PrintError (printed e))
                            (call_setConfig setConfig config s1), Throw e)
           end
  end.
Proof.
  intros found s0. subst found s0.
  destruct (getConfigFile_logs s) as [s0 [E0 L0]].
  unfold getConfig, bind. rewrite E0. unfold modify. cbn [fst].
  destruct (hd_error _) as [file|].
  - assert (L0' : only_logs s (with_file (Some file) s0)).
    { eapply only_logs_trans; [exact L0 | apply only_logs_file]. }
    split; [exact L0'|].
    destruct (resolveConfig_logs file (with_file (Some file) s0))
      as [s1 [r1 [E1 [L1 R1]]]].
    exists s1, r1. rewrite E1.
    split; [reflexivity|]. split; [eapply only_logs_trans; eassumption|].
    destruct r1 as [config|e]; [|split; [reflexivity | now apply R1]].
    destruct (checkConfig_outcome h setConfig config
                (remove_first (cwd h ++ "/") file) s1)
      as [E|[[E Hn]|[e [He E]]]]; rewrite E.
    + left. reflexivity.
    + right. left. auto.
    + right. right. eauto.
  - split; [|reflexivity].
    eapply only_logs_trans; [exact L0 | apply only_logs_file].
Qed.

(** When the base file loads, resolution fails in the normalization of
    the merge or in the host's hook, or not at all. *)
Lemma resolveConfig_base_ok file base s s' e :
  existsSync w file = true -> try_load w file = Ok base ->
  resolveConfig h w file s = (s', Throw e) ->
  e = TypeError \/ exists msg, e = HookError msg.
Proof.
  intros He Hl. unfold resolveConfig, bind, modify.
  destruct (loadUnits_ok h w file base
              (with_relativeFile (Some (remove_first (cwd h ++ "/") file)) s)
              He Hl) as [s1 [E1 _]].
  rewrite E1. unfold lift.
  destruct (normalizeConfig _) as [c|e'] eqn:En.
  - destruct (modifyConfig h c) as [c'|msg]; [discriminate|].
    intros [= _ <-]. eauto.
  - intros [= _ <-]. apply normalizeConfig_Throw in En. auto.
Qed.

End Phases.

(** ** The claims about getConfig *)

(** C9: whenever [getConfig] fails with a schema-validation error or an
    unknown-key error and the caller supplied a [setConfig] callback, the
    callback has been invoked with the resolved configuration before the
    error was printed and thrown: the final state is the state at the end
    of resolution, after the callback and the report, and until then the
    call had only reported. *)
Theorem C9_setConfig_before_throw (h : Host) (w : World) (force : bool)
    (setConfig : value -> State -> State) (s s' : State) (e : error) :
  getConfig h w force (Some setConfig) s = (s', Throw e) ->
  is_rejection e = true ->
  exists file s1 config,
    hd_error (filter (existsSync w) (map (join h (cwd h)) (CONFIG_FILES h)))
    = Some file
    /\ resolveConfig h w file (with_file (Some file) (fst (getConfigFile h w s)))
       = (s1, Ok config)
    /\ only_logs s s1
    /\ s' = emit (PrintError (printed e)) (setConfig config s1).
Proof.
  intros Hg He.
  destruct (getConfig_phases h w force (Some setConfig) s) as [_ H].
  destruct (hd_error _) as [file|]; [|rewrite H in Hg; discriminate].
  destruct H as [s1 [r1 [E1 [L1 H]]]].
  exists file, s1.
  destruct r1 as [config|e1].
  - exists config. split; [reflexivity|]. split; [exact E1|]. split; [exact L1|].
    destruct H as [E|[[E _]|[e' [He' E]]]]; rewrite E in Hg.
    + discriminate.
    + injection Hg as _ <-. discriminate.
    + injection Hg as <- <-. reflexivity.
  - destruct H as [E Hr]. rewrite E in Hg. injection Hg as _ <-. congruence.
Qed.

Lemma C9_setConfig_before_throw_witness :
  exists file s1 config,
    hd_error (filter (existsSync precedence_world)
                (map (join (example_host [listener "a"])
                        (cwd (example_host [listener "a"])))
                   (CONFIG_FILES (example_host [listener "a"]))))
    = Some file
    /\ resolveConfig (example_host [listener "a"]) precedence_world file
         (with_file (Some file)
            (fst (getConfigFile (example_host [listener "a"]) precedence_world
                    (started (VObj [("a", VNum 0)])))))
       = (s1, Ok config)
    /\ only_logs (started (VObj [("a", VNum 0)])) s1
    /\ fst (getConfig (example_host [listener "a"]) precedence_world true
              (Some handler_setConfig) (started (VObj [("a", VNum 0)])))
       = emit (PrintError (printed (UnknownKeyError ".umirc.js" "b" None ["a"])))
           (handler_setConfig config s1).
Proof.
  apply (C9_setConfig_before_throw (example_host [listener "a"]) precedence_world
           true handler_setConfig (started (VObj [("a", VNum 0)])));
    reflexivity.
Defined.

(** On a disk whose environment override does not parse, [getConfig]
    logs the error and returns the base configuration. *)
Example broken_override_example :
  getConfig (example_host [owner "a"]) broken_override_world true None
    (started (VObj []))
  = (emit (ConsoleError (LoadError "SyntaxError: Unexpected token"))
       (with_relativeFile (Some ".umirc.js")
          (with_file (Some "/app/.umirc.js") (started (VObj [])))),
     Ok (VObj [("a", VNum 1)])).
Proof. reflexivity. Qed.

(** ** The propagation loop of the handler *)

Section Diff.

Variable h : Host.
Variables newConfig oldConfig : value.

Lemma diffed_silent ps s r :
  (r = Ok tt -> forall plugin, In plugin ps ->
     isEqual h (member newConfig (name plugin)) (member oldConfig (name plugin))
     = true) ->
  (forall e, r = Throw e -> e = TypeError) ->
  diffed h newConfig oldConfig ps s s r [].
Proof.
  intros Hok Hth. unfold diffed.
  split; [now rewrite app_nil_r|]. split; [reflexivity|]. split; [reflexivity|].
  split; [|split].
  - intros N HN. split; [intros e []|]. split; reflexivity.
  - intros Hr plugin Hin Heq. rewrite (Hok Hr plugin Hin) in Heq. discriminate.
  - intros e He. left. now apply Hth.
Qed.

Lemma diffPlugin_diffed plugin s :
  exists s' r evs,
    diffPlugin h newConfig oldConfig plugin s = (s', r)
    /\ diffed h newConfig oldConfig [plugin] s s' r evs.
Proof.
  unfold diffPlugin, bind, lift, get_prop.
  destruct (nullish newConfig) eqn:Hn.
  { exists s, (Throw TypeError), []. split; [reflexivity|].
    apply diffed_silent; [discriminate | congruence]. }
  destruct (nullish oldConfig) eqn:Ho.
  { exists s, (Throw TypeError), []. split; [reflexivity|].
    apply diffed_silent; [discriminate | congruence]. }
  destruct (isEqual h (member newConfig (name plugin))
              (member oldConfig (name plugin))) eqn:Heq; cbn [negb].
  { exists s, (Ok tt), []. split; [reflexivity|].
    apply diffed_silent; [|discriminate].
    intros _ p [<-|[]]. exact Heq. }
  unfold diffed.
  assert (Hne : forall N,
    isEqual h (member newConfig N) (member oldConfig N) = true ->
    (N =? name plugin) = false).
  { intros N HN. apply String.eqb_neq. intros ->. congruence. }
  assert (Hnt : forall N e,
    isEqual h (member newConfig N) (member oldConfig N) = true ->
    In e [SetInitialConfig (name plugin) (member newConfig (name plugin));
          SetServiceConfig (name plugin) (member newConfig (name plugin));
          OnChange (name plugin) newConfig] -> ~ touches N e).
  { intros N e HN He Ht. apply Hne in HN. apply String.eqb_neq in HN.
    destruct He as [<-|[<-|[<-|[]]]]; simpl in Ht; congruence. }
  unfold modify.
  destruct (onChange plugin) as [f|] eqn:Hoc.
  - destruct (f newConfig) as [msg|] eqn:Hf.
    + eexists _, (Throw (PluginError msg)),
        [SetInitialConfig (name plugin) (member newConfig (name plugin));
         SetServiceConfig (name plugin) (member newConfig (name plugin));
         OnChange (name plugin) newConfig].
      split; [reflexivity|]. split; [simpl; now rewrite <- !app_assoc|].
      split; [reflexivity|]. split; [reflexivity|]. split; [|split].
      * intros N HN. split; [intros e; now apply Hnt|].
        cbn [service_config service_initialConfig emit with_service_config
               with_service_initialConfig].
        rewrite !lookup_put, (Hne N HN). split; reflexivity.
      * discriminate.
      * intros e [= <-]. right. now exists msg.
    + eexists _, (Ok tt),
        [SetInitialConfig (name plugin) (member newConfig (name plugin));
         SetServiceConfig (name plugin) (member newConfig (name plugin));
         OnChange (name plugin) newConfig].
      split; [reflexivity|]. split; [simpl; now rewrite <- !app_assoc|].
      split; [reflexivity|]. split; [reflexivity|]. split; [|split].
      * intros N HN. split; [intros e; now apply Hnt|].
        cbn [service_config service_initialConfig emit with_service_config
               with_service_initialConfig].
        rewrite !lookup_put, (Hne N HN). split; reflexivity.
      * intros _ p [<-|[]] _. simpl. intuition.
      * discriminate.
  - eexists _, (Ok tt),
      [SetInitialConfig (name plugin) (member newConfig (name plugin));
       SetServiceConfig (name plugin) (member newConfig (name plugin))].
    split; [reflexivity|]. split; [simpl; now rewrite <- !app_assoc|].
    split; [reflexivity|]. split; [reflexivity|]. split; [|split].
    + intros N HN. split.
      * intros e He. apply (Hnt N e HN). simpl in *. tauto.
      * cbn [service_config service_initialConfig emit with_service_config
               with_service_initialConfig].
        rewrite !lookup_put, (Hne N HN). split; reflexivity.
    + intros _ p [<-|[]] _. simpl. rewrite Hoc. intuition.
    + discriminate.
Qed.

Lemma diff_loop_diffed ps : forall s,
  exists s' r evs,
    forM (diffPlugin h newConfig oldConfig) ps s = (s', r)
    /\ diffed h newConfig oldConfig ps s s' r evs.
Proof.
  induction ps as [|p ps IH]; intros s.
  - exists s, (Ok tt), []. split; [reflexivity|].
    apply diffed_silent; [intros _ plugin [] | discriminate].
  - destruct (diffPlugin_diffed p s) as [s1 [r1 [ev1 [E1 D1]]]].
    simpl. unfold bind. rewrite E1.
    destruct D1 as (T1 & C1 & F1 & N1 & P1 & X1).
    destruct r1 as [[]|e].
    + destruct (IH s1) as [s2 [r2 [ev2 [E2 D2]]]].
      destruct D2 as (T2 & C2 & F2 & N2 & P2 & X2).
      exists s2, r2, (ev1 ++ ev2)%list. split; [exact E2|].
      unfold diffed.
      split; [now rewrite T2, T1, app_assoc|].
      split; [congruence|]. split; [congruence|]. split; [|split].
      * intros N HN. destruct (N1 N HN) as (A1 & A2 & A3).
        destruct (N2 N HN) as (B1 & B2 & B3).
        split; [|split; congruence].
        intros e He. apply in_app_or in He. destruct He; auto.
      * intros Hr plugin [<-|Hin] Heq.
        -- destruct (P1 eq_refl p (or_introl eq_refl) Heq) as (A1 & A2 & A3).
           split; [apply in_or_app; auto|]. split; [apply in_or_app; auto|].
           intros Hc. apply in_or_app. auto.
        -- destruct (P2 Hr plugin Hin Heq) as (A1 & A2 & A3).
           split; [apply in_or_app; auto|]. split; [apply in_or_app; auto|].
           intros Hc. apply in_or_app. auto.
      * exact X2.
    + exists s1, (Throw e), ev1. split; [reflexivity|].
      unfold diffed.
      split; [exact T1|]. split; [exact C1|]. split; [exact F1|].
      split; [exact N1|]. split; [discriminate | exact X1].
Qed.

End Diff.

(** ** The handler *)

Section Handler.

Variable h : Host.
Variable w : World.
Variables ev path : string.

Lemma watch_handler_failed s s1 e :
  getConfig h w true (Some handler_setConfig)
    (emit (ConsoleLog (debug_line ev path)) s) = (s1, Throw e) ->
  watch_handler h w ev path s
  = emit (ConsoleError e) (emit (ConsoleError e) (with_configFailed true s1)).
Proof.
  intros Hg. unfold watch_handler, handler_body, bind. now rewrite Hg.
Qed.

Lemma watch_handler_resolved s s1 newConfig :
  getConfig h w true (Some handler_setConfig)
    (emit (ConsoleLog (debug_line ev path)) s) = (s1, Ok newConfig) ->
  exists s3 r evs,
    diffed h newConfig (this_config s1) (plugins h)
      (before_diff newConfig s1) s3 r evs
    /\ watch_handler h w ev path s
       = match r with
         | Ok _ => s3
         | Throw e =>
             emit (ConsoleError e) (emit (ConsoleError e) (with_configFailed true s3))
         end.
Proof.
  intros Hg.
  destruct (diff_loop_diffed h newConfig (this_config s1) (plugins h)
              (before_diff newConfig s1)) as [s3 [r [evs [E D]]]].
  exists s3, r, evs. split; [exact D|].
  unfold watch_handler, handler_body, bind. rewrite Hg.
  unfold modify, gets, when, bind, clone. cbn [this_configFailed emit this_config].
  unfold before_diff in E.
  destruct (this_configFailed s1); unfold modify, ret; cbn [this_config emit with_configFailed];
    rewrite E; destruct r as [[]|e]; reflexivity.
Qed.

Lemma getConfig_ok_logs force setConfig s s1 c :
  getConfig h w force setConfig s = (s1, Ok c) -> only_logs s s1.
Proof.
  intros Hg. destruct (getConfig_phases h w force setConfig s) as [L0 H].
  destruct (hd_error _) as [file|].
  - destruct H as [s1' [r1 [E1 [L1 H]]]]. destruct r1 as [config|e1].
    + destruct H as [E|[[E _]|[e' [_ E]]]]; rewrite E in Hg;
        try discriminate.
      injection Hg as <- _. exact L1.
    + destruct H as [E _]. rewrite E in Hg. discriminate.
  - rewrite H in Hg. injection Hg as <- _. exact L0.
Qed.

End Handler.

Lemma is_log_touches N e : is_log e -> ~ touches N e.
Proof. destruct e; simpl; tauto. Qed.

(** ** The claims about the reload coordinator *)

(** C1, as the specification states it, fails: a reload that is rejected
    for an unknown key leaves the rejected configuration in
    [this.config]. *)
Lemma C1_accepted_config_counterexample :
  (exists e, snd (getConfig (example_host [listener "a"]) precedence_world true
                    (Some handler_setConfig)
                    (emit (ConsoleLog (debug_line "change" "/app/.umirc.js"))
                       (started (VObj [("a", VNum 0)]))))
             = Throw e)
  /\ this_config (watch_handler (example_host [listener "a"]) precedence_world
                    "change" "/app/.umirc.js" (started (VObj [("a", VNum 0)])))
     <> this_config (started (VObj [("a", VNum 0)])).
Proof.
  split; [eexists; reflexivity|]. vm_compute. discriminate.
Qed.

(** C1 (amended): every watch-triggered reload in which [getConfig]
    throws leaves the coordinator Failed and the service's mappings as
    they were.  When the failure is not a rejection (a load error of the
    base file, a [TypeError], a throwing hook), [this.config] is left
    unchanged; when validation or the unknown-key check rejects the
    resolved configuration, [this.config] holds that rejected
    configuration afterwards. *)
Theorem C1_failed_reload (h : Host) (w : World) (ev path : string)
    (s s1 : State) (e : error) :
  getConfig h w true (Some handler_setConfig)
    (emit (ConsoleLog (debug_line ev path)) s) = (s1, Throw e) ->
  let s' := watch_handler h w ev path s in
  this_configFailed s' = true
  /\ service_config s' = service_config s
  /\ service_initialConfig s' = service_initialConfig s
  /\ (is_rejection e = false -> this_config s' = this_config s)
  /\ (is_rejection e = true ->
      exists file sr config,
        hd_error (filter (existsSync w) (map (join h (cwd h)) (CONFIG_FILES h)))
        = Some file
        /\ resolveConfig h w file
             (with_file (Some file)
                (fst (getConfigFile h w (emit (ConsoleLog (debug_line ev path)) s))))
           = (sr, Ok config)
        /\ this_config s' = config).
Proof.
  intros Hg s'. subst s'. rewrite (watch_handler_failed h w ev path s s1 e Hg).
  cbn [this_configFailed this_config service_config service_initialConfig
       emit with_configFailed].
  split; [reflexivity|].
  destruct (getConfig_phases h w true (Some handler_setConfig)
              (emit (ConsoleLog (debug_line ev path)) s)) as [_ H].
  destruct (hd_error _) as [file|]; [|rewrite H in Hg; discriminate].
  destruct H as [sr [r1 [E1 [L1 H]]]].
  destruct L1 as (A1 & A2 & A3 & A4 & _).
  cbn [this_config service_config service_initialConfig emit] in A1, A3, A4.
  destruct r1 as [config|e1].
  - destruct H as [E|[[E _]|[e' [He' E]]]]; rewrite E in Hg.
    + discriminate.
    + injection Hg as <- <-.
      repeat (split; [assumption|]). split; [auto | discriminate].
    + injection Hg as <- <-.
      cbn [this_config service_config service_initialConfig emit call_setConfig
           handler_setConfig with_config].
      repeat (split; [assumption|]). split; [congruence|].
      intros _. exists file, sr, config. auto.
  - destruct H as [E Hr]. rewrite E in Hg. injection Hg as <- <-.
    repeat (split; [assumption|]). split; [auto | congruence].
Qed.

Lemma C1_failed_reload_witness :
  let h := example_host [listener "a"] in
  let s := started (VObj [("a", VNum 0)]) in
  let s' := watch_handler h precedence_world "change" "/app/.umirc.js" s in
  this_configFailed s' = true
  /\ service_config s' = service_config s
  /\ service_initialConfig s' = service_initialConfig s
  /\ (is_rejection (UnknownKeyError ".umirc.js" "b" None ["a"]) = false ->
      this_config s' = this_config s)
  /\ (is_rejection (UnknownKeyError ".umirc.js" "b" None ["a"]) = true ->
      exists file sr config,
        hd_error (filter (existsSync precedence_world)
                    (map (join h (cwd h)) (CONFIG_FILES h)))
        = Some file
        /\ resolveConfig h precedence_world file
             (with_file (Some file)
                (fst (getConfigFile h precedence_world
                        (emit (ConsoleLog (debug_line "change" "/app/.umirc.js")) s))))
           = (sr, Ok config)
        /\ this_config s' = config).
Proof.
  cbv zeta.
  eapply (C1_failed_reload (example_host [listener "a"]) precedence_world
            "change" "/app/.umirc.js" (started (VObj [("a", VNum 0)]))).
  reflexivity.
Defined.

(** C2, as the specification states it, fails: the cycle that recovers
    from a failure requests the reload and then propagates the namespaces
    that differ like any other cycle. *)
Lemma C2_recovery_counterexample :
  let h := example_host [listener "a"; listener "b"] in
  let s' := watch_handler h precedence_world "change" "/app/.umirc.js"
              rejected_state in
  this_configFailed rejected_state = true
  /\ (exists s1 c, getConfig h precedence_world true (Some handler_setConfig)
                     (emit (ConsoleLog (debug_line "change" "/app/.umirc.js"))
                        rejected_state) = (s1, Ok c))
  /\ In Reload (trace s')
  /\ In (SetServiceConfig "b" (VNum 3)) (trace s')
  /\ In (OnChange "b" (VObj [("a", VNum 1); ("b", VNum 3)])) (trace s').
Proof.
  cbv zeta. split; [reflexivity|]. split; [eexists _, _; reflexivity|].
  vm_compute. intuition.
Qed.

(** C2 (amended): a watch event processed while the state is Failed and
    whose pipeline succeeds requests a full reload of the host service
    right after the middleware is given the new configuration, accepts
    the new configuration, and then runs the per-namespace propagation
    against the configuration [this.config] held before: when it
    completes, the state is Healthy and every plugin whose namespace
    differs has had the service's entries written and its [onChange]
    called; when it throws, the state is Failed again. *)
Theorem C2_recovery (h : Host) (w : World) (ev path : string)
    (s s1 : State) (newConfig : value) :
  this_configFailed s = true ->
  getConfig h w true (Some handler_setConfig)
    (emit (ConsoleLog (debug_line ev path)) s) = (s1, Ok newConfig) ->
  let s' := watch_handler h w ev path s in
  exists evs,
    trace s' = (trace s1 ++ SetMiddlewareConfig newConfig :: Reload :: evs)%list
    /\ this_config s' = newConfig
    /\ ((this_configFailed s' = false
         /\ forall plugin, In plugin (plugins h) ->
              isEqual h (member newConfig (name plugin))
                (member (this_config s) (name plugin)) = false ->
              In (SetInitialConfig (name plugin) (member newConfig (name plugin))) evs
              /\ In (SetServiceConfig (name plugin) (member newConfig (name plugin))) evs
              /\ (onChange plugin <> None ->
                  In (OnChange (name plugin) newConfig) evs))
        \/ (this_configFailed s' = true
            /\ exists e, (e = TypeError \/ exists msg, e = PluginError msg)
                         /\ In (ConsoleError e) evs)).
Proof.
  intros Hf Hg s'. subst s'.
  pose proof (getConfig_ok_logs h w _ _ _ _ _ Hg) as (A1 & A2 & _).
  cbn [this_config this_configFailed emit] in A1, A2.
  destruct (watch_handler_resolved h w ev path s s1 newConfig Hg)
    as [s3 [r [evs [D E]]]].
  rewrite E. clear E.
  destruct D as (T & C & F & _ & P & X).
  unfold before_diff in T, C, F. rewrite A2, Hf in T, C, F.
  cbn [trace this_config this_configFailed emit with_config with_configFailed]
    in T, C, F.
  rewrite A1 in P.
  destruct r as [[]|e].
  - exists evs. split; [rewrite T, <- !app_assoc; reflexivity|].
    split; [exact C|]. left. split; [exact F|].
    intros plugin Hin Heq. now apply P.
  - exists (evs ++ [ConsoleError e; ConsoleError e])%list.
    cbn [trace this_config this_configFailed emit with_configFailed].
    split; [rewrite T, <- !app_assoc; reflexivity|].
    split; [exact C|]. right. split; [reflexivity|].
    exists e. split; [now apply X|].
    apply in_or_app. right. now left.
Qed.

Lemma C2_recovery_witness :
  let h := example_host [listener "a"; listener "b"] in
  let s1 := fst (getConfig h precedence_world true (Some handler_setConfig)
                   (emit (ConsoleLog (debug_line "change" "/app/.umirc.js"))
                      rejected_state)) in
  let newConfig := VObj [("a", VNum 1); ("b", VNum 3)] in
  let s' := watch_handler h precedence_world "change" "/app/.umirc.js"
              rejected_state in
  exists evs,
    trace s' = (trace s1 ++ SetMiddlewareConfig newConfig :: Reload :: evs)%list
    /\ this_config s' = newConfig
    /\ ((this_configFailed s' = false
         /\ forall plugin, In plugin (plugins h) ->
              isEqual h (member newConfig (name plugin))
                (member (this_config rejected_state) (name plugin)) = false ->
              In (SetInitialConfig (name plugin) (member newConfig (name plugin))) evs
              /\ In (SetServiceConfig (name plugin) (member newConfig (name plugin))) evs
              /\ (onChange plugin <> None ->
                  In (OnChange (name plugin) newConfig) evs))
        \/ (this_configFailed s' = true
            /\ exists e, (e = TypeError \/ exists msg, e = PluginError msg)
                         /\ In (ConsoleError e) evs)).
Proof.
  cbv zeta.
  apply (C2_recovery (example_host [listener "a"; listener "b"]) precedence_world
           "change" "/app/.umirc.js" rejected_state); reflexivity.
Defined.

Section Frame.

Variable h : Host.
Variable w : World.
Variables ev path : string.

(** A cycle whose pipeline succeeds accepts the new configuration. *)
Lemma handler_accepts s s1 newConfig :
  getConfig h w true (Some handler_setConfig)
    (emit (ConsoleLog (debug_line ev path)) s) = (s1, Ok newConfig) ->
  this_config (watch_handler h w ev path s) = newConfig.
Proof.
  intros Hg.
  destruct (watch_handler_resolved h w ev path s s1 newConfig Hg)
    as [s3 [r [evs [D E]]]].
  rewrite E. destruct D as (_ & C & _).
  unfold before_diff in C. cbn [this_config with_config] in C.
  destruct r as [[]|e]; exact C.
Qed.

(** A cycle whose pipeline succeeds does not touch a namespace whose new
    value is deep-equal to the one in [this.config]. *)
Lemma handler_frame s s1 newConfig N :
  getConfig h w true (Some handler_setConfig)
    (emit (ConsoleLog (debug_line ev path)) s) = (s1, Ok newConfig) ->
  isEqual h (member newConfig N) (member (this_config s) N) = true ->
  exists evs,
    trace (watch_handler h w ev path s) = (trace s ++ evs)%list
    /\ (forall e, In e evs -> ~ touches N e)
    /\ lookup N (service_config (watch_handler h w ev path s))
       = lookup N (service_config s)
    /\ lookup N (service_initialConfig (watch_handler h w ev path s))
       = lookup N (service_initialConfig s).
Proof.
  intros Hg Heq.
  pose proof (getConfig_ok_logs h w _ _ _ _ _ Hg)
    as (A1 & A2 & A3 & A4 & logs & A5 & A6).
  cbn [this_config this_configFailed service_config service_initialConfig
       trace emit] in A1, A2, A3, A4, A5.
  destruct (watch_handler_resolved h w ev path s s1 newConfig Hg)
    as [s3 [r [evs [D E]]]].
  rewrite E. clear E.
  destruct D as (T & _ & _ & Nf & _ & _).
  rewrite A1 in Nf. destruct (Nf N Heq) as (N1 & N2 & N3). clear Nf.
  assert (Hb : exists pre,
    trace (before_diff newConfig s1) = (trace s ++ pre)%list
    /\ (forall e, In e pre -> ~ touches N e)
    /\ service_config (before_diff newConfig s1) = service_config s
    /\ service_initialConfig (before_diff newConfig s1) = service_initialConfig s).
  { assert (Hl : forall e, In e (ConsoleLog (debug_line ev path) :: logs) ->
                           ~ touches N e).
    { intros e [<-|He]; [simpl; tauto|].
      apply is_log_touches. rewrite Forall_forall in A6. now apply A6. }
    unfold before_diff. destruct (this_configFailed s1).
    - exists (ConsoleLog (debug_line ev path) :: logs
              ++ [SetMiddlewareConfig newConfig; Reload])%list.
      cbn [trace service_config service_initialConfig emit with_config
           with_configFailed].
      split; [rewrite A5, <- !app_assoc; reflexivity|].
      split; [|split; assumption].
      intros e He. rewrite app_comm_cons in He. apply in_app_or in He.
      destruct He as [He|[<-|[<-|[]]]]; [now apply Hl | simpl; tauto | simpl; tauto].
    - exists (ConsoleLog (debug_line ev path) :: logs
              ++ [SetMiddlewareConfig newConfig])%list.
      cbn [trace service_config service_initialConfig emit with_config].
      split; [rewrite A5, <- !app_assoc; reflexivity|].
      split; [|split; assumption].
      intros e He. rewrite app_comm_cons in He. apply in_app_or in He.
      destruct He as [He|[<-|[]]]; [now apply Hl | simpl; tauto]. }
  destruct Hb as [pre [B1 [B2 [B3 B4]]]].
  rewrite B3 in N2. rewrite B4 in N3. rewrite B1 in T.
  destruct r as [[]|e].
  - exists (pre ++ evs)%list. split; [now rewrite T, app_assoc|].
    split; [|split; assumption].
    intros e He. apply in_app_or in He. destruct He; auto.
  - exists (pre ++ evs ++ [ConsoleError e; ConsoleError e])%list.
    cbn [trace service_config service_initialConfig emit with_configFailed].
    split; [rewrite T, <- !app_assoc; reflexivity|].
    split; [|split; assumption].
    intros e' He. apply in_app_or in He. destruct He as [He|He]; [auto|].
    apply in_app_or in He. destruct He as [He|[<-|[<-|[]]]]; auto.
Qed.

End Frame.

(** C3: for two consecutive reloads whose pipelines succeed and every
    namespace [N], if the second configuration's value for [N] is
    deep-equal to the first one's, the second cycle makes no call that
    touches [N] (no [onChange] of a plugin that owns [N], no write of the
    service's [config[N]] or [_initialConfig[N]]) and leaves the two
    entries of the service as they were. *)
Theorem C3_equal_namespace_untouched (h : Host) (w1 w2 : World)
    (ev1 path1 ev2 path2 : string) (s sa sb : State) (c1 c2 : value)
    (N : string) :
  let s1 := watch_handler h w1 ev1 path1 s in
  let s2 := watch_handler h w2 ev2 path2 s1 in
  getConfig h w1 true (Some handler_setConfig)
    (emit (ConsoleLog (debug_line ev1 path1)) s) = (sa, Ok c1) ->
  getConfig h w2 true (Some handler_setConfig)
    (emit (ConsoleLog (debug_line ev2 path2)) s1) = (sb, Ok c2) ->
  isEqual h (member c2 N) (member c1 N) = true ->
  exists evs,
    trace s2 = (trace s1 ++ evs)%list
    /\ (forall e, In e evs -> ~ touches N e)
    /\ lookup N (service_config s2) = lookup N (service_config s1)
    /\ lookup N (service_initialConfig s2) = lookup N (service_initialConfig s1).
Proof.
  intros s1 s2 H1 H2 Heq. subst s1 s2.
  apply handler_frame with (s1 := sb) (newConfig := c2); [exact H2|].
  now rewrite (handler_accepts h w1 ev1 path1 s sa c1 H1).
Qed.

Lemma C3_equal_namespace_untouched_witness :
  let h := example_host [listener "a"; listener "b"] in
  let s := started (VObj [("a", VNum 0)]) in
  let s1 := watch_handler h precedence_world "change" "/app/.umirc.local.js" s in
  let s2 := watch_handler h edited_world "change" "/app/.umirc.js" s1 in
  exists evs,
    trace s2 = (trace s1 ++ evs)%list
    /\ (forall e, In e evs -> ~ touches "a" e)
    /\ lookup "a" (service_config s2) = lookup "a" (service_config s1)
    /\ lookup "a" (service_initialConfig s2) = lookup "a" (service_initialConfig s1).
Proof.
  cbv zeta.
  eapply (C3_equal_namespace_untouched
            (example_host [listener "a"; listener "b"])
            precedence_world edited_world
            "change" "/app/.umirc.local.js" "change" "/app/.umirc.js"
            (started (VObj [("a", VNum 0)])));
    reflexivity.
Defined.

(** The second of the two cycles: [b] is propagated, [a] is not. *)
Example consecutive_reloads_example :
  let h := example_host [listener "a"; listener "b"] in
  let s1 := watch_handler h precedence_world "change" "/app/.umirc.local.js"
              (started (VObj [("a", VNum 0)])) in
  trace (watch_handler h edited_world "change" "/app/.umirc.js" s1)
  = (trace s1
     ++ [ConsoleLog (debug_line "change" "/app/.umirc.js");
         SetMiddlewareConfig (VObj [("a", VNum 1); ("b", VNum 4)]);
         SetInitialConfig "b" (VNum 4);
         SetServiceConfig "b" (VNum 4);
         OnChange "b" (VObj [("a", VNum 1); ("b", VNum 4)])])%list.
Proof. reflexivity. Qed.

(** * More of the file *)

(** ** Paths *)

Lemma prefix_append p s : prefix p (p ++ s) = true.
Proof.
  induction p as [|c p IH]; simpl; [now destruct s|].
  destruct (ascii_dec c c); [exact IH | congruence].
Qed.

Lemma substring_drop p s n :
  String.length s <= n -> substring (String.length p) n (p ++ s) = s.
Proof. intros H. rewrite substring_skip. now apply substring_0_ge. Qed.

Lemma append_assoc (s t u : string) : (s ++ t) ++ u = s ++ (t ++ u).
Proof. induction s as [|c s IH]; simpl; [reflexivity | now rewrite IH]. Qed.

Lemma remove_first_prefix p s :
  prefix p s = true ->
  remove_first p s = substring (String.length p) (String.length s) s.
Proof. intros H. destruct s; unfold remove_first; now rewrite H. Qed.

(** ** getConfigFile *)

Lemma filter_first {A} (f : A -> bool) : forall l,
  (filter f l = [] /\ forall x, In x l -> f x = false)
  \/ exists before p after,
       l = (before ++ p :: after)%list /\ f p = true
       /\ (forall q, In q before -> f q = false)
       /\ filter f l = p :: filter f after.
Proof.
  induction l as [|a l IH]; [left; split; [reflexivity | intros x []]|].
  simpl. destruct (f a) eqn:Ha.
  - right. exists [], a, l.
    split; [reflexivity|]. split; [exact Ha|]. split; [intros q []|reflexivity].
  - destruct IH as [[E H]|[before [p [after [E [Hp [Hb Hf]]]]]]].
    + left. split; [exact E|]. intros x [<-|Hx]; auto.
    + right. exists (a :: before), p, after.
      split; [rewrite E; reflexivity|]. split; [exact Hp|].
      split; [|exact Hf]. intros q [<-|Hq]; auto.
Qed.

(** X3: [getConfigFile] returns the first conventional file that exists,
    in the order of [CONFIG_FILES], and nothing when none exists.  It
    warns, naming all the files that exist, exactly when a later
    conventional file exists too, and does nothing else (lines 55-70). *)
Theorem getConfigFile_first_existing (h : Host) (w : World) (s : State) :
  let candidates := map (join h (cwd h)) (CONFIG_FILES h) in
  (getConfigFile h w s = (s, Ok None)
   /\ forall p, In p candidates -> existsSync w p = false)
  \/ exists before p after,
       candidates = (before ++ p :: after)%list
       /\ existsSync w p = true
       /\ (forall q, In q before -> existsSync w q = false)
       /\ (((forall q, In q after -> existsSync w q = false)
            /\ getConfigFile h w s = (s, Ok (Some p)))
           \/ ((exists q, In q after /\ existsSync w q = true)
               /\ getConfigFile h w s
                  = (emit (PrintWarn (filter (existsSync w) candidates)) s,
                     Ok (Some p)))).
Proof.
  intros candidates. unfold getConfigFile, bind, when. fold candidates.
  destruct (filter_first (existsSync w) candidates)
    as [[E H]|[before [p [after [E [Hp [Hb Hf]]]]]]].
  - left. rewrite E. split; [reflexivity | exact H].
  - right. exists before, p, after.
    split; [exact E|]. split; [exact Hp|]. split; [exact Hb|].
    rewrite Hf.
    destruct (filter_first (existsSync w) after)
      as [[E' H']|[b' [p' [a' [E' [Hp' [_ Hf']]]]]]].
    + left. split; [exact H'|]. rewrite E'. reflexivity.
    + right. split.
      * exists p'. split; [|exact Hp']. rewrite E'. apply in_or_app. right. now left.
      * rewrite Hf'. reflexivity.
Qed.

Lemma no_file_found h w :
  (forall f, In f (CONFIG_FILES h) -> existsSync w (join h (cwd h) f) = false) ->
  filter (existsSync w) (map (join h (cwd h)) (CONFIG_FILES h)) = [].
Proof.
  intros H. induction (CONFIG_FILES h) as [|f l IH]; [reflexivity|].
  simpl. rewrite (H f) by now left. apply IH. intros g Hg. apply H. now right.
Qed.

(** X4: without any conventional configuration file both [getConfig]s
    return the empty object and report nothing: the instance method only
    records that there is no file and does not call [setConfig], the
    static method does nothing at all (lines 98-110 and 141-145). *)
Theorem getConfig_without_file (h : Host) (w : World) (force : bool)
    (setConfig : option (value -> State -> State)) (s : State) :
  (forall f, In f (CONFIG_FILES h) -> existsSync w (join h (cwd h) f) = false) ->
  getConfig h w force setConfig s = (with_file None s, Ok (VObj []))
  /\ static_getConfig h w s = (s, Ok (VObj [])).
Proof.
  intros H. apply no_file_found in H.
  unfold getConfig, static_getConfig, getConfigFile, bind, when. rewrite H.
  split; reflexivity.
Qed.

Lemma getConfig_without_file_witness :
  getConfig (example_host [owner "a"]) empty_world true (Some handler_setConfig)
    (started (VObj [("a", VNum 1)]))
  = (with_file None (started (VObj [("a", VNum 1)])), Ok (VObj []))
  /\ static_getConfig (example_host [owner "a"]) empty_world
       (started (VObj [("a", VNum 1)]))
     = (started (VObj [("a", VNum 1)]), Ok (VObj [])).
Proof.
  apply (getConfig_without_file (example_host [owner "a"]) empty_world true
           (Some handler_setConfig) (started (VObj [("a", VNum 1)]))).
  intros f Hf. reflexivity.
Defined.

(** ** The checks, in order *)

Section CheckOrder.

Variable h : Host.
Variable setConfig : option (value -> State -> State).
Variable rel : string.
Variable config : value.
Hypothesis present : nullish config = false.

Lemma validatePlugin_accepts plugin s :
  accepts config plugin = true ->
  validatePlugin setConfig config plugin s = (s, Ok tt).
Proof.
  unfold accepts, validatePlugin, bind, lift, get_prop. rewrite present.
  destruct (validate plugin) as [f|]; [|reflexivity].
  destruct (truthy (member config (name plugin))); [|reflexivity].
  destruct (f (member config (name plugin))); [discriminate | reflexivity].
Qed.

Lemma validatePlugin_rejects plugin s :
  accepts config plugin = false ->
  exists msg,
    (exists f, validate plugin = Some f
               /\ truthy (member config (name plugin)) = true
               /\ f (member config (name plugin)) = Some msg)
    /\ validatePlugin setConfig config plugin s
       = (emit (PrintError (PluginError msg)) (call_setConfig setConfig config s),
          Throw (ValidationError (name plugin) msg)).
Proof.
  unfold accepts, validatePlugin, bind, lift, get_prop. rewrite present.
  destruct (validate plugin) as [f|]; [|discriminate].
  destruct (truthy (member config (name plugin))); [|discriminate].
  destruct (f (member config (name plugin))) as [msg|] eqn:E; [|discriminate].
  intros _. exists msg. split; [exists f; auto|].
  unfold call_setConfig. destruct setConfig; reflexivity.
Qed.

Lemma validate_loop_passes ps s :
  forallb (accepts config) ps = true ->
  forM (validatePlugin setConfig config) ps s = (s, Ok tt).
Proof.
  induction ps as [|p ps IH]; simpl; [reflexivity|].
  rewrite andb_true_iff. intros [Hp Hps]. unfold bind.
  rewrite validatePlugin_accepts by exact Hp. now apply IH.
Qed.

Lemma key_loop_passes ks s :
  forallb (owned h) ks = true ->
  forM (checkKey h setConfig rel config (map name (plugins h))) ks s = (s, Ok tt).
Proof.
  induction ks as [|k ks IH]; simpl; [reflexivity|].
  rewrite andb_true_iff. intros [Hk Hks]. unfold bind, checkKey.
  unfold owned in Hk. rewrite Hk. cbn [negb]. now apply IH.
Qed.

Lemma checkKey_unowned k s :
  owned h k = false ->
  checkKey h setConfig rel config (map name (plugins h)) k s
  = (emit (PrintError (UnknownKeyError rel k
                         (didyoumean h k (map name (plugins h)))
                         (map name (plugins h))))
       (call_setConfig setConfig config s),
     Throw (UnknownKeyError rel k (didyoumean h k (map name (plugins h)))
              (map name (plugins h)))).
Proof.
  intros Hk. unfold checkKey. unfold owned in Hk. rewrite Hk. cbn [negb].
  unfold call_setConfig, bind, modify, throw. destruct setConfig; reflexivity.
Qed.

End CheckOrder.

Lemma forM_app {A} (body : A -> M unit) l1 l2 s :
  forM body (l1 ++ l2) s
  = match forM body l1 s with
    | (s', Ok _) => forM body l2 s'
    | (s', Throw e) => (s', Throw e)
    end.
Proof.
  revert s. induction l1 as [|a l1 IH]; intros s; simpl; [reflexivity|].
  unfold bind. destruct (body a s) as [s1 [[]|e]]; [apply IH | reflexivity].
Qed.

Section CheckStops.

Variable h : Host.
Variable setConfig : option (value -> State -> State).
Variable rel : string.
Variable config : value.
Hypothesis present : nullish config = false.

Lemma validate_loop_stops before p after s :
  forallb (accepts config) before = true ->
  accepts config p = false ->
  exists msg,
    (exists f, validate p = Some f
               /\ truthy (member config (name p)) = true
               /\ f (member config (name p)) = Some msg)
    /\ forM (validatePlugin setConfig config) (before ++ p :: after) s
       = (emit (PrintError (PluginError msg)) (call_setConfig setConfig config s),
          Throw (ValidationError (name p) msg)).
Proof.
  intros Hb Hr.
  destruct (validatePlugin_rejects setConfig config present p s Hr) as [msg [Hf E]].
  exists msg. split; [exact Hf|].
  rewrite forM_app, (validate_loop_passes setConfig config present before s Hb).
  simpl. unfold bind. now rewrite E.
Qed.

Lemma key_loop_stops before k after s :
  forallb (owned h) before = true ->
  owned h k = false ->
  forM (checkKey h setConfig rel config (map name (plugins h)))
    (before ++ k :: after) s
  = (emit (PrintError (UnknownKeyError rel k
                         (didyoumean h k (map name (plugins h)))
                         (map name (plugins h))))
       (call_setConfig setConfig config s),
     Throw (UnknownKeyError rel k (didyoumean h k (map name (plugins h)))
              (map name (plugins h)))).
Proof.
  intros Hb Hu.
  rewrite forM_app, (key_loop_passes h setConfig rel config before s Hb).
  simpl. unfold bind. now rewrite checkKey_unowned.
Qed.

End CheckStops.

Lemma forallb_false_split {A} (f : A -> bool) : forall l,
  forallb f l = false ->
  exists l1 x l2, l = (l1 ++ x :: l2)%list /\ forallb f l1 = true /\ f x = false.
Proof.
  induction l as [|a l IH]; simpl; [discriminate|].
  destruct (f a) eqn:Ha.
  - intros H. destruct (IH H) as [l1 [x [l2 [E [H1 Hx]]]]].
    exists (a :: l1), x, l2. rewrite E. simpl. rewrite Ha. auto.
  - intros _. exists [], a, l. auto.
Qed.

(** X5: validation comes first and stops at the first plugin, in the
    order of the registry, whose [validate] throws: [getConfig]'s checks
    then hand the configuration to the caller's [setConfig], print the
    plugin's message and throw the validation error of that plugin,
    whatever the later plugins would say and whatever keys are unowned
    (lines 185-199). *)
Theorem first_rejecting_plugin_decides (h : Host)
    (setConfig : option (value -> State -> State)) (rel : string)
    (config : value) (s : State) (before after : list Plugin) (p : Plugin) :
  nullish config = false ->
  plugins h = (before ++ p :: after)%list ->
  forallb (accepts config) before = true ->
  accepts config p = false ->
  exists msg,
    (exists f, validate p = Some f
               /\ truthy (member config (name p)) = true
               /\ f (member config (name p)) = Some msg)
    /\ checkConfig h setConfig rel config s
       = (emit (PrintError (PluginError msg)) (call_setConfig setConfig config s),
          Throw (ValidationError (name p) msg)).
Proof.
  intros Hn Hp Hb Hr.
  destruct (validate_loop_stops setConfig config Hn before p after s Hb Hr)
    as [msg [Hf E]].
  exists msg. split; [exact Hf|].
  unfold checkConfig, bind. now rewrite Hp, E.
Qed.

Lemma first_rejecting_plugin_decides_witness :
  exists msg,
    (exists f, validate (strict "b") = Some f
               /\ truthy (member (VObj [("a", VNum 1); ("b", VNum 2); ("c", VNum 3)])
                            (name (strict "b"))) = true
               /\ f (member (VObj [("a", VNum 1); ("b", VNum 2); ("c", VNum 3)])
                       (name (strict "b"))) = Some msg)
    /\ checkConfig (example_host [strict "a"; strict "b"; strict "c"])
         (Some handler_setConfig) ".umirc.js"
         (VObj [("a", VNum 1); ("b", VNum 2); ("c", VNum 3)]) (started (VObj []))
       = (emit (PrintError (PluginError msg))
            (call_setConfig (Some handler_setConfig)
               (VObj [("a", VNum 1); ("b", VNum 2); ("c", VNum 3)])
               (started (VObj []))),
          Throw (ValidationError (name (strict "b")) msg)).
Proof.
  apply (first_rejecting_plugin_decides
           (example_host [strict "a"; strict "b"; strict "c"])
           (Some handler_setConfig) ".umirc.js"
           (VObj [("a", VNum 1); ("b", VNum 2); ("c", VNum 3)])
           (started (VObj [])) [strict "a"] [strict "c"] (strict "b"));
    reflexivity.
Defined.

(** X6: when every plugin accepts, the first key of the configuration,
    in enumeration order, that no plugin owns decides: the checks hand
    the configuration to the caller's [setConfig], print and throw the
    unknown-key error for that key, with the guess of [didyoumean] among
    the names of the plugins (lines 202-215). *)
Theorem first_unowned_key_decides (h : Host)
    (setConfig : option (value -> State -> State)) (rel : string)
    (config : value) (s : State) (before after : list string) (k : string) :
  nullish config = false ->
  forallb (accepts config) (plugins h) = true ->
  keys (own_entries config) = (before ++ k :: after)%list ->
  forallb (owned h) before = true ->
  owned h k = false ->
  let e := UnknownKeyError rel k (didyoumean h k (map name (plugins h)))
             (map name (plugins h)) in
  checkConfig h setConfig rel config s
  = (emit (PrintError e) (call_setConfig setConfig config s), Throw e).
Proof.
  intros Hn Ha Hk Hb Hu e. subst e.
  unfold checkConfig, bind.
  rewrite (validate_loop_passes setConfig config Hn (plugins h) s Ha).
  unfold lift, Object_keys. rewrite Hn, Hk.
  now apply key_loop_stops.
Qed.

Lemma first_unowned_key_decides_witness :
  let h := example_host [owner "a"; strict "c"] in
  let config := VObj [("a", VNum 1); ("b", VNum 2); ("c", VNum 1); ("d", VNum 4)] in
  let e := UnknownKeyError ".umirc.js" "b" (didyoumean h "b" (map name (plugins h)))
             (map name (plugins h)) in
  checkConfig h (Some handler_setConfig) ".umirc.js" config (started (VObj []))
  = (emit (PrintError e)
       (call_setConfig (Some handler_setConfig) config (started (VObj []))),
     Throw e).
Proof.
  cbv zeta.
  apply (first_unowned_key_decides (example_host [owner "a"; strict "c"])
           (Some handler_setConfig) ".umirc.js"
           (VObj [("a", VNum 1); ("b", VNum 2); ("c", VNum 1); ("d", VNum 4)])
           (started (VObj [])) ["a"] ["c"; "d"] "b");
    reflexivity.
Defined.

(** X7: the checks pass exactly when every plugin accepts its namespace
    and every key of the configuration is owned by a plugin; and then
    they leave the state alone (lines 184-217). *)
Theorem checks_pass_iff (h : Host)
    (setConfig : option (value -> State -> State)) (rel : string)
    (config : value) (s : State) :
  nullish config = false ->
  (exists s', checkConfig h setConfig rel config s = (s', Ok tt))
  <-> forallb (accepts config) (plugins h) = true
      /\ forallb (owned h) (keys (own_entries config)) = true.
Proof.
  intros Hn. split.
  - intros [s' E].
    destruct (forallb (accepts config) (plugins h)) eqn:Ha.
    + split; [reflexivity|].
      destruct (forallb (owned h) (keys (own_entries config))) eqn:Ho;
        [reflexivity|].
      destruct (forallb_false_split _ _ Ho) as [l1 [k [l2 [Hk [H1 Hu]]]]].
      unfold checkConfig, bind in E.
      rewrite (validate_loop_passes setConfig config Hn (plugins h) s Ha) in E.
      unfold lift, Object_keys in E. rewrite Hn, Hk in E.
      rewrite (key_loop_stops h setConfig rel config l1 k l2 s H1 Hu) in E.
      discriminate.
    + destruct (forallb_false_split _ _ Ha) as [l1 [p [l2 [Hp [H1 Hr]]]]].
      destruct (validate_loop_stops setConfig config Hn l1 p l2 s H1 Hr)
        as [msg [_ E']].
      unfold checkConfig, bind in E. rewrite Hp, E' in E. discriminate.
  - intros [Ha Ho]. exists s. unfold checkConfig, bind.
    rewrite (validate_loop_passes setConfig config Hn (plugins h) s Ha).
    unfold lift, Object_keys. rewrite Hn.
    now apply key_loop_passes.
Qed.

Lemma checks_pass_inv h setConfig rel config s s' :
  checkConfig h setConfig rel config s = (s', Ok tt) ->
  nullish config = false
  /\ forallb (accepts config) (plugins h) = true
  /\ forallb (owned h) (keys (own_entries config)) = true.
Proof.
  intros E.
  assert (Hn : nullish config = false).
  { destruct (nullish config) eqn:Hn; [|reflexivity].
    unfold checkConfig, bind in E.
    destruct (plugins h) as [|p ps].
    - simpl in E. unfold lift, Object_keys in E. rewrite Hn in E. discriminate.
    - simpl in E. unfold bind, validatePlugin, bind, lift, get_prop in E.
      rewrite Hn in E. discriminate. }
  split; [exact Hn|].
  destruct (forallb (accepts config) (plugins h)) eqn:Ha.
  - split; [reflexivity|].
    destruct (forallb (owned h) (keys (own_entries config))) eqn:Ho;
      [reflexivity|].
    destruct (forallb_false_split _ _ Ho) as [l1 [k [l2 [Hk [H1 Hu]]]]].
    unfold checkConfig, bind in E.
    rewrite (validate_loop_passes setConfig config Hn (plugins h) s Ha) in E.
    unfold lift, Object_keys in E. rewrite Hn, Hk in E.
    rewrite (key_loop_stops h setConfig rel config l1 k l2 s H1 Hu) in E.
    discriminate.
  - destruct (forallb_false_split _ _ Ha) as [l1 [p [l2 [Hp [H1 Hr]]]]].
    destruct (validate_loop_stops setConfig config Hn l1 p l2 s H1 Hr)
      as [msg [_ E']].
    unfold checkConfig, bind in E. rewrite Hp, E' in E. discriminate.
Qed.

Lemma checks_pass_iff_witness :
  (exists s', checkConfig (example_host [owner "a"; strict "c"])
                (Some handler_setConfig) ".umirc.js"
                (VObj [("a", VNum 5); ("c", VNum 1)]) (started (VObj []))
              = (s', Ok tt))
  <-> forallb (accepts (VObj [("a", VNum 5); ("c", VNum 1)]))
        (plugins (example_host [owner "a"; strict "c"])) = true
      /\ forallb (owned (example_host [owner "a"; strict "c"]))
           (keys (own_entries (VObj [("a", VNum 5); ("c", VNum 1)]))) = true.
Proof.
  apply (checks_pass_iff (example_host [owner "a"; strict "c"])
           (Some handler_setConfig) ".umirc.js"
           (VObj [("a", VNum 5); ("c", VNum 1)]) (started (VObj []))).
  reflexivity.
Defined.

Lemma accepts_empty p : accepts (VObj []) p = true.
Proof. unfold accepts. destruct (validate p); reflexivity. Qed.

(** X8: a configuration that the instance [getConfig] returns is an
    object or another non-null value in which every plugin accepts its
    namespace and every key is owned by a plugin (lines 184-217); the
    empty object returned without a file is one. *)
Theorem getConfig_returns_checked (h : Host) (w : World) (force : bool)
    (setConfig : option (value -> State -> State)) (s s' : State) (c : value) :
  getConfig h w force setConfig s = (s', Ok c) ->
  nullish c = false
  /\ forallb (accepts c) (plugins h) = true
  /\ forallb (owned h) (keys (own_entries c)) = true.
Proof.
  unfold getConfig, bind.
  destruct (getConfigFile_logs h w s) as [s0 [E0 _]]. rewrite E0. unfold modify.
  destruct (hd_error _) as [file|].
  - destruct (resolveConfig h w file (with_file (Some file) s0))
      as [s1 [config|e]]; [|discriminate].
    destruct (checkConfig h setConfig (remove_first (cwd h ++ "/") file) config s1)
      as [s2 [[]|e]] eqn:Ec; [|discriminate].
    intros [= _ <-]. eapply checks_pass_inv; eassumption.
  - intros [= _ <-]. split; [reflexivity|]. split; [|reflexivity].
    apply forallb_forall. intros p _. apply accepts_empty.
Qed.

Lemma getConfig_returns_checked_witness :
  let h := example_host [owner "a"; strict "b"] in
  let c := VObj [("a", VNum 1); ("b", VNum 1)] in
  nullish c = false
  /\ forallb (accepts c) (plugins h) = true
  /\ forallb (owned h) (keys (own_entries c)) = true.
Proof.
  cbv zeta.
  eapply (getConfig_returns_checked (example_host [owner "a"; strict "b"])
            (disk [("/app/.umirc.js", Returns (VObj [("a", VNum 1); ("b", VNum 1)]))]
               None None)
            true None (started (VObj []))).
  reflexivity.
Defined.

(** ** normalizeConfig: failure, frame and the keys of the pages *)

Lemma chosen_not_nullish x : nullish x = false -> nullish (chosen x) = false.
Proof.
  intros H. unfold chosen, js_or.
  destruct (truthy (member x "default")) eqn:E; [|exact H].
  destruct (member x "default"); simpl in *; congruence.
Qed.

Lemma truthy_pages_obj c :
  truthy (member c "pages") = true ->
  exists cs, c = VObj cs /\ lookup "pages" cs = Some (member c "pages").
Proof.
  destruct c as [| |b|n|s|cs]; try (simpl; discriminate).
  - rewrite member_string by reflexivity. discriminate.
  - intros H. exists cs. split; [reflexivity|]. simpl in *.
    destruct (lookup "pages" cs); [reflexivity | discriminate].
Qed.

Lemma all_objects_dec ps :
  (forall k, In k (keys ps) -> exists q, lookup k ps = Some (VObj q))
  \/ exists k, In k (keys ps) /\ forall q, member (VObj ps) k <> VObj q.
Proof.
  destruct (forallb (fun k => is_object (member (VObj ps) k)) (keys ps)) eqn:E.
  - left. intros k Hk. rewrite forallb_forall in E. specialize (E k Hk).
    destruct (In_lookup_Some _ _ Hk) as [v Hv]. simpl in E. rewrite Hv in E.
    destruct v; try discriminate. eauto.
  - right. destruct (forallb_false_split _ _ E) as [l1 [k [l2 [Hk [_ Hf]]]]].
    exists k. split; [rewrite Hk; apply in_or_app; right; now left|].
    intros q Hq. rewrite Hq in Hf. discriminate.
Qed.

Lemma normalize_rest_Throw c e : normalize_rest c = Throw e -> e = TypeError.
Proof.
  unfold normalize_rest. intros H. type_error.
  - eapply (foldM_Throw propagate_context);
      [intros a b; apply propagate_context_Throw | eassumption].
  - eapply (foldM_Throw (rekey _ _)); [intros a b; apply rekey_Throw | eassumption].
Qed.

(** X9: [normalizeConfig] fails, with a [TypeError] and nothing else,
    exactly when the configuration is [null] or [undefined] or a context
    is to be propagated to a page that is not an object; in every other
    case it returns (lines 13-53). *)
Theorem normalizeConfig_fails_iff (x : value) :
  (forall e, normalizeConfig x = Throw e -> e = TypeError)
  /\ (normalizeConfig x = Throw TypeError
      <-> nullish x = true \/ bad_page (chosen x)).
Proof.
  split; [intros e; apply normalizeConfig_Throw|].
  destruct (nullish x) eqn:Hn.
  { split; [auto|]. intros _. unfold normalizeConfig, get_prop. now rewrite Hn. }
  rewrite normalizeConfig_chosen by exact Hn.
  pose proof (chosen_not_nullish x Hn) as Hc.
  set (c := chosen x) in *. clearbody c. split.
  - intros Ht. right.
    destruct (truthy (member c "pages")) eqn:Hp;
      [|rewrite normalize_rest_no_pages in Ht by assumption; discriminate].
    destruct (truthy_pages_obj c Hp) as [cs [-> Hl]].
    unfold bad_page. rewrite Hp.
    destruct (member (VObj cs) "pages") as [| |b|n|s|ps] eqn:Hm;
      try discriminate.
    + rewrite (normalize_rest_odd_pages cs _ Hl Hp) in Ht by discriminate.
      rewrite andb_false_r in Ht. discriminate.
    + rewrite (normalize_rest_odd_pages cs _ Hl Hp) in Ht by discriminate.
      rewrite andb_false_r in Ht. discriminate.
    + rewrite (normalize_rest_odd_pages cs _ Hl Hp) in Ht by discriminate.
      rewrite andb_true_r in Ht.
      destruct (truthy (member (VObj cs) "context")) eqn:Hx; [|discriminate].
      split; [reflexivity|]. split; [reflexivity|].
      destruct s as [|a s]; [discriminate|].
      exists (index_key 0). split; [now left|].
      intros q H. cbn in H. discriminate H.
    + destruct (truthy (member (VObj cs) "context")) eqn:Hx.
      * split; [reflexivity|]. split; [reflexivity|].
        destruct (all_objects_dec ps) as [Ho|Hb]; [|exact Hb].
        rewrite (normalize_rest_pages cs ps Hl) in Ht by (intros _; exact Ho).
        discriminate.
      * rewrite (normalize_rest_pages cs ps Hl) in Ht by (intros H'; congruence).
        discriminate.
  - intros [H|(Hx & Hp & k & Hk & Hb)]; [discriminate|].
    destruct (normalize_rest c) as [r|e] eqn:Hr;
      [|f_equal; now apply normalize_rest_Throw with c].
    exfalso.
    destruct (truthy_pages_obj c Hp) as [cs [-> Hl]].
    destruct (member (VObj cs) "pages") as [| |b|n|s|ps] eqn:Hm;
      try discriminate; try (destruct Hk).
    + rewrite (normalize_rest_odd_pages cs _ Hl Hp) in Hr by discriminate.
      rewrite Hx in Hr. discriminate.
    + destruct (normalize_rest_pages_inv cs ps r Hl Hx Hr k Hk) as [q Hq].
      apply (Hb q). simpl. now rewrite Hq.
Qed.

Lemma normalize_rest_pages_shape c r :
  normalize_rest c = Ok r ->
  truthy (member r "pages") = true ->
  exists cs P ks,
    c = VObj cs /\ In "pages" (keys cs)
    /\ r = VObj (update "pages" (VObj (rekey_all (htmlSuffix_of c) P ks [])) cs).
Proof.
  intros Hr Ht.
  destruct (truthy (member c "pages")) eqn:Hp.
  - destruct (truthy_pages_obj c Hp) as [cs [-> Hl]].
    assert (Hin : In "pages" (keys cs)) by (eapply lookup_Some_In; eassumption).
    exists cs.
    assert (Hodd : forall p, member (VObj cs) "pages" = p ->
                     (forall ps, p <> VObj ps) ->
                     exists P ks,
                       VObj cs = VObj cs /\ In "pages" (keys cs)
                       /\ r = VObj (update "pages"
                                      (VObj (rekey_all (htmlSuffix_of (VObj cs)) P ks []))
                                      cs)).
    { intros p Hm Hno. rewrite Hm in Hl, Hp.
      rewrite (normalize_rest_odd_pages cs p Hl Hp Hno) in Hr.
      destruct (truthy (member (VObj cs) "context")
                && match p with VStr _ => true | _ => false end);
        [discriminate|].
      exists p, (keys (own_entries p)).
      split; [reflexivity|]. split; [exact Hin | congruence]. }
    destruct (member (VObj cs) "pages") as [| |b|n|s|ps] eqn:Hm;
      try discriminate; try (apply (Hodd _ eq_refl); discriminate).
    assert (Ho : truthy (member (VObj cs) "context") = true ->
                 forall k, In k (keys ps) -> exists q, lookup k ps = Some (VObj q)).
    { intros Hc. eapply normalize_rest_pages_inv; eauto. }
    rewrite (normalize_rest_pages cs ps Hl Ho) in Hr.
    exists (VObj (propagated cs ps)), (keys ps).
    split; [reflexivity|]. split; [exact Hin|]. unfold rekeyed in Hr. congruence.
  - assert (Hn : nullish c = false) by (destruct c; try reflexivity; discriminate).
    rewrite normalize_rest_no_pages in Hr by assumption.
    injection Hr as <-. congruence.
Qed.

(** X11: after normalization a truthy [pages] is an object whose keys
    are pairwise distinct and all begin with ['/']; when
    [exportStatic.htmlSuffix] is set they all end in ['/'] or ['.html']
    (lines 29-50). *)
Theorem normalized_pages_keys (x r : value) :
  normalizeConfig x = Ok r ->
  truthy (member r "pages") = true ->
  exists ps,
    member r "pages" = VObj ps
    /\ NoDup (keys ps)
    /\ forall k, In k (keys ps) ->
         begins_with "/" k
         /\ (htmlSuffix_set (chosen x) -> ends_with "/" k \/ ends_with ".html" k).
Proof.
  intros Hr Ht.
  assert (Hn : nullish x = false) by (destruct x; try reflexivity; discriminate).
  rewrite normalizeConfig_chosen in Hr by exact Hn.
  destruct (normalize_rest_pages_shape _ _ Hr Ht) as [cs [P [ks [Hc [Hin ->]]]]].
  eexists. split; [now apply member_pages_updated|].
  split; [apply rekey_all_NoDup; constructor|].
  intros k Hk. apply rekey_all_keys in Hk. destruct Hk as [[]|[k0 [_ ->]]].
  split.
  - apply charAt0_begins_with, newKey_begins.
  - intros Hs. apply htmlSuffix_of_set in Hs. rewrite Hs. apply newKey_ends.
Qed.

Lemma normalized_pages_keys_witness :
  exists ps,
    member (VObj [("pages", VObj [("/index.html", VObj []); ("/about.html", VObj [])]);
                  ("exportStatic", VObj [("htmlSuffix", VBool true)])]) "pages"
    = VObj ps
    /\ NoDup (keys ps)
    /\ forall k, In k (keys ps) ->
         begins_with "/" k
         /\ (htmlSuffix_set (chosen spec_pages_input) ->
             ends_with "/" k \/ ends_with ".html" k).
Proof.
  apply (normalized_pages_keys spec_pages_input); reflexivity.
Defined.





(** ** The static getConfig *)

Section StaticFacts.

Variable h : Host.
Variable w : World.

Lemma override_units file s :
  exists s',
    (env <- match env_set (UMI_ENV w) with
            | Some env => requireFile w (replace_js file ("." ++ env ++ ".js")) None
            | None => ret (VObj [])
            end ;;
     loc <- (if isDev w then requireFile w (replace_js file ".local.js") None
             else ret (VObj [])) ;;
     ret (env, loc))%m s
    = (s', Ok (match env_set (UMI_ENV w) with
               | Some e => load_unit w (replace_js file ("." ++ e ++ ".js"))
               | None => VObj []
               end,
               if isDev w then load_unit w (replace_js file ".local.js")
               else VObj []))
    /\ only_logs s s'.
Proof.
  unfold bind.
  assert (E : exists s1,
    match env_set (UMI_ENV w) with
    | Some env => requireFile w (replace_js file ("." ++ env ++ ".js")) None
    | None => ret (VObj [])
    end s
    = (s1, Ok match env_set (UMI_ENV w) with
              | Some e => load_unit w (replace_js file ("." ++ e ++ ".js"))
              | None => VObj []
              end) /\ only_logs s s1).
  { destruct (env_set (UMI_ENV w)) as [e|].
    - apply requireFile_default.
    - exists s. split; [reflexivity | apply only_logs_refl]. }
  destruct E as [s1 [E1 L1]]. rewrite E1.
  assert (F : exists s2,
    (if isDev w then requireFile w (replace_js file ".local.js") None
     else ret (VObj [])) s1
    = (s2, Ok (if isDev w then load_unit w (replace_js file ".local.js")
               else VObj [])) /\ only_logs s1 s2).
  { destruct (isDev w).
    - apply requireFile_default.
    - exists s1. split; [reflexivity | apply only_logs_refl]. }
  destruct F as [s2 [F1 L2]]. rewrite F1.
  exists s2. split; [reflexivity | eapply only_logs_trans; eassumption].
Qed.

(** The static method in closed form: every unit is what the default
    handler makes of its file. *)
Lemma static_getConfig_found file s :
  hd_error (filter (existsSync w) (map (join h (cwd h)) (CONFIG_FILES h)))
  = Some file ->
  exists s',
    static_getConfig h w s
    = (s', normalizeConfig
             (VObj (spread
                      (spread (spread [] (load_unit w file))
                         match env_set (UMI_ENV w) with
                         | Some e => load_unit w (replace_js file ("." ++ e ++ ".js"))
                         | None => VObj []
                         end)
                      (if isDev w then load_unit w (replace_js file ".local.js")
                       else VObj []))))
    /\ only_logs s s'.
Proof.
  intros Hf. unfold static_getConfig, bind.
  destruct (getConfigFile_logs h w s) as [s0 [E0 L0]]. rewrite E0, Hf.
  destruct (requireFile_default w file s0) as [s1 [E1 L1]]. rewrite E1.
  destruct (override_units file s1) as [s2 [E2 L2]].
  unfold bind in E2.
  destruct (match env_set (UMI_ENV w) with
            | Some env => requireFile w (replace_js file ("." ++ env ++ ".js")) None
            | None => ret (VObj [])
            end s1) as [sa [env|e]]; [|discriminate].
  destruct ((if isDev w then requireFile w (replace_js file ".local.js") None
             else ret (VObj [])) sa) as [sb [loc|e]]; [|discriminate].
  injection E2 as -> -> ->.
  exists s2. split; [reflexivity|].
  eapply only_logs_trans; [exact L0|]. eapply only_logs_trans; eassumption.
Qed.

End StaticFacts.



Lemma loadUnits_result h w file s s' merged :
  loadUnits h w file s = (s', Ok merged) ->
  merged = VObj (spread
                   (spread (spread [] (load_unit w file))
                      match env_set (UMI_ENV w) with
                      | Some e => load_unit w (replace_js file ("." ++ e ++ ".js"))
                      | None => VObj []
                      end)
                   (if isDev w then load_unit w (replace_js file ".local.js")
                    else VObj [])).
Proof.
  unfold loadUnits, bind.
  assert (B : (exists e s1, requireFile w file (Some (getConfig_onError h)) s
                            = (s1, Throw e))
              \/ requireFile w file (Some (getConfig_onError h)) s
                 = (s, Ok (load_unit w file))).
  { unfold requireFile, load_unit.
    destruct (existsSync w file); cbn [negb]; [|right; reflexivity].
    destruct (try_load w file) as [c|e]; [right; reflexivity|].
    left. eexists _, _. reflexivity. }
  destruct B as [[e [s1 E]]|E]; rewrite E; [discriminate|].
  destruct (override_units w file s) as [s2 [E2 _]]. unfold bind in E2.
  destruct (match env_set (UMI_ENV w) with
            | Some env => requireFile w (replace_js file ("." ++ env ++ ".js")) None
            | None => ret (VObj [])
            end s) as [sa [env|e1]]; [|discriminate].
  destruct ((if isDev w then requireFile w (replace_js file ".local.js") None
             else ret (VObj [])) sa) as [sb [loc|e1]]; [|discriminate].
  injection E2 as _ -> ->. intros [= _ <-]. reflexivity.
Qed.

(** X14: whenever the instance [getConfig] returns a configuration read
    from a file, the static [getConfig] returns on the same disk, and
    what it returns is the configuration that the instance handed to the
    [modifyConfig] hook (lines 92-111 and 174-182). *)
Theorem static_agrees_with_instance (h : Host) (w : World) (force : bool)
    (setConfig : option (value -> State -> State)) (s s' s0 : State)
    (file : string) (c : value) :
  hd_error (filter (existsSync w) (map (join h (cwd h)) (CONFIG_FILES h)))
  = Some file ->
  getConfig h w force setConfig s = (s', Ok c) ->
  exists c0, snd (static_getConfig h w s0) = Ok c0
             /\ modifyConfig h c0 = Returns c.
Proof.
  intros Hf. unfold getConfig, bind.
  destruct (getConfigFile_logs h w s) as [s1 [E1 _]]. rewrite E1, Hf.
  unfold modify, resolveConfig, bind, modify.
  destruct (loadUnits h w file _) as [s2 [merged|e]] eqn:El; [|discriminate].
  apply loadUnits_result in El.
  unfold lift. destruct (normalizeConfig merged) as [c0|e] eqn:En; [|discriminate].
  destruct (modifyConfig h c0) as [c1|msg] eqn:Em; [|discriminate].
  unfold ret.
  destruct (checkConfig h setConfig _ c1 s2) as [s3 [[]|e]]; [|discriminate].
  intros [= _ <-]. exists c0. split; [|exact Em].
  destruct (static_getConfig_found h w file s0 Hf) as [s4 [E4 _]].
  rewrite E4. cbn [snd]. now rewrite <- El.
Qed.

Lemma static_agrees_with_instance_witness :
  exists c0,
    snd (static_getConfig (example_host [owner "a"; owner "b"]) precedence_world
           (started (VObj []))) = Ok c0
    /\ modifyConfig (example_host [owner "a"; owner "b"]) c0
       = Returns (VObj [("a", VNum 1); ("b", VNum 3)]).
Proof.
  eapply (static_agrees_with_instance (example_host [owner "a"; owner "b"])
            precedence_world true None (started (VObj [])));
    reflexivity.
Defined.

(** ** Forced reading *)

Lemma hd_error_In {A} (l : list A) (x : A) : hd_error l = Some x -> In x l.
Proof.
  destruct l as [|y l]; [discriminate|]. intros [= ->]. now left.
Qed.

(** X15: with [force], every path that [getConfig] goes on to load has
    been deleted from the module cache before: the base file, the
    override of the environment and the local override.  The candidates
    are renamed before they are joined to the working directory and the
    found file after, so this needs renaming and joining to commute on the
    conventional files (lines 148-158 and 174-178). *)
Theorem force_evicts_loaded (h : Host) (w : World) (file : string) :
  (forall f rep,
      In f (CONFIG_FILES h) ->
      In rep ["." ++ env_text w ++ ".js"; ".local.js"] ->
      join h (cwd h) (replace_js f rep) = replace_js (join h (cwd h) f) rep) ->
  hd_error (filter (existsSync w) (map (join h (cwd h)) (CONFIG_FILES h)))
  = Some file ->
  incl (loaded w file) (evicted h w).
Proof.
  intros Hj Hf p Hp.
  apply hd_error_In, filter_In in Hf. destruct Hf as [Hf _].
  apply in_map_iff in Hf. destruct Hf as [f [<- Hin]].
  unfold evicted. apply in_flat_map. exists f. split; [exact Hin|].
  unfold loaded in Hp. destruct Hp as [<-|Hp]; [now left|].
  apply in_app_or in Hp. destruct Hp as [Hp|Hp].
  - right. left. unfold env_set in Hp.
    assert (Ht : env_text w = match UMI_ENV w with Some e => e | None => "undefined" end)
      by reflexivity.
    destruct (UMI_ENV w) as [e|]; [|destruct Hp].
    destruct (truthy (VStr e)); [|destruct Hp].
    destruct Hp as [<-|[]]. rewrite <- Ht.
    apply Hj; [exact Hin | now left].
  - right. right. left.
    destruct (isDev w); [|destruct Hp].
    destruct Hp as [<-|[]]. apply Hj; [exact Hin | right; now left].
Qed.

Lemma force_evicts_loaded_witness :
  incl (loaded precedence_world "/app/.umirc.js")
    (evicted (example_host []) precedence_world).
Proof.
  apply (force_evicts_loaded (example_host []) precedence_world "/app/.umirc.js").
  - intros f rep [<-|[<-|[]]] [<-|[<-|[]]]; reflexivity.
  - reflexivity.
Defined.

(** ** A configuration in one file *)




(** ** The propagation loop, once more *)

Section Propagation.

Variable h : Host.
Variables newConfig oldConfig : value.

(** A turn of the loop that returns has left the state alone, for a
    namespace that is deep-equal, or has written the service's two
    entries. *)
Lemma diffPlugin_returns plugin s s' :
  diffPlugin h newConfig oldConfig plugin s = (s', Ok tt) ->
  nullish newConfig = false
  /\ ((isEqual h (member newConfig (name plugin)) (member oldConfig (name plugin))
       = true /\ s' = s)
      \/ (isEqual h (member newConfig (name plugin)) (member oldConfig (name plugin))
          = false
          /\ service_config s'
             = put (name plugin) (member newConfig (name plugin)) (service_config s)
          /\ service_initialConfig s'
             = put (name plugin) (member newConfig (name plugin))
                 (service_initialConfig s))).
Proof.
  unfold diffPlugin, bind, lift, get_prop.
  destruct (nullish newConfig); [discriminate|].
  destruct (nullish oldConfig); [discriminate|].
  destruct (isEqual h (member newConfig (name plugin))
              (member oldConfig (name plugin))); cbn [negb].
  - intros [= <-]. split; [reflexivity|]. left. now split.
  - unfold modify, ret, throw.
    destruct (onChange plugin) as [f|].
    + destruct (f newConfig) as [msg|]; [discriminate|].
      intros [= <-]. split; [reflexivity|]. right. now split.
    + intros [= <-]. split; [reflexivity|]. right. now split.
Qed.

Lemma diff_loop_written N : forall ps s s',
  forM (diffPlugin h newConfig oldConfig) ps s = (s', Ok tt) ->
  isEqual h (member newConfig N) (member oldConfig N) = false ->
  In N (map name ps)
  \/ (lookup N (service_config s) = Some (member newConfig N)
      /\ lookup N (service_initialConfig s) = Some (member newConfig N)) ->
  lookup N (service_config s') = Some (member newConfig N)
  /\ lookup N (service_initialConfig s') = Some (member newConfig N).
Proof.
  induction ps as [|p ps IH]; intros s s' E Hne Hin.
  - injection E as <-. destruct Hin as [[]|Hin]. exact Hin.
  - simpl in E. unfold bind in E.
    destruct (diffPlugin h newConfig oldConfig p s) as [s1 [[]|e]] eqn:E1;
      [|discriminate].
    apply (IH s1 s' E Hne).
    apply diffPlugin_returns in E1.
    destruct E1 as [_ [[Heq ->]|[Hd [Hc Hi]]]].
    + destruct Hin as [[Hn|Hin]|Hin]; [congruence | now left | now right].
    + destruct (String.eqb_spec N (name p)) as [En|En].
      * right. rewrite Hc, Hi, !lookup_put, <- En, String.eqb_refl. now split.
      * destruct Hin as [[Hn|Hin]|Hin]; [congruence | now left |].
        right. rewrite Hc, Hi, !lookup_put.
        apply String.eqb_neq in En. now rewrite En.
Qed.

(** With nothing to propagate, the loop does nothing. *)
Lemma diff_loop_equal : forall ps s,
  nullish newConfig = false -> nullish oldConfig = false ->
  (forall p, In p ps ->
     isEqual h (member newConfig (name p)) (member oldConfig (name p)) = true) ->
  forM (diffPlugin h newConfig oldConfig) ps s = (s, Ok tt).
Proof.
  induction ps as [|p ps IH]; intros s Hn Ho Heq; [reflexivity|].
  simpl. unfold bind.
  assert (E : diffPlugin h newConfig oldConfig p s = (s, Ok tt)).
  { unfold diffPlugin, bind, lift, get_prop. rewrite Hn, Ho.
    rewrite (Heq p) by now left. reflexivity. }
  rewrite E. apply IH; [exact Hn | exact Ho |].
  intros q Hq. apply Heq. now right.
Qed.

End Propagation.

Section Cycle.

Variable h : Host.
Variable w : World.
Variables ev path : string.

(** The handler after a pipeline that succeeds, in terms of the loop. *)
Lemma watch_handler_loop s s1 newConfig :
  getConfig h w true (Some handler_setConfig)
    (emit (ConsoleLog (debug_line ev path)) s) = (s1, Ok newConfig) ->
  watch_handler h w ev path s
  = match forM (diffPlugin h newConfig (this_config s1)) (plugins h)
            (before_diff newConfig s1) with
    | (s3, Ok _) => s3
    | (s3, Throw e) =>
        emit (ConsoleError e) (emit (ConsoleError e) (with_configFailed true s3))
    end.
Proof.
  intros Hg. unfold watch_handler, handler_body, bind. rewrite Hg.
  unfold modify, gets, when, bind, clone. cbn [this_configFailed emit this_config].
  unfold before_diff.
  destruct (this_configFailed s1); unfold modify, ret;
    cbn [this_config emit with_configFailed]; reflexivity.
Qed.

Lemma getConfig_ok_not_nullish force setConfig s s' c :
  getConfig h w force setConfig s = (s', Ok c) -> nullish c = false.
Proof.
  unfold getConfig, bind.
  destruct (getConfigFile_logs h w s) as [s0 [E0 _]]. rewrite E0. unfold modify.
  destruct (hd_error _) as [file|].
  - destruct (resolveConfig h w file (with_file (Some file) s0))
      as [s1 [config|e]]; [|discriminate].
    destruct (checkConfig h setConfig (remove_first (cwd h ++ "/") file) config s1)
      as [s2 [[]|e]] eqn:Ec; [|discriminate].
    intros [= _ <-]. now apply checks_pass_inv in Ec.
  - intros [= _ <-]. reflexivity.
Qed.

End Cycle.

(** X17: when a cycle of the watch handler completes, the service holds
    the new value of every plugin namespace that differed from the
    accepted configuration, in [config] and in [_initialConfig]; the
    failure flag being down after the cycle tells that it completed
    (lines 236-270). *)
Theorem completed_cycle_writes (h : Host) (w : World) (ev path : string)
    (s s1 : State) (newConfig : value) (plugin : Plugin) :
  getConfig h w true (Some handler_setConfig)
    (emit (ConsoleLog (debug_line ev path)) s) = (s1, Ok newConfig) ->
  this_configFailed (watch_handler h w ev path s) = false ->
  In plugin (plugins h) ->
  isEqual h (member newConfig (name plugin)) (member (this_config s) (name plugin))
  = false ->
  lookup (name plugin) (service_config (watch_handler h w ev path s))
  = Some (member newConfig (name plugin))
  /\ lookup (name plugin) (service_initialConfig (watch_handler h w ev path s))
     = Some (member newConfig (name plugin)).
Proof.
  intros Hg Hf Hin Hne.
  pose proof (getConfig_ok_logs h w _ _ _ _ _ Hg) as (A1 & _).
  cbn [this_config emit] in A1.
  rewrite (watch_handler_loop h w ev path s s1 newConfig Hg) in *.
  destruct (forM (diffPlugin h newConfig (this_config s1)) (plugins h)
              (before_diff newConfig s1)) as [s3 [[]|e]] eqn:El.
  - apply (diff_loop_written h newConfig (this_config s1) (name plugin)
             (plugins h) (before_diff newConfig s1) s3 El).
    + now rewrite A1.
    + left. now apply in_map.
  - discriminate Hf.
Qed.

Lemma completed_cycle_writes_witness :
  let h := example_host [listener "a"; listener "b"] in
  let s' := watch_handler h precedence_world "change" "/app/.umirc.js"
              (started (VObj [("a", VNum 1); ("b", VNum 1)])) in
  lookup "b" (service_config s') = Some (VNum 3)
  /\ lookup "b" (service_initialConfig s') = Some (VNum 3).
Proof.
  cbv zeta.
  exact (completed_cycle_writes (example_host [listener "a"; listener "b"])
           precedence_world "change" "/app/.umirc.js"
           (started (VObj [("a", VNum 1); ("b", VNum 1)]))
           (fst (getConfig (example_host [listener "a"; listener "b"])
                   precedence_world true (Some handler_setConfig)
                   (emit (ConsoleLog (debug_line "change" "/app/.umirc.js"))
                      (started (VObj [("a", VNum 1); ("b", VNum 1)])))))
           (VObj [("a", VNum 1); ("b", VNum 3)]) (listener "b")
           eq_refl eq_refl (or_intror (or_introl eq_refl)) eq_refl).
Defined.

(** ** What the pipeline returns does not depend on the instance *)

Lemma stateless_ret {A} (a : A) : stateless (ret a).
Proof. intros s s'. reflexivity. Qed.

Lemma stateless_throw {A} (e : error) : stateless (@throw A e).
Proof. intros s s'. reflexivity. Qed.

Lemma stateless_lift {A} (r : result A) : stateless (lift r).
Proof. intros s s'. reflexivity. Qed.

Lemma stateless_modify f : stateless (modify f).
Proof. intros s s'. reflexivity. Qed.

Lemma stateless_bind {A B} (m : M A) (k : A -> M B) :
  stateless m -> (forall a, stateless (k a)) -> stateless (bind m k).
Proof.
  intros Hm Hk s s'. unfold bind. specialize (Hm s s').
  destruct (m s) as [s1 r1], (m s') as [s1' r1']. cbn [snd] in Hm. subst r1'.
  destruct r1 as [a|e]; [apply Hk | reflexivity].
Qed.

Lemma stateless_when c m : stateless m -> stateless (when c m).
Proof. intros Hm. destruct c; [exact Hm | apply stateless_ret]. Qed.

Lemma stateless_forM {A} (body : A -> M unit) l :
  (forall a, stateless (body a)) -> stateless (forM body l).
Proof.
  intros Hb. induction l as [|a l IH]; simpl.
  - apply stateless_ret.
  - apply stateless_bind; [apply Hb | intros _; exact IH].
Qed.

Ltac stateless_steps :=
  repeat lazymatch goal with
    | |- stateless (bind _ _) => apply stateless_bind; [|intro]
    | |- stateless (forM _ _) => apply stateless_forM; intro
    | |- stateless (when _ _) => apply stateless_when
    | |- stateless (ret _) => apply stateless_ret
    | |- stateless (throw _) => apply stateless_throw
    | |- stateless (lift _) => apply stateless_lift
    | |- stateless (modify _) => apply stateless_modify
    end.

Section Stateless.

Variable h : Host.
Variable w : World.

Lemma requireFile_stateless p onError :
  (forall f e q, onError = Some f -> stateless (f e q)) ->
  stateless (requireFile w p onError).
Proof.
  intros Hf. unfold requireFile.
  destruct (negb (existsSync w p)); [apply stateless_ret|].
  destruct (try_load w p) as [c|e]; [apply stateless_ret|].
  destruct onError as [f|].
  - now apply Hf.
  - unfold defaultOnError. stateless_steps.
Qed.

Lemma loadUnits_stateless file : stateless (loadUnits h w file).
Proof.
  unfold loadUnits. stateless_steps.
  - apply requireFile_stateless. intros f e q [= <-].
    unfold getConfig_onError. cbv zeta. stateless_steps.
  - destruct (env_set (UMI_ENV w)); [|apply stateless_ret].
    apply requireFile_stateless. discriminate.
  - destruct (isDev w); [|apply stateless_ret].
    apply requireFile_stateless. discriminate.
Qed.

Lemma checkConfig_stateless setConfig rel config :
  stateless (checkConfig h setConfig rel config).
Proof.
  unfold checkConfig. cbv zeta. stateless_steps.
  - unfold validatePlugin. stateless_steps.
    destruct (validate _) as [f|]; [|apply stateless_ret].
    destruct (truthy _); [|apply stateless_ret].
    destruct (f _) as [msg|]; [|apply stateless_ret].
    stateless_steps. destruct setConfig; stateless_steps.
  - unfold checkKey.
    destruct (negb _); [|apply stateless_ret].
    cbv zeta. stateless_steps. destruct setConfig; stateless_steps.
Qed.

Lemma resolveConfig_stateless file : stateless (resolveConfig h w file).
Proof.
  unfold resolveConfig. cbv zeta. stateless_steps.
  - apply loadUnits_stateless.
  - destruct (modifyConfig h _); stateless_steps.
Qed.

Lemma getConfig_stateless force setConfig :
  stateless (getConfig h w force setConfig).
Proof.
  unfold getConfig. stateless_steps.
  - unfold getConfigFile. cbv zeta. stateless_steps.
  - destruct a as [file|]; stateless_steps.
    + apply resolveConfig_stateless.
    + apply checkConfig_stateless.
Qed.

End Stateless.

(** X18: a second watch event on an unchanged disk is silent towards the
    plugins.  After a cycle in which [getConfig] returned, the next cycle
    reads the same configuration, hands it to the middleware, asks for a
    reload only when the first cycle failed in an [onChange], and leaves
    the service and the plugins alone.  This needs [isEqual] to hold of
    each plugin's namespace and itself (lines 233-271). *)
Theorem reload_of_unchanged_files (h : Host) (w : World)
    (ev1 path1 ev2 path2 : string) (s s1 : State) (c : value) :
  (forall p, In p (plugins h) ->
     isEqual h (member c (name p)) (member c (name p)) = true) ->
  getConfig h w true (Some handler_setConfig)
    (emit (ConsoleLog (debug_line ev1 path1)) s) = (s1, Ok c) ->
  let sA := watch_handler h w ev1 path1 s in
  let sB := watch_handler h w ev2 path2 sA in
  this_config sB = c
  /\ this_configFailed sB = false
  /\ service_config sB = service_config sA
  /\ service_initialConfig sB = service_initialConfig sA
  /\ exists logs,
       Forall is_log logs
       /\ trace sB
          = (trace sA ++ logs
               ++ SetMiddlewareConfig c
                  :: (if this_configFailed sA then [Reload] else []))%list.
Proof.
  intros Hrefl Hg sA sB.
  assert (HcA : this_config sA = c) by exact (handler_accepts h w ev1 path1 s s1 c Hg).
  pose proof (getConfig_ok_not_nullish h w _ _ _ _ _ Hg) as Hn.
  destruct (getConfig h w true (Some handler_setConfig)
              (emit (ConsoleLog (debug_line ev2 path2)) sA)) as [s2 r2] eqn:E2.
  assert (Hr : r2 = Ok c).
  { pose proof (getConfig_stateless h w true (Some handler_setConfig)
                  (emit (ConsoleLog (debug_line ev2 path2)) sA)
                  (emit (ConsoleLog (debug_line ev1 path1)) s)) as Hs.
    rewrite E2, Hg in Hs. exact Hs. }
  subst r2.
  pose proof (getConfig_ok_logs h w _ _ _ _ _ E2)
    as (A1 & A2 & A3 & A4 & logs & A5 & A6).
  cbn [this_config this_configFailed service_config service_initialConfig
       trace emit] in A1, A2, A3, A4, A5.
  assert (EB : sB = before_diff c s2).
  { unfold sB. rewrite (watch_handler_loop h w ev2 path2 sA s2 c E2).
    rewrite A1, HcA.
    rewrite (diff_loop_equal h c c (plugins h) (before_diff c s2) Hn Hn);
      [reflexivity|].
    exact Hrefl. }
  rewrite EB. unfold before_diff. rewrite A2.
  destruct (this_configFailed sA);
    cbn [this_config this_configFailed service_config service_initialConfig
         trace emit with_config with_configFailed];
    (split; [reflexivity|]);
    (split; [reflexivity || exact A2|]);
    (split; [exact A3|]);
    (split; [exact A4|]);
    exists (ConsoleLog (debug_line ev2 path2) :: logs);
    (split; [constructor; [exact I | exact A6]|]);
    rewrite A5; rewrite <- !app_assoc; reflexivity.
Qed.

Lemma reload_of_unchanged_files_witness :
  let h := example_host [listener "a"; listener "b"] in
  let sA := watch_handler h precedence_world "change" "/app/.umirc.js"
              (started (VObj [("a", VNum 1); ("b", VNum 1)])) in
  let sB := watch_handler h precedence_world "change" "/app/.umirc.local.js" sA in
  this_config sB = VObj [("a", VNum 1); ("b", VNum 3)]
  /\ this_configFailed sB = false
  /\ service_config sB = service_config sA
  /\ service_initialConfig sB = service_initialConfig sA
  /\ exists logs,
       Forall is_log logs
       /\ trace sB
          = (trace sA ++ logs
               ++ SetMiddlewareConfig (VObj [("a", VNum 1); ("b", VNum 3)])
                  :: (if this_configFailed sA then [Reload] else []))%list.
Proof.
  cbv zeta.
  refine (reload_of_unchanged_files (example_host [listener "a"; listener "b"])
            precedence_world "change" "/app/.umirc.js" "change" "/app/.umirc.local.js"
            (started (VObj [("a", VNum 1); ("b", VNum 1)]))
            (fst (getConfig (example_host [listener "a"; listener "b"])
                    precedence_world true (Some handler_setConfig)
                    (emit (ConsoleLog (debug_line "change" "/app/.umirc.js"))
                       (started (VObj [("a", VNum 1); ("b", VNum 1)])))))
            (VObj [("a", VNum 1); ("b", VNum 3)]) _ eq_refl).
  intros p [<-|[<-|[]]]; reflexivity.
Defined.

(** ** A rejected change that is kept *)

(** X19: a value that arrives in a rejected configuration and stays in
    the corrected one never reaches its plugin.  The rejected
    configuration has become [this.config], so the cycle that accepts the
    correction finds the namespace deep-equal: it asks for a reload, but it
    does not call the plugin's [onChange], and the service's entries for the
    namespace are still those from before the rejected change
    (lines 184-215 and 233-271). *)
Theorem rejected_value_is_not_propagated (h : Host) (w1 w2 : World)
    (ev1 path1 ev2 path2 : string) (s : State) (file : string)
    (bad good : value) (e : error) (N : string) :
  hd_error (filter (existsSync w1) (map (join h (cwd h)) (CONFIG_FILES h)))
  = Some file ->
  snd (resolveConfig h w1 file s) = Ok bad ->
  snd (getConfig h w1 true (Some handler_setConfig) s) = Throw e ->
  is_rejection e = true ->
  snd (getConfig h w2 true (Some handler_setConfig) s) = Ok good ->
  isEqual h (member good N) (member bad N) = true ->
  let sA := watch_handler h w1 ev1 path1 s in
  let sB := watch_handler h w2 ev2 path2 sA in
  this_config sB = good
  /\ lookup N (service_config sB) = lookup N (service_config s)
  /\ lookup N (service_initialConfig sB) = lookup N (service_initialConfig s)
  /\ exists evs,
       trace sB = (trace sA ++ evs)%list
       /\ In Reload evs
       /\ forall e', In e' evs -> ~ touches N e'.
Proof.
  intros Hf Hbad Hrej Hisrej Hgood Heq sA sB.
  (* the rejected cycle *)
  set (sL := emit (ConsoleLog (debug_line ev1 path1)) s).
  destruct (getConfig h w1 true (Some handler_setConfig) sL) as [sa ra] eqn:Ea.
  assert (Hra : ra = Throw e).
  { pose proof (getConfig_stateless h w1 true (Some handler_setConfig) sL s) as Hs.
    rewrite Ea, Hrej in Hs. exact Hs. }
  subst ra.
  pose proof (getConfig_phases h w1 true (Some handler_setConfig) sL) as [_ Hp].
  rewrite Hf in Hp. destruct Hp as [s1 [r1 [Er [L1 Hp]]]].
  assert (Hr1 : r1 = Ok bad).
  { pose proof (resolveConfig_stateless h w1 file
                  (with_file (Some file) (fst (getConfigFile h w1 sL))) s) as Hs.
    rewrite Er, Hbad in Hs. exact Hs. }
  subst r1.
  assert (Esa : exists e', sa = emit (PrintError (printed e'))
                                  (handler_setConfig bad s1)).
  { destruct Hp as [E|[[E _]|[e' [_ E]]]]; rewrite E in Ea.
    - discriminate.
    - injection Ea as _ <-. discriminate.
    - injection Ea as <- _. now exists e'. }
  destruct Esa as [e' Esa].
  destruct L1 as (_ & _ & B3 & B4 & _).
  cbn [service_config service_initialConfig emit sL] in B3, B4.
  assert (EA : sA = emit (ConsoleError e)
                      (emit (ConsoleError e) (with_configFailed true sa))).
  { exact (watch_handler_failed h w1 ev1 path1 s sa e Ea). }
  assert (HcA : this_config sA = bad) by (rewrite EA, Esa; reflexivity).
  assert (HfA : this_configFailed sA = true) by (rewrite EA; reflexivity).
  assert (HsA : service_config sA = service_config s)
    by (rewrite EA, Esa; exact B3).
  assert (HiA : service_initialConfig sA = service_initialConfig s)
    by (rewrite EA, Esa; exact B4).
  (* the cycle that accepts the correction *)
  destruct (getConfig h w2 true (Some handler_setConfig)
              (emit (ConsoleLog (debug_line ev2 path2)) sA)) as [sb rb] eqn:Eb.
  assert (Hrb : rb = Ok good).
  { pose proof (getConfig_stateless h w2 true (Some handler_setConfig)
                  (emit (ConsoleLog (debug_line ev2 path2)) sA) s) as Hs.
    rewrite Eb, Hgood in Hs. exact Hs. }
  subst rb.
  split; [exact (handler_accepts h w2 ev2 path2 sA sb good Eb)|].
  rewrite <- HcA in Heq.
  destruct (handler_frame h w2 ev2 path2 sA sb good N Eb Heq)
    as [evs (T & Hnt & F1 & F2)].
  fold sB in T, F1, F2.
  split; [now rewrite F1, HsA|]. split; [now rewrite F2, HiA|].
  exists evs. split; [exact T|]. split; [|exact Hnt].
  pose proof (getConfig_ok_logs h w2 _ _ _ _ _ Eb)
    as (_ & A2 & _ & _ & logs & A5 & _).
  cbn [this_configFailed trace emit] in A2, A5. rewrite HfA in A2.
  destruct (watch_handler_resolved h w2 ev2 path2 sA sb good Eb)
    as [s3 [r [evs' [D E]]]].
  fold sB in E. destruct D as (T' & _).
  unfold before_diff in T'. rewrite A2 in T'.
  cbn [trace emit with_config with_configFailed] in T'. rewrite A5 in T'.
  assert (X : exists tail,
    trace sB = (trace sA
                  ++ (ConsoleLog (debug_line ev2 path2) :: logs)
                  ++ SetMiddlewareConfig good :: Reload :: evs' ++ tail)%list).
  { destruct r as [[]|e2].
    - exists []. rewrite E, T', app_nil_r, <- !app_assoc. reflexivity.
    - exists [ConsoleError e2; ConsoleError e2]. rewrite E.
      cbn [trace emit with_configFailed]. rewrite T', <- !app_assoc.
      reflexivity. }
  destruct X as [tail X]. rewrite T in X. apply app_inv_head in X. rewrite X.
  apply in_or_app. right. right. now left.
Qed.

Lemma rejected_value_is_not_propagated_witness :
  let h := example_host [listener "a"] in
  let w1 := disk [("/app/.umirc.js",
                   Returns (VObj [("a", VNum 2); ("typo", VNum 1)]))] None None in
  let w2 := disk [("/app/.umirc.js", Returns (VObj [("a", VNum 2)]))] None None in
  let s := started (VObj [("a", VNum 1)]) in
  let sA := watch_handler h w1 "change" "/app/.umirc.js" s in
  let sB := watch_handler h w2 "change" "/app/.umirc.js" sA in
  this_config sB = VObj [("a", VNum 2)]
  /\ lookup "a" (service_config sB) = lookup "a" (service_config s)
  /\ lookup "a" (service_initialConfig sB) = lookup "a" (service_initialConfig s)
  /\ exists evs,
       trace sB = (trace sA ++ evs)%list
       /\ In Reload evs
       /\ forall e', In e' evs -> ~ touches "a" e'.
Proof.
  cbv zeta.
  exact (rejected_value_is_not_propagated (example_host [listener "a"])
           (disk [("/app/.umirc.js",
                   Returns (VObj [("a", VNum 2); ("typo", VNum 1)]))] None None)
           (disk [("/app/.umirc.js", Returns (VObj [("a", VNum 2)]))] None None)
           "change" "/app/.umirc.js" "change" "/app/.umirc.js"
           (started (VObj [("a", VNum 1)])) "/app/.umirc.js"
           (VObj [("a", VNum 2); ("typo", VNum 1)]) (VObj [("a", VNum 2)])
           (UnknownKeyError ".umirc.js" "typo" None ["a"]) "a"
           eq_refl eq_refl eq_refl eq_refl eq_refl eq_refl).
Defined.

(** ** An instance without a configuration *)

(** X20: the constructor leaves [this.config] at [null], and the watch
    handler reads the members of the old configuration: on an instance
    whose configuration was never set, a cycle in which [getConfig] returns
    fails with a [TypeError] at the first plugin.  The new configuration
    has been stored by then and the failure flag goes up, but the service
    is not written and no [onChange] is called (lines 113-122 and
    249-270). *)
Theorem first_cycle_without_config (h : Host) (w : World) (ev path : string)
    (s s1 : State) (c : value) :
  nullish (this_config s) = true ->
  plugins h <> [] ->
  getConfig h w true (Some handler_setConfig)
    (emit (ConsoleLog (debug_line ev path)) s) = (s1, Ok c) ->
  let s' := watch_handler h w ev path s in
  this_config s' = c
  /\ this_configFailed s' = true
  /\ service_config s' = service_config s
  /\ service_initialConfig s' = service_initialConfig s
  /\ exists evs,
       trace s' = (trace s ++ evs ++ [ConsoleError TypeError; ConsoleError TypeError])%list
       /\ forall N e, In e evs -> ~ touches N e.
Proof.
  intros Hnull Hps Hg s'.
  pose proof (getConfig_ok_not_nullish h w _ _ _ _ _ Hg) as Hn.
  pose proof (getConfig_ok_logs h w _ _ _ _ _ Hg)
    as (A1 & A2 & A3 & A4 & logs & A5 & A6).
  cbn [this_config this_configFailed service_config service_initialConfig
       trace emit] in A1, A2, A3, A4, A5.
  assert (E : s' = emit (ConsoleError TypeError)
                     (emit (ConsoleError TypeError)
                        (with_configFailed true (before_diff c s1)))).
  { unfold s'. rewrite (watch_handler_loop h w ev path s s1 c Hg).
    destruct (plugins h) as [|p ps]; [contradiction|].
    simpl forM. unfold bind at 1.
    unfold diffPlugin, bind, lift, get_prop. rewrite Hn, A1, Hnull. reflexivity. }
  rewrite E. unfold before_diff.
  destruct (this_configFailed s1);
    cbn [this_config this_configFailed service_config service_initialConfig
         trace emit with_config with_configFailed];
    (split; [reflexivity|]); (split; [reflexivity|]);
    (split; [exact A3|]); (split; [exact A4|]); rewrite A5.
  - exists ([ConsoleLog (debug_line ev path)] ++ logs
            ++ [SetMiddlewareConfig c; Reload])%list.
    split; [rewrite <- !app_assoc; reflexivity|].
    intros N e [<-|He]; [exact (fun x => x)|].
    apply in_app_or in He. destruct He as [[]|He].
    apply in_app_or in He. destruct He as [He|[<-|[<-|[]]]];
      [|exact (fun x => x) | exact (fun x => x)].
    apply is_log_touches. rewrite Forall_forall in A6. now apply A6.
  - exists ([ConsoleLog (debug_line ev path)] ++ logs
            ++ [SetMiddlewareConfig c])%list.
    split; [rewrite <- !app_assoc; reflexivity|].
    intros N e [<-|He]; [exact (fun x => x)|].
    apply in_app_or in He. destruct He as [[]|He].
    apply in_app_or in He.
    destruct He as [He|[<-|[]]]; [|exact (fun x => x)].
    apply is_log_touches. rewrite Forall_forall in A6. now apply A6.
Qed.

Lemma first_cycle_without_config_witness :
  let h := example_host [listener "a"; listener "b"] in
  let s := with_config VNull (started (VObj [])) in
  let s' := watch_handler h precedence_world "change" "/app/.umirc.js" s in
  this_config s' = VObj [("a", VNum 1); ("b", VNum 3)]
  /\ this_configFailed s' = true
  /\ service_config s' = service_config s
  /\ service_initialConfig s' = service_initialConfig s
  /\ exists evs,
       trace s' = (trace s ++ evs ++ [ConsoleError TypeError; ConsoleError TypeError])%list
       /\ forall N e, In e evs -> ~ touches N e.
Proof.
  cbv zeta.
  refine (first_cycle_without_config (example_host [listener "a"; listener "b"])
            precedence_world "change" "/app/.umirc.js"
            (with_config VNull (started (VObj [])))
            (fst (getConfig (example_host [listener "a"; listener "b"])
                    precedence_world true (Some handler_setConfig)
                    (emit (ConsoleLog (debug_line "change" "/app/.umirc.js"))
                       (with_config VNull (started (VObj []))))))
            (VObj [("a", VNum 1); ("b", VNum 3)]) eq_refl _ eq_refl).
  discriminate.
Defined.

(** ** The file that the instance records *)

Lemma keeps_files_ret {A} (a : A) : keeps_files (ret a).
Proof. intros s. now split. Qed.

Lemma keeps_files_throw {A} (e : error) : keeps_files (@throw A e).
Proof. intros s. now split. Qed.

Lemma keeps_files_lift {A} (r : result A) : keeps_files (lift r).
Proof. intros s. now split. Qed.

Lemma keeps_files_modify f :
  (forall s, this_file (f s) = this_file s
             /\ this_relativeFile (f s) = this_relativeFile s) ->
  keeps_files (modify f).
Proof. intros Hf s. apply Hf. Qed.

Lemma keeps_files_emit e : keeps_files (modify (emit e)).
Proof. apply keeps_files_modify. intros s. now split. Qed.

Lemma keeps_files_bind {A B} (m : M A) (k : A -> M B) :
  keeps_files m -> (forall a, keeps_files (k a)) -> keeps_files (bind m k).
Proof.
  intros Hm Hk s. unfold bind. specialize (Hm s).
  destruct (m s) as [s1 [a|e]]; cbn [fst] in *.
  - destruct (Hk a s1) as [H1 H2]. destruct Hm as [H3 H4].
    split; congruence.
  - exact Hm.
Qed.

Lemma keeps_files_when c m : keeps_files m -> keeps_files (when c m).
Proof. intros Hm. destruct c; [exact Hm | apply keeps_files_ret]. Qed.

Lemma keeps_files_forM {A} (body : A -> M unit) l :
  (forall a, keeps_files (body a)) -> keeps_files (forM body l).
Proof.
  intros Hb. induction l as [|a l IH]; simpl.
  - apply keeps_files_ret.
  - apply keeps_files_bind; [apply Hb | intros _; exact IH].
Qed.

Ltac keeps_files_steps :=
  repeat lazymatch goal with
    | |- keeps_files (bind _ _) => apply keeps_files_bind; [|intro]
    | |- keeps_files (forM _ _) => apply keeps_files_forM; intro
    | |- keeps_files (when _ _) => apply keeps_files_when
    | |- keeps_files (ret _) => apply keeps_files_ret
    | |- keeps_files (throw _) => apply keeps_files_throw
    | |- keeps_files (lift _) => apply keeps_files_lift
    | |- keeps_files (modify (emit _)) => apply keeps_files_emit
    end.

Section RecordedFile.

Variable h : Host.
Variable w : World.
Variable setConfig : option (value -> State -> State).

Hypothesis setConfig_keeps :
  forall set config s,
    setConfig = Some set ->
    this_file (set config s) = this_file s
    /\ this_relativeFile (set config s) = this_relativeFile s.

Lemma call_keeps_files config :
  keeps_files match setConfig with
              | Some set => modify (set config)
              | None => ret tt
              end.
Proof.
  destruct setConfig as [set|] eqn:E; [|apply keeps_files_ret].
  apply keeps_files_modify. intros s. now apply setConfig_keeps.
Qed.

Lemma requireFile_keeps_files p onError :
  (forall f e q, onError = Some f -> keeps_files (f e q)) ->
  keeps_files (requireFile w p onError).
Proof.
  intros Hf. unfold requireFile.
  destruct (negb (existsSync w p)); [apply keeps_files_ret|].
  destruct (try_load w p) as [c|e]; [apply keeps_files_ret|].
  destruct onError as [f|].
  - now apply Hf.
  - unfold defaultOnError. keeps_files_steps.
Qed.

Lemma loadUnits_keeps_files file : keeps_files (loadUnits h w file).
Proof.
  unfold loadUnits. keeps_files_steps.
  - apply requireFile_keeps_files. intros f e q [= <-].
    unfold getConfig_onError. cbv zeta. keeps_files_steps.
  - destruct (env_set (UMI_ENV w)); [|apply keeps_files_ret].
    apply requireFile_keeps_files. discriminate.
  - destruct (isDev w); [|apply keeps_files_ret].
    apply requireFile_keeps_files. discriminate.
Qed.

Lemma checkConfig_keeps_files rel config :
  keeps_files (checkConfig h setConfig rel config).
Proof.
  unfold checkConfig. cbv zeta. keeps_files_steps.
  - unfold validatePlugin. keeps_files_steps.
    destruct (validate _) as [f|]; [|apply keeps_files_ret].
    destruct (truthy _); [|apply keeps_files_ret].
    destruct (f _) as [msg|]; [|apply keeps_files_ret].
    keeps_files_steps. apply call_keeps_files.
  - unfold checkKey.
    destruct (negb _); [|apply keeps_files_ret].
    cbv zeta. keeps_files_steps. apply call_keeps_files.
Qed.

Lemma resolveConfig_files file s :
  this_file (fst (resolveConfig h w file s)) = this_file s
  /\ this_relativeFile (fst (resolveConfig h w file s))
     = Some (remove_first (cwd h ++ "/") file).
Proof.
  unfold resolveConfig. cbv zeta.
  lazymatch goal with
  | |- context [bind (modify ?f) ?k s] =>
      change (bind (modify f) k s) with (k tt (f s))
  end.
  cbv beta.
  lazymatch goal with
  | |- this_file (fst (?m ?st)) = _ /\ _ =>
      assert (K : keeps_files m);
      [|destruct (K st) as [F R]; rewrite F, R; split; reflexivity]
  end.
  keeps_files_steps.
  - apply loadUnits_keeps_files.
  - destruct (modifyConfig h _); keeps_files_steps.
Qed.

End RecordedFile.

(** X21: whatever its outcome, the instance [getConfig] leaves in
    [this.file] the configuration file it found, or [undefined] when there
    is none; [this.relativeFile] is that file relative to the working
    directory, and is left as it was when there is none.  The caller's
    [setConfig] must not write the two fields (lines 141-162). *)
Theorem getConfig_records_file (h : Host) (w : World) (force : bool)
    (setConfig : option (value -> State -> State)) (s : State) :
  (forall set config s,
      setConfig = Some set ->
      this_file (set config s) = this_file s
      /\ this_relativeFile (set config s) = this_relativeFile s) ->
  let found := hd_error (filter (existsSync w)
                           (map (join h (cwd h)) (CONFIG_FILES h))) in
  let s' := fst (getConfig h w force setConfig s) in
  this_file s' = found
  /\ this_relativeFile s'
     = match found with
       | Some file => Some (remove_first (cwd h ++ "/") file)
       | None => this_relativeFile s
       end.
Proof.
  intros Hset. cbv zeta. unfold getConfig, bind.
  assert (K0 : keeps_files (getConfigFile h w)).
  { unfold getConfigFile. cbv zeta. keeps_files_steps. }
  destruct (getConfigFile_logs h w s) as [s0 [E0 _]].
  pose proof (K0 s) as [F0 R0]. rewrite E0 in F0, R0 |- *. cbn [fst] in F0, R0.
  unfold modify.
  destruct (hd_error _) as [file|]; [|cbn; split; [reflexivity | exact R0]].
  pose proof (resolveConfig_files h w file (with_file (Some file) s0)) as [F R].
  change (this_file (with_file (Some file) s0)) with (Some file) in F.
  destruct (resolveConfig h w file (with_file (Some file) s0))
    as [s1 [config|e]]; cbn [fst] in F, R; [|split; [exact F | exact R]].
  pose proof (checkConfig_keeps_files h setConfig Hset
                (remove_first (cwd h ++ "/") file) config s1) as [F1 R1].
  destruct (checkConfig h setConfig (remove_first (cwd h ++ "/") file) config s1)
    as [s2 [[]|e]]; unfold ret; cbn [fst] in *; split; congruence.
Qed.

Lemma getConfig_records_file_witness :
  let h := example_host [listener "a"] in
  let s' := fst (getConfig h precedence_world true (Some handler_setConfig)
                   (started (VObj []))) in
  this_file s' = Some "/app/.umirc.js"
  /\ this_relativeFile s' = Some ".umirc.js".
Proof.
  cbv zeta.
  refine (getConfig_records_file (example_host [listener "a"]) precedence_world true
            (Some handler_setConfig) (started (VObj [])) _).
  intros set config s [= <-]. now split.
Defined.

(** ** The relative file, for a join that concatenates *)

(** X1: when [path.join] gives [cwd/f] for the conventional file [f]
    that is found, the instance [getConfig] records [f] itself in
    [this.relativeFile], whatever its outcome.  The caller's [setConfig]
    must not write the field (lines 141-162). *)
Theorem relativeFile_of_joined (h : Host) (w : World) (force : bool)
    (setConfig : option (value -> State -> State)) (s : State) (f : string) :
  (forall set config s,
      setConfig = Some set ->
      this_file (set config s) = this_file s
      /\ this_relativeFile (set config s) = this_relativeFile s) ->
  hd_error (filter (existsSync w) (map (join h (cwd h)) (CONFIG_FILES h)))
  = Some (join h (cwd h) f) ->
  join h (cwd h) f = cwd h ++ "/" ++ f ->
  this_relativeFile (fst (getConfig h w force setConfig s)) = Some f.
Proof.
  intros Hset Hf Hj. unfold getConfig, bind.
  destruct (getConfigFile_logs h w s) as [s0 [E0 _]]. rewrite E0, Hf.
  unfold modify.
  pose proof (resolveConfig_files h w (join h (cwd h) f)
                (with_file (Some (join h (cwd h) f)) s0)) as [_ R].
  assert (Hr : remove_first (cwd h ++ "/") (join h (cwd h) f) = f).
  { rewrite Hj, <- append_assoc.
    rewrite remove_first_prefix by apply prefix_append.
    apply substring_drop. rewrite length_append. lia. }
  rewrite Hr in *.
  destruct (resolveConfig h w (join h (cwd h) f)
              (with_file (Some (join h (cwd h) f)) s0))
    as [s1 [config|e]]; cbn [fst] in R; [|exact R].
  pose proof (checkConfig_keeps_files h setConfig Hset f config s1) as [_ R1].
  destruct (checkConfig h setConfig f config s1)
    as [s2 [[]|e]]; unfold ret; cbn [fst] in *; congruence.
Qed.

Lemma relativeFile_of_joined_witness :
  this_relativeFile
    (fst (getConfig (example_host [listener "a"]) precedence_world true
            (Some handler_setConfig) (started (VObj []))))
  = Some ".umirc.js".
Proof.
  apply (relativeFile_of_joined (example_host [listener "a"]) precedence_world true
           (Some handler_setConfig) (started (VObj [])) ".umirc.js").
  - intros set config s [= <-]. now split.
  - reflexivity.
  - reflexivity.
Defined.

(** ** Resolution, as getConfig performs it *)

(** C8: resolution shallow-merges the three units in the order base,
    environment override (only when the environment name is set), local
    override (only in development mode).  Whenever the instance
    [getConfig] returns a configuration read from a file, that
    configuration is what the [modifyConfig] hook made of the normalized
    merge, and in the merge every top-level namespace holds the value of
    the last unit that has it, whole; unless the merge has a truthy
    [default], normalization leaves every namespace but [pages] as
    merged. *)
Theorem C8_merge_precedence (h : Host) (w : World) (force : bool)
    (setConfig : option (value -> State -> State)) (s s' : State)
    (file : string) (c : value) :
  hd_error (filter (existsSync w) (map (join h (cwd h)) (CONFIG_FILES h)))
  = Some file ->
  getConfig h w force setConfig s = (s', Ok c) ->
  let env := match env_set (UMI_ENV w) with
             | Some e => load_unit w (replace_js file ("." ++ e ++ ".js"))
             | None => VObj []
             end in
  let loc := if isDev w then load_unit w (replace_js file ".local.js")
             else VObj [] in
  exists base merged c0,
    try_load w file = Ok base
    /\ (forall k, lookup k merged = precedence base env loc k)
    /\ normalizeConfig (VObj merged) = Ok c0
    /\ modifyConfig h c0 = Returns c
    /\ (truthy (member (VObj merged) "default") = false ->
        forall k, k <> "pages" ->
          member c0 k = match precedence base env loc k with
                        | Some v => v
                        | None => VUndef
                        end).
Proof.
  intros Hf Hg env loc. subst env loc.
  pose proof (found_exists h w file Hf) as He.
  unfold getConfig, bind in Hg.
  destruct (getConfigFile_logs h w s) as [s1 [E1 _]]. rewrite E1, Hf in Hg.
  unfold modify, resolveConfig, bind, modify in Hg.
  destruct (loadUnits h w file _) as [s2 [merged|e]] eqn:El; [|discriminate].
  assert (Hb : exists base, try_load w file = Ok base).
  { unfold loadUnits, bind, requireFile in El. rewrite He in El. cbn [negb] in El.
    destruct (try_load w file) as [base|e]; [now exists base | discriminate]. }
  destruct Hb as [base Hb].
  apply loadUnits_result in El.
  assert (Hu : load_unit w file = base) by (unfold load_unit; now rewrite He, Hb).
  rewrite Hu in El.
  unfold lift in Hg.
  destruct (normalizeConfig merged) as [c0|e] eqn:En; [|discriminate].
  destruct (modifyConfig h c0) as [c1|msg] eqn:Em; [|discriminate].
  unfold ret in Hg.
  destruct (checkConfig h setConfig _ c1 s2) as [s3 [[]|e]]; [|discriminate].
  injection Hg as _ <-. subst merged.
  eexists base, _, c0.
  split; [exact Hb|]. split; [intros k; apply lookup_spread3|].
  split; [exact En|]. split; [exact Em|].
  intros Hd k Hk.
  rewrite normalizeConfig_chosen in En by reflexivity.
  unfold chosen, js_or in En. rewrite Hd in En.
  rewrite (normalize_rest_member _ _ k En Hk).
  rewrite <- lookup_spread3. reflexivity.
Qed.

Lemma C8_merge_precedence_witness :
  exists base merged c0,
    try_load precedence_world "/app/.umirc.js" = Ok base
    /\ (forall k, lookup k merged
                  = precedence base (VObj [("b", VNum 2)]) (VObj [("b", VNum 3)]) k)
    /\ normalizeConfig (VObj merged) = Ok c0
    /\ modifyConfig (example_host [owner "a"; owner "b"]) c0
       = Returns (VObj [("a", VNum 1); ("b", VNum 3)])
    /\ (truthy (member (VObj merged) "default") = false ->
        forall k, k <> "pages" ->
          member c0 k
          = match precedence base (VObj [("b", VNum 2)]) (VObj [("b", VNum 3)]) k with
            | Some v => v
            | None => VUndef
            end).
Proof.
  exact (C8_merge_precedence (example_host [owner "a"; owner "b"]) precedence_world
           true None (started (VObj []))
           (fst (getConfig (example_host [owner "a"; owner "b"]) precedence_world
                   true None (started (VObj []))))
           "/app/.umirc.js" (VObj [("a", VNum 1); ("b", VNum 3)])
           eq_refl eq_refl).
Defined.

(** *** An override that does not load *)

Lemma same_result_bind {A B} (m m' : M A) (k k' : A -> M B) :
  same_result m m' -> (forall a, same_result (k a) (k' a)) ->
  same_result (bind m k) (bind m' k').
Proof.
  intros Hm Hk s s'. unfold bind. specialize (Hm s s').
  destruct (m s) as [s1 r1], (m' s') as [s1' r1']. cbn [snd] in Hm. subst r1'.
  destruct r1 as [a|e]; [apply Hk | reflexivity].
Qed.

Lemma snd_bind_found {A B} (m : M A) (k k' : A -> M B) s s0 a :
  m s = (s0, Ok a) -> snd (k a s0) = snd (k' a s0) ->
  snd (bind m k s) = snd (bind m k' s).
Proof. intros E H. unfold bind. now rewrite E. Qed.

Lemma getConfigFile_stateless h w : stateless (getConfigFile h w).
Proof. unfold getConfigFile. cbv zeta. stateless_steps. Qed.

Section BrokenOverride.

Variable h : Host.
Variable w : World.
Variable p : string.
Variable e : error.

Hypothesis p_exists : existsSync w p = true.
Hypothesis p_throws : try_load w p = Throw e.

Lemma requireFile_emptied q onError :
  q <> p -> requireFile (emptied w p) q onError = requireFile w q onError.
Proof.
  intros Hq. unfold requireFile, try_load. cbn [existsSync require emptied].
  apply String.eqb_neq in Hq. rewrite Hq. reflexivity.
Qed.

Lemma requireFile_override q :
  same_result (requireFile w q None) (requireFile (emptied w p) q None).
Proof.
  destruct (String.eqb_spec q p) as [E|E].
  - subst q. intros s s'. unfold requireFile, try_load at 2.
    cbn [existsSync require emptied].
    rewrite String.eqb_refl, p_exists, p_throws. reflexivity.
  - rewrite requireFile_emptied by exact E.
    apply requireFile_stateless. discriminate.
Qed.

Lemma resolveConfig_emptied file :
  file <> p ->
  same_result (resolveConfig h w file) (resolveConfig h (emptied w p) file).
Proof.
  intros Hq. unfold resolveConfig. cbv zeta.
  apply same_result_bind; [apply stateless_modify | intros _].
  apply same_result_bind.
  - unfold loadUnits.
    apply same_result_bind.
    { rewrite requireFile_emptied by exact Hq.
      apply requireFile_stateless. intros f e0 q [= <-].
      unfold getConfig_onError. cbv zeta. stateless_steps. }
    intros base. apply same_result_bind.
    { change (UMI_ENV (emptied w p)) with (UMI_ENV w).
      destruct (env_set (UMI_ENV w)); [apply requireFile_override | apply stateless_ret]. }
    intros env. apply same_result_bind.
    { change (isDev (emptied w p)) with (isDev w).
      destruct (isDev w); [apply requireFile_override | apply stateless_ret]. }
    intros loc. apply stateless_ret.
  - intros merged. apply same_result_bind; [apply stateless_lift | intros c0].
    destruct (modifyConfig h c0); [apply stateless_ret | apply stateless_throw].
Qed.

Lemma getConfig_emptied force setConfig s file base :
  hd_error (filter (existsSync w) (map (join h (cwd h)) (CONFIG_FILES h)))
  = Some file ->
  try_load w file = Ok base ->
  snd (getConfig h w force setConfig s)
  = snd (getConfig h (emptied w p) force setConfig s).
Proof.
  intros Hf Hb.
  assert (Eg : getConfigFile h (emptied w p) = getConfigFile h w) by reflexivity.
  unfold getConfig. rewrite Eg.
  destruct (getConfigFile_logs h w s) as [s0 [E0 _]].
  apply (snd_bind_found _ _ _ s s0 _ E0). rewrite Hf.
  assert (Hq : file <> p).
  { intros ->. rewrite p_throws in Hb. discriminate. }
  apply same_result_bind; [apply stateless_modify | intros _].
  apply same_result_bind; [now apply resolveConfig_emptied | intros config].
  apply same_result_bind; [apply checkConfig_stateless | intros _].
  apply stateless_ret.
Qed.

Lemma requireFile_keeps_log q s ev :
  In ev (trace s) -> In ev (trace (fst (requireFile w q None s))).
Proof.
  intros H. destruct (requireFile_default w q s) as [s' [E (_ & _ & _ & _ & evs & T & _)]].
  rewrite E. cbn [fst]. rewrite T. apply in_or_app. now left.
Qed.

Lemma requireFile_logs_error s :
  In (ConsoleError e) (trace (fst (requireFile w p None s))).
Proof.
  unfold requireFile. rewrite p_exists, p_throws. cbn [negb].
  unfold defaultOnError, bind, modify, ret. cbn [fst trace emit].
  apply in_or_app. right. now left.
Qed.

Lemma resolveConfig_logs_error file base s :
  existsSync w file = true ->
  try_load w file = Ok base ->
  In p (tl (loaded w file)) ->
  In (ConsoleError e) (trace (fst (resolveConfig h w file s))).
Proof.
  intros He Hb Hin.
  assert (Hfst : forall st,
    fst (resolveConfig h w file st)
    = fst (loadUnits h w file
             (with_relativeFile (Some (remove_first (cwd h ++ "/") file)) st))).
  { intros st. unfold resolveConfig, bind, modify.
    destruct (loadUnits h w file _) as [s1 [merged|e1]]; [|reflexivity].
    unfold lift. destruct (normalizeConfig merged) as [c0|e1]; [|reflexivity].
    destruct (modifyConfig h c0); reflexivity. }
  rewrite Hfst. unfold loadUnits, bind.
  rewrite (requireFile_base_ok h w file base _ He Hb).
  set (st := with_relativeFile _ s).
  unfold loaded in Hin. cbn [tl] in Hin. apply in_app_or in Hin.
  assert (Hloc : forall sa,
    In (ConsoleError e) (trace sa) ->
    forall env,
    In (ConsoleError e)
      (trace (fst (let (s'0, r) :=
                     (if isDev w then requireFile w (replace_js file ".local.js") None
                      else ret (VObj [])) sa in
                   match r with
                   | Ok a => ret (VObj (spread (spread (spread [] base) env) a)) s'0
                   | Throw e0 => (s'0, Throw e0)
                   end)))).
  { intros sa Ha env.
    assert (H : In (ConsoleError e)
                  (trace (fst ((if isDev w
                                then requireFile w (replace_js file ".local.js") None
                                else ret (VObj [])) sa)))).
    { destruct (isDev w); [now apply requireFile_keeps_log | exact Ha]. }
    destruct ((if isDev w then requireFile w (replace_js file ".local.js") None
               else ret (VObj [])) sa) as [sb [loc|e1]]; exact H. }
  destruct Hin as [Hin|Hin].
  - destruct (env_set (UMI_ENV w)) as [en|]; [|destruct Hin].
    destruct Hin as [E|[]]. rewrite E.
    pose proof (requireFile_logs_error st) as H.
    destruct (requireFile_default w p st) as [sa [Ea _]].
    rewrite Ea in H |- *. cbn [fst] in H. now apply Hloc.
  - assert (Hd : isDev w = true) by (destruct (isDev w); [reflexivity | destruct Hin]).
    rewrite Hd in Hin. destruct Hin as [E|[]]. rewrite E.
    assert (Henv : exists sa env,
      match env_set (UMI_ENV w) with
      | Some en => requireFile w (replace_js file ("." ++ en ++ ".js")) None
      | None => ret (VObj [])
      end st = (sa, Ok env)).
    { destruct (env_set (UMI_ENV w)) as [en|].
      - destruct (requireFile_default w (replace_js file ("." ++ en ++ ".js")) st)
          as [sa [Ea _]]. eauto.
      - eexists _, _. reflexivity. }
    destruct Henv as [sa [env Ea]]. rewrite Ea, Hd.
    pose proof (requireFile_logs_error sa) as H.
    destruct (requireFile_default w p sa) as [sb [Eb _]].
    rewrite Eb in H |- *. exact H.
Qed.

End BrokenOverride.

(** C10, as stated, promises too much: with an override that does not
    parse, [getConfig] can still fail, on what the base file holds. *)
Lemma C10_success_counterexample :
  let w := broken_override_invalid_world in
  let h := example_host [numeric "a"] in
  let e := LoadError "SyntaxError: Unexpected token" in
  try_load w "/app/.umirc.js" = Ok (VObj [("a", VStr "one")])
  /\ In "/app/.umirc.prod.js" (tl (loaded w "/app/.umirc.js"))
  /\ try_load w "/app/.umirc.prod.js" = Throw e
  /\ In (ConsoleError e) (trace (fst (getConfig h w true None (started (VObj [])))))
  /\ snd (getConfig h w true None (started (VObj [])))
     = Throw (ValidationError "a" "must be a number").
Proof. vm_compute. intuition. Qed.

(** C10 (amended): in the instance [getConfig] only a load error of the
    base file aborts resolution: it is printed and thrown, wrapped with
    the file's relative path.  A load error of the environment or of the
    local override is logged by the default handler and an empty object
    stands for the override: [getConfig] returns or throws exactly as it
    does when that file exports an empty object, so it succeeds whenever
    it succeeds then, and it never fails with a configuration file
    error.  (The caller's [setConfig] is taken not to erase what was
    logged.) *)
Theorem C10_only_base_aborts (h : Host) (w : World) (force : bool)
    (setConfig : option (value -> State -> State)) (file : string) (s : State) :
  hd_error (filter (existsSync w) (map (join h (cwd h)) (CONFIG_FILES h)))
  = Some file ->
  (forall set config s0 ev,
      setConfig = Some set -> In ev (trace s0) -> In ev (trace (set config s0))) ->
  (forall e, try_load w file = Throw e ->
     let msg := ConfigFileError (remove_first (cwd h ++ "/") file) e in
     snd (getConfig h w force setConfig s) = Throw msg
     /\ In (PrintError msg) (trace (fst (getConfig h w force setConfig s))))
  /\ (forall base p e,
        try_load w file = Ok base ->
        In p (tl (loaded w file)) ->
        existsSync w p = true ->
        try_load w p = Throw e ->
        In (ConsoleError e) (trace (fst (getConfig h w force setConfig s)))
        /\ snd (getConfig h w force setConfig s)
           = snd (getConfig h (emptied w p) force setConfig s)
        /\ (forall c, snd (getConfig h (emptied w p) force setConfig s) = Ok c ->
                      snd (getConfig h w force setConfig s) = Ok c)
        /\ forall rel e', snd (getConfig h w force setConfig s)
                          <> Throw (ConfigFileError rel e')).
Proof.
  intros Hf Hset. pose proof (found_exists h w file Hf) as He.
  split.
  - intros e Hl msg.
    pose proof (getConfigFile_logs h w s) as [s0 [E0 _]].
    unfold getConfig, bind. rewrite E0, Hf. unfold modify.
    unfold resolveConfig, bind, modify, loadUnits, bind.
    rewrite (requireFile_base_throw h w file e _ He Hl).
    split; [reflexivity|]. cbn [fst trace emit]. apply in_or_app. right. now left.
  - intros base p e Hl Hin Hp Hpl.
    destruct (getConfig_phases h w force setConfig s) as [_ H].
    cbv zeta in H. rewrite Hf in H.
    destruct H as [s1 [r1 [E1 [_ H]]]].
    pose proof (resolveConfig_logs_error h w p e Hp Hpl file base
                  (with_file (Some file) (fst (getConfigFile h w s))) He Hl Hin)
      as Hlog.
    rewrite E1 in Hlog. cbn [fst] in Hlog.
    split; [|split; [|split]].
    + destruct r1 as [config|e1].
      * destruct H as [E|[[E _]|[e' [_ E]]]]; rewrite E; cbn [fst]; try exact Hlog.
        cbn [trace emit]. apply in_or_app. left.
        unfold call_setConfig. destruct setConfig as [set|]; [|exact Hlog].
        now apply Hset.
      * destruct H as [E _]. rewrite E. exact Hlog.
    + exact (getConfig_emptied h w p e Hp Hpl force setConfig s file base Hf Hl).
    + intros c Hc.
      now rewrite (getConfig_emptied h w p e Hp Hpl force setConfig s file base Hf Hl).
    + intros rel e' Hg.
      destruct r1 as [config|e1].
      * destruct H as [E|[[E _]|[e'' [He'' E]]]]; rewrite E in Hg;
          try discriminate.
        injection Hg as ->. discriminate.
      * destruct H as [E _]. rewrite E in Hg. injection Hg as ->.
        destruct (resolveConfig_base_ok h w file base _ _ _ He Hl E1)
          as [H|[msg H]]; discriminate.
Qed.

Lemma C10_only_base_aborts_witness :
  (let msg := ConfigFileError ".umirc.js" (LoadError "SyntaxError") in
   let w := disk [("/app/.umirc.js", Throws "SyntaxError")] None None in
   snd (getConfig (example_host [owner "a"]) w true None (started (VObj [])))
   = Throw msg
   /\ In (PrintError msg)
        (trace (fst (getConfig (example_host [owner "a"]) w true None
                       (started (VObj []))))))
  /\ (let e := LoadError "SyntaxError: Unexpected token" in
      let h := example_host [owner "a"] in
      let w := broken_override_world in
      let w' := emptied broken_override_world "/app/.umirc.prod.js" in
      In (ConsoleError e) (trace (fst (getConfig h w true None (started (VObj [])))))
      /\ snd (getConfig h w true None (started (VObj [])))
         = snd (getConfig h w' true None (started (VObj [])))
      /\ (forall c, snd (getConfig h w' true None (started (VObj []))) = Ok c ->
                    snd (getConfig h w true None (started (VObj []))) = Ok c)
      /\ forall rel e',
           snd (getConfig h w true None (started (VObj [])))
           <> Throw (ConfigFileError rel e')).
Proof.
  split.
  - refine (proj1 (C10_only_base_aborts (example_host [owner "a"])
                     (disk [("/app/.umirc.js", Throws "SyntaxError")] None None)
                     true None "/app/.umirc.js" (started (VObj [])) eq_refl _)
              (LoadError "SyntaxError") eq_refl).
    discriminate.
  - refine (proj2 (C10_only_base_aborts (example_host [owner "a"])
                     broken_override_world true None "/app/.umirc.js"
                     (started (VObj [])) eq_refl _)
              (VObj [("a", VNum 1)]) "/app/.umirc.prod.js"
              (LoadError "SyntaxError: Unexpected token")
              eq_refl _ eq_refl eq_refl).
    + discriminate.
    + now left.
Defined.

(** * normalizeConfig on the heap and on trees *)

(** ** Property lists of the heap and of trees *)

Lemma reps_keys hp cs ts : reps hp cs ts -> h_keys cs = keys ts.
Proof. induction 1; simpl; congruence. Qed.

Lemma reps_lookup hp cs ts k :
  reps hp cs ts ->
  (h_lookup k cs = None /\ lookup k ts = None)
  \/ exists x t, h_lookup k cs = Some x /\ lookup k ts = Some t /\ rep hp x t.
Proof.
  induction 1 as [|k' x t cs ts Hx Hr IH]; simpl; [now left|].
  destruct (k =? k'); [right; now exists x, t | exact IH].
Qed.

Lemma reps_has hp cs ts k : reps hp cs ts -> h_has k cs = has k ts.
Proof.
  intros H. unfold h_has, has.
  destruct (reps_lookup hp cs ts k H) as [[-> ->]|[x [t [-> [-> _]]]]]; reflexivity.
Qed.

Lemma reps_In hp cs ts k x :
  reps hp cs ts -> In (k, x) cs -> exists t, In (k, t) ts /\ rep hp x t.
Proof.
  induction 1 as [|k' x' t cs ts Hx Hr IH]; simpl; [intros []|].
  intros [[= -> ->]|Hin].
  - exists t. split; [now left | exact Hx].
  - destruct (IH Hin) as [t' [Ht Hr']]. exists t'. split; [now right | exact Hr'].
Qed.

Lemma reps_update hp cs ts k x t :
  reps hp cs ts -> rep hp x t -> reps hp (h_update k x cs) (update k t ts).
Proof.
  intros H Hx. induction H as [|k' x' t' cs ts Hx' Hr IH]; simpl; [constructor|].
  destruct (k =? k'); constructor; assumption.
Qed.

Lemma reps_insert_new hp cs ts k x t :
  reps hp cs ts -> rep hp x t -> reps hp (h_insert_new k x cs) (insert_new k t ts).
Proof.
  intros H Hx. induction H as [|k' x' t' cs ts Hx' Hr IH]; simpl.
  - repeat constructor. exact Hx.
  - destruct (key_before k k'); repeat (constructor; try assumption).
Qed.

Lemma reps_put hp cs ts k x t :
  reps hp cs ts -> rep hp x t -> reps hp (h_put k x cs) (put k t ts).
Proof.
  intros H Hx. unfold h_put, put. rewrite (reps_has hp cs ts k H).
  destruct (has k ts); [now apply reps_update | now apply reps_insert_new].
Qed.

(** A list stays related when each of its values does. *)
Lemma reps_transport hp hp' cs ts :
  reps hp cs ts ->
  (forall k x t, In (k, x) cs -> rep hp x t -> rep hp' x t) ->
  reps hp' cs ts.
Proof.
  induction 1 as [|k x t cs ts Hx Hr IH]; intros Ht; constructor.
  - apply (Ht k); [now left | exact Hx].
  - apply IH. intros k' x' t' Hin. apply (Ht k'). now right.
Qed.

Lemma h_has_In k cs : h_has k cs = true <-> In k (h_keys cs).
Proof.
  unfold h_has. induction cs as [|[k' v] t IH]; simpl.
  - split; [discriminate | tauto].
  - destruct (String.eqb_spec k k') as [->|Hne].
    + split; auto.
    + rewrite IH. split; [auto | intros [H|H]; [congruence | exact H]].
Qed.

Lemma h_lookup_In k cs x : h_lookup k cs = Some x -> In (k, x) cs.
Proof.
  induction cs as [|[k' v] t IH]; simpl; [discriminate|].
  destruct (String.eqb_spec k k') as [->|Hne].
  - intros [= ->]. now left.
  - intros H. right. now apply IH.
Qed.

Lemma In_h_lookup k cs x : NoDup (h_keys cs) -> In (k, x) cs -> h_lookup k cs = Some x.
Proof.
  induction cs as [|[k' v] t IH]; simpl; [intros _ []|].
  intros Hd [[= -> ->]|Hin].
  - now rewrite String.eqb_refl.
  - inversion Hd as [|? ? Hn Hd']; subst.
    destruct (String.eqb_spec k k') as [->|Hne].
    + exfalso. apply Hn. apply (in_map fst) in Hin. exact Hin.
    + now apply IH.
Qed.

Lemma h_keys_update k x cs : h_keys (h_update k x cs) = h_keys cs.
Proof.
  induction cs as [|[k' v] t IH]; simpl; [reflexivity|].
  destruct (k =? k'); simpl; [reflexivity | now rewrite IH].
Qed.

Lemma h_lookup_update k x k' cs :
  h_lookup k' (h_update k x cs) =
  if k' =? k then (if h_has k cs then Some x else None) else h_lookup k' cs.
Proof.
  unfold h_has. induction cs as [|[k0 v0] t IH]; simpl.
  - now destruct (k' =? k).
  - destruct (String.eqb_spec k k0) as [->|Hne]; simpl.
    + destruct (String.eqb_spec k' k0) as [->|Hne']; reflexivity.
    + destruct (String.eqb_spec k' k0) as [->|Hne'].
      * apply String.eqb_neq in Hne. rewrite String.eqb_sym in Hne.
        now rewrite Hne.
      * exact IH.
Qed.

Lemma h_lookup_insert_new k x k' cs :
  h_has k cs = false ->
  h_lookup k' (h_insert_new k x cs) = if k' =? k then Some x else h_lookup k' cs.
Proof.
  unfold h_has. induction cs as [|[k0 v0] t IH]; simpl; intros Hk.
  - reflexivity.
  - destruct (String.eqb_spec k k0) as [->|Hne]; [discriminate|].
    destruct (key_before k k0); simpl.
    + reflexivity.
    + destruct (String.eqb_spec k' k0) as [->|Hne'].
      * apply String.eqb_neq in Hne. rewrite String.eqb_sym in Hne.
        now rewrite Hne.
      * now apply IH.
Qed.

Lemma h_lookup_put k x k' cs :
  h_lookup k' (h_put k x cs) = if k' =? k then Some x else h_lookup k' cs.
Proof.
  unfold h_put. destruct (h_has k cs) eqn:E.
  - rewrite h_lookup_update, E. reflexivity.
  - now apply h_lookup_insert_new.
Qed.

Lemma In_h_update k x cs k' x' :
  In (k', x') (h_update k x cs) -> (k' = k /\ x' = x) \/ In (k', x') cs.
Proof.
  induction cs as [|[k0 v0] t IH]; simpl; [tauto|].
  destruct (String.eqb_spec k k0) as [->|Hne].
  - intros [[= <- <-]|H]; [left; now split | right; now right].
  - intros [H|H]; [right; now left|].
    destruct (IH H) as [E|E]; [now left | right; now right].
Qed.

Lemma In_h_insert_new k x cs k' x' :
  In (k', x') (h_insert_new k x cs) -> (k' = k /\ x' = x) \/ In (k', x') cs.
Proof.
  induction cs as [|[k0 v0] t IH]; simpl.
  - intros [[= <- <-]|[]]. left. now split.
  - destruct (key_before k k0); simpl.
    + intros [[= <- <-]|H]; [left; now split | now right].
    + intros [H|H]; [right; now left|].
      destruct (IH H) as [E|E]; [now left | right; now right].
Qed.

Lemma In_h_put k x cs k' x' :
  In (k', x') (h_put k x cs) -> (k' = k /\ x' = x) \/ In (k', x') cs.
Proof.
  unfold h_put. destruct (h_has k cs); [apply In_h_update | apply In_h_insert_new].
Qed.

Lemma h_update_same k x cs : h_lookup k cs = Some x -> h_update k x cs = cs.
Proof.
  induction cs as [|[k' v'] t IH]; simpl; [reflexivity|].
  destruct (k =? k'); [intros [= ->]; reflexivity | intros H; now rewrite IH].
Qed.

Lemma h_put_present k x cs : h_has k cs = true -> h_put k x cs = h_update k x cs.
Proof. intros H. unfold h_put. now rewrite H. Qed.

(** One key changes its value, the other values are carried over to
    another heap. *)
Lemma reps_update_change hp hp' K cs ts x' t' :
  NoDup (h_keys cs) ->
  reps hp cs ts ->
  (forall k x t, In (k, x) cs -> k <> K -> rep hp x t -> rep hp' x t) ->
  rep hp' x' t' ->
  reps hp' (h_update K x' cs) (update K t' ts).
Proof.
  intros Hd H. induction H as [|k x t cs ts Hx Hr IH]; intros Ht Hx';
    simpl; [constructor|].
  inversion Hd as [|? ? Hn Hd']; subst.
  destruct (String.eqb_spec K k) as [->|Hne].
  - constructor; [exact Hx'|].
    apply (reps_transport hp); [exact Hr|].
    intros k' y t0 Hin. apply (Ht k'); [now right|].
    intros ->. apply Hn. apply (in_map fst) in Hin. exact Hin.
  - constructor.
    + apply (Ht k); [now left | congruence | exact Hx].
    + apply IH; [exact Hd' | | exact Hx'].
      intros k' y t0 Hin. apply (Ht k'). now right.
Qed.

(** ** Values *)

Lemma rep_ref_inv hp a t :
  rep hp (RRef a) t ->
  exists cs ts, t = VObj ts /\ nth_error hp a = Some cs /\ reps hp cs ts.
Proof. intros H. inversion H; subst. eauto. Qed.

Lemma rep_obj_inv hp v ts :
  rep hp v (VObj ts) ->
  exists a cs, v = RRef a /\ nth_error hp a = Some cs /\ reps hp cs ts.
Proof. intros H. inversion H; subst. eauto. Qed.

Lemma rep_prim hp hp' v t :
  (forall a, v <> RRef a) -> rep hp v t -> rep hp' v t.
Proof.
  intros Hv H. destruct H; try constructor. exfalso. now apply (Hv a).
Qed.

Lemma rep_truthy hp v t : rep hp v t -> r_truthy v = truthy t.
Proof. now destruct 1. Qed.

Lemma rep_nullish hp v t : rep hp v t -> r_nullish v = nullish t.
Proof. now destruct 1. Qed.

Lemma rep_typeof hp v t : rep hp v t -> r_typeof_object v = typeof_object t.
Proof. now destruct 1. Qed.

Lemma cells_of_Some hp a cs : nth_error hp a = Some cs -> cells_of hp a = cs.
Proof. intros H. unfold cells_of. now rewrite H. Qed.

Lemma reps_string hp s : forall i, reps hp (string_cells i s) (string_entries i s).
Proof.
  induction s as [|c s IH]; intros i; simpl; constructor; [constructor | apply IH].
Qed.

Lemma rep_own_entries hp v t :
  rep hp v t -> reps hp (h_own_entries hp v) (own_entries t).
Proof.
  destruct 1 as [| | | | |a cs ts Ha Hr]; simpl; try constructor.
  - apply reps_string.
  - now rewrite (cells_of_Some _ _ _ Ha).
Qed.

Lemma rep_member hp v t k : rep hp v t -> rep hp (h_member hp v k) (member t k).
Proof.
  intros H.
  assert (G : forall cs ts, reps hp cs ts ->
    rep hp match h_lookup k cs with Some x => x | None => RUndef end
           match lookup k ts with Some x => x | None => VUndef end).
  { intros cs ts Hr.
    destruct (reps_lookup hp cs ts k Hr) as [[-> ->]|[x [t' [-> [-> Hx]]]]];
      [constructor | exact Hx]. }
  destruct H as [| | | |s|a cs ts Ha Hr]; simpl; try constructor.
  - destruct (k =? "length"); [constructor|]. apply G, reps_string.
  - rewrite (cells_of_Some _ _ _ Ha). now apply G.
Qed.

Lemma rep_get_prop hp v t k :
  rep hp v t ->
  match get_prop t k with
  | Ok t' => exists x, h_get_prop hp v k = Ok x /\ rep hp x t'
  | Throw e => h_get_prop hp v k = Throw e
  end.
Proof.
  intros H. unfold get_prop, h_get_prop. rewrite (rep_nullish hp v t H).
  destruct (nullish t); [reflexivity|].
  eexists. split; [reflexivity | now apply rep_member].
Qed.

Lemma rep_Object_keys hp v t :
  rep hp v t ->
  match Object_keys t with
  | Ok ks => h_Object_keys hp v = Ok ks
  | Throw e => h_Object_keys hp v = Throw e
  end.
Proof.
  intros H. unfold Object_keys, h_Object_keys. rewrite (rep_nullish hp v t H).
  destruct (nullish t); [reflexivity|].
  now rewrite (reps_keys hp _ _ (rep_own_entries hp v t H)).
Qed.

Lemma rep_spread hp v t : rep hp v t ->
  forall acc acct, reps hp acc acct -> reps hp (h_spread hp acc v) (spread acct t).
Proof.
  intros H. unfold h_spread, spread.
  rewrite (reps_keys hp _ _ (rep_own_entries hp v t H)).
  induction (keys (own_entries t)) as [|k ks IH]; intros acc acct Ha; simpl;
    [exact Ha|].
  apply IH. apply reps_put; [exact Ha | now apply rep_member].
Qed.

Lemma rep_htmlSuffix hp v t : rep hp v t -> h_htmlSuffix_of hp v = htmlSuffix_of t.
Proof.
  intros H. unfold h_htmlSuffix_of, htmlSuffix_of.
  pose proof (rep_member hp v t "exportStatic" H) as He.
  rewrite (rep_truthy _ _ _ He), (rep_typeof _ _ _ He).
  now rewrite (rep_truthy _ _ _ (rep_member hp _ _ "htmlSuffix" He)).
Qed.

Lemma rep_or hp a b ta tb :
  rep hp a ta -> rep hp b tb -> rep hp (r_or a b) (js_or ta tb).
Proof.
  intros Ha Hb. unfold r_or, js_or. rewrite (rep_truthy _ _ _ Ha).
  now destruct (truthy ta).
Qed.

(** [rep] reads a tree, and one tree only. *)
Lemma rep_fun hp : forall v t, rep hp v t -> forall t', rep hp v t' -> t = t'.
Proof.
  apply (rep_reps_ind hp
           (fun v t => forall t', rep hp v t' -> t = t')
           (fun cs ts => forall ts', reps hp cs ts' -> ts = ts')).
  - intros t' H. now inversion H.
  - intros t' H. now inversion H.
  - intros b t' H. now inversion H.
  - intros n t' H. now inversion H.
  - intros s t' H. now inversion H.
  - intros a cs ts Ha _ IH t' H. inversion H as [| | | | |? cs' ts' Ha' Hr']; subst.
    rewrite Ha in Ha'. injection Ha' as <-. f_equal. now apply IH.
  - intros ts' H. now inversion H.
  - intros k x t cs ts _ IHx _ IHr ts' H.
    inversion H as [|? ? t0 ? ts0 Hx Hr]; subst. f_equal.
    + f_equal. now apply IHx.
    + now apply IHr.
Qed.

(** ** What a write leaves alone *)

Lemma reach_member hp a cs k x b :
  nth_error hp a = Some cs -> In (k, x) cs -> reach hp x b -> reach hp (RRef a) b.
Proof. intros. eapply reach_step; eassumption. Qed.

Lemma rep_frame hp hp' : forall v t,
  rep hp v t ->
  (forall b, reach hp v b -> nth_error hp' b = nth_error hp b) ->
  rep hp' v t.
Proof.
  apply (rep_reps_ind hp
           (fun v t => (forall b, reach hp v b -> nth_error hp' b = nth_error hp b) ->
                       rep hp' v t)
           (fun cs ts => (forall k x b, In (k, x) cs -> reach hp x b ->
                                        nth_error hp' b = nth_error hp b) ->
                         reps hp' cs ts)); try (intros; constructor).
  - intros a cs ts Ha _ IH Hf. apply (rep_ref hp' a cs).
    + rewrite Hf; [exact Ha | constructor].
    + apply IH. intros k x b Hin Hr. apply Hf. eapply reach_step; eassumption.
  - match goal with H : _ |- _ => apply H end.
    intros b Hb. match goal with H : forall k x b, _ |- _ => apply (H k x) end;
      [now left | exact Hb].
  - match goal with H : (forall k x b, In (k, x) cs -> _) -> _ |- _ => apply H end.
    intros k' x' b Hin Hb.
    match goal with H : forall k x b, In _ (_ :: _) -> _ |- _ => apply (H k' x') end;
      [now right | exact Hb].
Qed.

Lemma reach_frame hp hp' v a :
  (forall b, reach hp v b -> nth_error hp' b = nth_error hp b) ->
  reach hp' v a -> reach hp v a.
Proof.
  intros Hf H. induction H as [a|a cs k x b Ha Hin Hr IH].
  - constructor.
  - rewrite Hf in Ha by constructor.
    eapply reach_step; [exact Ha | exact Hin|].
    apply IH. intros b' Hb'. apply Hf. eapply reach_step; eassumption.
Qed.

Lemma reach_allocated hp v b : reach hp v b -> forall t, rep hp v t -> b < List.length hp.
Proof.
  induction 1 as [a|a cs k x b Ha Hin Hr IH]; intros t Hrep.
  - destruct (rep_ref_inv _ _ _ Hrep) as [cs [ts [_ [Ha _]]]].
    apply nth_error_Some. congruence.
  - destruct (rep_ref_inv _ _ _ Hrep) as [cs' [ts [_ [Ha' Hreps]]]].
    rewrite Ha in Ha'. injection Ha' as <-.
    destruct (reps_In _ _ _ _ _ Hreps Hin) as [t' [_ Hx]].
    now apply (IH t').
Qed.

(** ** Writing and allocating *)

Lemma length_write a cs hp : List.length (write a cs hp) = List.length hp.
Proof.
  revert a. induction hp as [|c hp IH]; intros [|a]; simpl; try reflexivity.
  now rewrite IH.
Qed.

Lemma nth_error_write_same a cs hp :
  a < List.length hp -> nth_error (write a cs hp) a = Some cs.
Proof.
  revert a. induction hp as [|c hp IH]; intros [|a]; simpl; try lia.
  - reflexivity.
  - intros H. apply IH. lia.
Qed.

Lemma nth_error_write_other a cs hp b :
  a <> b -> nth_error (write a cs hp) b = nth_error hp b.
Proof.
  revert a b. induction hp as [|c hp IH]; intros [|a] [|b] H; simpl;
    try reflexivity; try congruence.
  apply IH. congruence.
Qed.

Lemma write_write a cs cs' hp : write a cs (write a cs' hp) = write a cs hp.
Proof.
  revert a. induction hp as [|c hp IH]; intros [|a]; simpl; try reflexivity.
  now rewrite IH.
Qed.

Lemma nth_error_alloc_old (hp : heap) cs b :
  b < List.length hp -> nth_error (hp ++ [cs])%list b = nth_error hp b.
Proof. intros H. now apply nth_error_app1. Qed.

Lemma nth_error_alloc_new (hp : heap) cs :
  nth_error (hp ++ [cs])%list (List.length hp) = Some cs.
Proof. rewrite nth_error_app2 by lia. now rewrite Nat.sub_diag. Qed.

Lemma In_refs a vs : In a (refs vs) <-> In (RRef a) vs.
Proof.
  unfold refs. rewrite in_flat_map. split.
  - intros [v [Hv Ha]]. destruct v as [| | | | |a']; simpl in Ha; try contradiction.
    destruct Ha as [<-|[]]. exact Hv.
  - intros H. exists (RRef a). split; [exact H | now left].
Qed.

Lemma reach_prim hp v b : reach hp v b -> exists a, v = RRef a.
Proof. destruct 1; eauto. Qed.

(** ** The configuration at address c *)

Section Pass.

Variable c : nat.

Lemma kept_member hp k x :
  In (k, x) (cells_of hp c) -> k <> "pages" -> In x (kept hp (RRef c)).
Proof.
  intros Hin Hk. unfold kept. apply in_or_app. left.
  apply in_map_iff. exists (k, x). split; [reflexivity|].
  apply filter_In. split; [exact Hin|]. simpl.
  apply String.eqb_neq in Hk. now rewrite Hk.
Qed.

Lemma kept_page_member hp a k y :
  In (RRef a) (page_values hp (RRef c)) -> In (k, y) (cells_of hp a) ->
  In y (kept hp (RRef c)).
Proof.
  intros Hp Hin. unfold kept. apply in_or_app. right.
  apply in_flat_map. exists (RRef a). split; [exact Hp|].
  apply in_map_iff. now exists (k, y).
Qed.

Lemma page_value_rep hp cfg y :
  rep hp (RRef c) cfg -> In y (page_values hp (RRef c)) -> exists t, rep hp y t.
Proof.
  intros Hrep Hin. unfold page_values in Hin.
  apply in_map_iff in Hin. destruct Hin as [[k y'] [E Hin]]. simpl in E. subst y'.
  pose proof (rep_own_entries _ _ _ (rep_member hp _ _ "pages" Hrep)) as Hr.
  destruct (reps_In _ _ _ _ _ Hr Hin) as [t [_ Ht]]. now exists t.
Qed.

Lemma kept_rep hp cfg x :
  rep hp (RRef c) cfg -> In x (kept hp (RRef c)) -> exists t, rep hp x t.
Proof.
  intros Hrep Hin. unfold kept in Hin. apply in_app_or in Hin.
  destruct Hin as [Hin|Hin].
  - apply in_map_iff in Hin. destruct Hin as [[k x'] [E Hin]]. simpl in E. subst x'.
    apply filter_In in Hin. destruct Hin as [Hin _].
    pose proof (rep_own_entries _ _ _ Hrep) as Hr.
    destruct (reps_In _ _ _ _ _ Hr Hin) as [t [_ Ht]]. now exists t.
  - apply in_flat_map in Hin. destruct Hin as [p [Hp Hin]].
    destruct p as [| | | | |a]; simpl in Hin; try contradiction.
    destruct (page_value_rep hp cfg _ Hrep Hp) as [t Ht].
    destruct (rep_ref_inv _ _ _ Ht) as [cs [ts [_ [Ha Hr]]]].
    rewrite (cells_of_Some _ _ _ Ha) in Hin.
    apply in_map_iff in Hin. destruct Hin as [[k x'] [E Hin]]. simpl in E. subst x'.
    destruct (reps_In _ _ _ _ _ Hr Hin) as [t' [_ Ht']]. now exists t'.
Qed.

(** What is only read refers to nothing that is written. *)
Lemma kept_good hp cfg x b :
  inv c hp cfg -> In x (kept hp (RRef c)) -> reach hp x b ->
  b < List.length hp /\ b <> c /\ ~ In b (refs (page_values hp (RRef c))).
Proof.
  intros [Hrep Hsep] Hin Hr.
  destruct (kept_rep hp cfg x Hrep Hin) as [t Ht].
  split; [eapply reach_allocated; eassumption|].
  destruct Hsep as (_ & _ & _ & _ & _ & Hk).
  split.
  - intros ->. apply (Hk x c Hin); [now left | exact Hr].
  - intros Hb. apply (Hk x b Hin); [now right | exact Hr].
Qed.

(** From a page only the page itself is written. *)
Lemma page_reach hp cfg y b :
  inv c hp cfg -> In y (page_values hp (RRef c)) -> reach hp y b ->
  b < List.length hp
  /\ (y = RRef b \/ (b <> c /\ ~ In b (refs (page_values hp (RRef c))))).
Proof.
  intros Hinv Hin Hr.
  destruct (page_value_rep hp cfg y (proj1 Hinv) Hin) as [t Ht].
  split; [eapply reach_allocated; eassumption|].
  inversion Hr as [a|a cs k x b' Ha Hx Hr']; subst; [now left|].
  right. apply (kept_good hp cfg x b Hinv); [|exact Hr'].
  apply (kept_page_member hp a k); [exact Hin|].
  now rewrite (cells_of_Some _ _ _ Ha).
Qed.

End Pass.

Lemma In_h_spread hp v : forall acc k y,
  In (k, y) (h_spread hp acc v) -> In (k, y) acc \/ y = h_member hp v k.
Proof.
  unfold h_spread. induction (h_keys (h_own_entries hp v)) as [|k0 ks IH];
    intros acc k y; simpl; [now left|].
  intros H. destruct (IH _ _ _ H) as [H'|H']; [|now right].
  destruct (In_h_put _ _ _ _ _ H') as [[-> ->]|H'']; [now right | now left].
Qed.

Lemma propagate_context_eq cfg key :
  nullish cfg = false -> nullish (member cfg "pages") = false ->
  propagate_context cfg key
  = (page_context <- get_prop (member (member cfg "pages") key) "context" ;;
     page' <- set_prop (member (member cfg "pages") key) "context"
                (VObj (spread (spread [] (member cfg "context")) page_context)) ;;
     pages' <- set_prop (member cfg "pages") key page' ;;
     set_prop cfg "pages" pages').
Proof.
  intros Hc Hp. unfold propagate_context, get_prop. rewrite Hc. cbn [rbind].
  rewrite Hp. reflexivity.
Qed.

Lemma h_propagate_context_eq hp cfg key :
  r_nullish cfg = false -> r_nullish (h_member hp cfg "pages") = false ->
  h_propagate_context cfg hp key
  = (page_context <- h_get_prop hp (h_member hp (h_member hp cfg "pages") key)
                       "context" ;;
     h_set_prop
       (hp ++ [h_spread hp (h_spread hp [] (h_member hp cfg "context")) page_context])%list
       (h_member hp (h_member hp cfg "pages") key) "context"
       (RRef (List.length hp))).
Proof.
  intros Hc Hp. unfold h_propagate_context, h_get_prop. rewrite Hc. cbn [rbind].
  rewrite Hp. reflexivity.
Qed.

Section Loop1.

Variable c : nat.

Lemma safe_prim hp y : (forall a, y <> RRef a) -> safe c hp y.
Proof. intros H b Hb. destruct (reach_prim _ _ _ Hb) as [a ->]. now destruct (H a). Qed.

Lemma safe_member hp v k : safe c hp v -> safe c hp (h_member hp v k).
Proof.
  intros Hv. destruct v as [| | | |s|a]; try (apply safe_prim; simpl; discriminate).
  - apply safe_prim. intros a. simpl.
    destruct (k =? "length"); [discriminate|].
    destruct (h_lookup k (string_cells 0 s)) as [y|] eqn:E; [|discriminate].
    apply h_lookup_In in E. clear -E. revert E. generalize 0%N.
    induction s as [|ch s IH]; intros i; simpl; [intros []|].
    intros [[= _ <-]|H]; [discriminate | now apply (IH (N.succ i))].
  - simpl. unfold cells_of. destruct (nth_error hp a) as [cs|] eqn:Ha;
      [|apply safe_prim; simpl; discriminate].
    destruct (h_lookup k cs) as [y|] eqn:E; [|apply safe_prim; discriminate].
    intros b Hb. apply Hv. eapply reach_step; [exact Ha | |exact Hb].
    eapply h_lookup_In. exact E.
Qed.

Lemma separated_transfer hp hp' :
  separated hp (RRef c) ->
  cells_of hp' c = cells_of hp c ->
  h_own_entries hp' (h_member hp (RRef c) "pages")
  = h_own_entries hp (h_member hp (RRef c) "pages") ->
  (forall x a,
      In x (kept hp' (RRef c)) ->
      In a (c :: refs (page_values hp (RRef c))) ->
      ~ reach hp' x a) ->
  separated hp' (RRef c).
Proof.
  intros Hsep Ec Ep Hk.
  assert (Eg : h_member hp' (RRef c) "pages" = h_member hp (RRef c) "pages").
  { unfold h_member. cbn [h_own_entries]. now rewrite Ec. }
  assert (Ev : page_values hp' (RRef c) = page_values hp (RRef c)).
  { unfold page_values. now rewrite Eg, Ep. }
  unfold separated in *. cbv zeta in *. rewrite Ec, Eg, Ep, Ev.
  destruct Hsep as (H1 & H2 & H3 & H4 & H5 & _).
  split; [exact H1|]. split; [exact H2|]. split; [exact H3|].
  split; [exact H4|]. split; [exact H5 | exact Hk].
Qed.

Lemma propagate_step hp cfg key :
  inv c hp cfg ->
  In key (h_keys (h_own_entries hp (h_member hp (RRef c) "pages"))) ->
  match propagate_context cfg key with
  | Ok cfg' =>
      exists hp',
        h_propagate_context (RRef c) hp key = Ok hp'
        /\ inv c hp' cfg'
        /\ cells_of hp' c = cells_of hp c
        /\ h_own_entries hp' (h_member hp (RRef c) "pages")
           = h_own_entries hp (h_member hp (RRef c) "pages")
  | Throw e => h_propagate_context (RRef c) hp key = Throw e
  end.
Proof.
  intros Hinv Hkey. pose proof Hinv as [Hrep Hsep].
  destruct (rep_ref_inv _ _ _ Hrep) as [cs [cst [-> [Hc Hcs]]]].
  pose proof (cells_of_Some _ _ _ Hc) as Ecs.
  pose proof (rep_member hp _ _ "pages" Hrep) as Hpg.
  pose proof (rep_member hp _ _ "context" Hrep) as Hctx.
  pose proof (rep_member hp _ _ key Hpg) as Hx.
  assert (Hnp : r_nullish (h_member hp (RRef c) "pages") = false).
  { destruct (h_member hp (RRef c) "pages"); try reflexivity; simpl in Hkey;
      contradiction. }
  rewrite propagate_context_eq;
    [|reflexivity | now rewrite <- (rep_nullish _ _ _ Hpg)].
  rewrite h_propagate_context_eq; [|reflexivity | exact Hnp].
  set (pages := h_member hp (RRef c) "pages") in *.
  set (pages_t := member (VObj cst) "pages") in *.
  set (ctx := h_member hp (RRef c) "context") in *.
  set (ctx_t := member (VObj cst) "context") in *.
  remember (h_member hp pages key) as x eqn:Ex.
  remember (member pages_t key) as page_t eqn:Et.
  pose proof (rep_get_prop hp x page_t "context" Hx) as Hown.
  destruct (get_prop page_t "context") as [own_t|e] eqn:Eown;
    [|rewrite Hown; reflexivity].
  destruct Hown as [own [Eo Hown]]. rewrite Eo. cbn [rbind].
  pose proof (rep_spread hp own own_t Hown _ _
                (rep_spread hp ctx ctx_t Hctx _ _ (reps_nil hp))) as Hm.
  set (merged := h_spread hp (h_spread hp [] ctx) own) in *.
  set (merged_t := spread (spread [] ctx_t) own_t) in *.
  destruct Hx as [| | | | |p pc q Hp Hpc]; try reflexivity.
  (* the page is an object *)
  assert (HP : exists P, pages = RRef P).
  { clear -Ex. destruct pages as [| | | |s|P]; try discriminate; [|eauto].
    exfalso. simpl in *. destruct (key =? "length"); [discriminate|].
    destruct (h_lookup key (string_cells 0 s)) as [y|] eqn:E; [|discriminate].
    subst y. apply h_lookup_In in E. revert E. generalize 0%N.
    induction s as [|ch s IH]; intros i; simpl; [intros []|].
    intros [[= _]|H]; now apply (IH (N.succ i)). }
  destruct HP as [P HP].
  assert (Hpg' : rep hp (RRef P) pages_t) by (rewrite <- HP; exact Hpg).
  destruct (rep_ref_inv _ _ _ Hpg') as [pcs [pts [Ept [HPn Hpcs]]]].
  pose proof (cells_of_Some _ _ _ HPn) as Epcs.
  pose proof (cells_of_Some _ _ _ Hp) as Epc.
  assert (Eoe : h_own_entries hp pages = pcs) by (rewrite HP; exact Epcs).
  assert (Hlk : h_lookup key pcs = Some (RRef p)).
  { rewrite HP in Ex. simpl in Ex. rewrite Epcs in Ex.
    destruct (h_lookup key pcs) as [y|]; [now subst y | discriminate]. }
  assert (Hkt : In key (keys pts)).
  { rewrite <- (reps_keys _ _ _ Hpcs), <- Eoe. exact Hkey. }
  assert (Hpt : In "pages" (keys cst)).
  { rewrite <- (reps_keys _ _ _ Hcs). apply h_has_In. unfold h_has.
    assert (E : h_member hp (RRef c) "pages" = RRef P) by exact HP.
    simpl in E. rewrite Ecs in E.
    destruct (h_lookup "pages" cs); [reflexivity | discriminate]. }
  assert (HlP : h_lookup "pages" cs = Some (RRef P)).
  { assert (E : h_member hp (RRef c) "pages" = RRef P) by exact HP.
    simpl in E. rewrite Ecs in E.
    destruct (h_lookup "pages" cs) as [y|]; [now subst y | discriminate]. }
  assert (Eow : own = h_member hp (RRef p) "context").
  { unfold h_get_prop in Eo. simpl in Eo. now injection Eo as <-. }
  assert (Hpv : In (RRef p) (page_values hp (RRef c))).
  { unfold page_values. fold pages. rewrite Eoe.
    apply in_map_iff. exists (key, RRef p). split; [reflexivity|].
    now apply h_lookup_In. }
  pose proof Hsep as Hsep'. unfold separated in Hsep'. cbv zeta in Hsep'.
  fold pages in Hsep'. rewrite Ecs, Eoe in Hsep'.
  destruct Hsep' as (N1 & N2 & Inj & Hcn & HPp & Hk).
  assert (Hlp : p < List.length hp) by (apply nth_error_Some; congruence).
  assert (HlP' : P < List.length hp) by (apply nth_error_Some; congruence).
  assert (Hlc : c < List.length hp) by (apply nth_error_Some; congruence).
  assert (Hpc' : p <> c).
  { intros ->. apply Hcn. apply In_refs. right. exact Hpv. }
  assert (HPc : P <> c).
  { intros ->. apply Hcn. apply In_refs. left. exact HP. }
  assert (HPp' : P <> p).
  { intros ->. apply (HPp p HP). now apply In_refs. }
  cbn [set_prop rbind]. rewrite Ept. cbn [set_prop rbind].
  rewrite (put_present key) by exact Hkt.
  rewrite (put_present "pages") by exact Hpt.
  set (o := List.length hp).
  set (hp' := write p (h_put "context" (RRef o) pc) (hp ++ [merged])%list).
  assert (A1 : forall b, b < List.length hp -> b <> p ->
                         nth_error hp' b = nth_error hp b).
  { intros b Hb Hbp. unfold hp'. rewrite nth_error_write_other by congruence.
    now apply nth_error_alloc_old. }
  assert (A2 : nth_error hp' p = Some (h_put "context" (RRef o) pc)).
  { unfold hp'. apply nth_error_write_same. rewrite length_app. simpl. lia. }
  assert (A3 : nth_error hp' o = Some merged).
  { unfold hp'. rewrite nth_error_write_other by (unfold o; lia).
    apply nth_error_alloc_new. }
  assert (Ec' : cells_of hp' c = cells_of hp c).
  { unfold cells_of. rewrite A1; [reflexivity | exact Hlc | congruence]. }
  assert (Ep' : h_own_entries hp' pages = h_own_entries hp pages).
  { rewrite HP. simpl. unfold cells_of. rewrite A1; [reflexivity | exact HlP' | exact HPp']. }
  (* what is only read is as it was *)
  assert (Tsafe : forall y, safe c hp y ->
            (forall t, rep hp y t -> rep hp' y t)
            /\ (forall b, reach hp' y b -> reach hp y b)).
  { intros y Hy.
    assert (F : forall b, reach hp y b -> nth_error hp' b = nth_error hp b).
    { intros b Hb. destruct (Hy b Hb) as (B1 & _ & B3).
      apply A1; [exact B1|]. intros ->. apply B3. now apply In_refs. }
    split.
    - intros t Ht. now apply (rep_frame hp hp' y t).
    - intros b. now apply reach_frame. }
  assert (Skept : forall y, In y (kept hp (RRef c)) -> safe c hp y).
  { intros y Hy b Hb. exact (kept_good c hp _ y b Hinv Hy Hb). }
  assert (Sctx : safe c hp ctx).
  { unfold ctx. simpl. rewrite Ecs.
    destruct (h_lookup "context" cs) as [y|] eqn:E;
      [|apply safe_prim; discriminate].
    apply Skept. apply (kept_member c hp "context");
      [rewrite Ecs; now apply h_lookup_In | discriminate]. }
  assert (Sown : safe c hp own).
  { rewrite Eow. simpl. rewrite Epc.
    destruct (h_lookup "context" pc) as [y|] eqn:E;
      [|apply safe_prim; discriminate].
    apply Skept. apply (kept_page_member c hp p "context"); [exact Hpv|].
    rewrite Epc. now apply h_lookup_In. }
  assert (Smerged : forall k y, In (k, y) merged -> safe c hp y).
  { intros k y Hin. unfold merged in Hin.
    destruct (In_h_spread _ _ _ _ _ Hin) as [Hin' | ->]; [|now apply safe_member].
    destruct (In_h_spread _ _ _ _ _ Hin') as [[] | ->]. now apply safe_member. }
  exists hp'. split.
  { unfold h_set_prop. unfold cells_of at 1.
    rewrite nth_error_alloc_old by exact Hlp. rewrite Hp. reflexivity. }
  split; [|split; [exact Ec' | exact Ep']].
  split.
  - (* the tree *)
    apply (rep_ref hp' c cs); [rewrite A1; [exact Hc | exact Hlc | congruence]|].
    rewrite <- (h_update_same "pages" (RRef P) cs HlP) at 1.
    apply (reps_update_change hp hp'); [exact N1 | exact Hcs | |].
    { intros k y t Hin Hkp Ht. apply (Tsafe y); [|exact Ht].
      apply Skept. apply (kept_member c hp k); [now rewrite Ecs | exact Hkp]. }
    apply (rep_ref hp' P pcs); [rewrite A1; [exact HPn | exact HlP' | exact HPp']|].
    rewrite <- (h_update_same key (RRef p) pcs Hlk) at 1.
    apply (reps_update_change hp hp'); [exact N2 | exact Hpcs | |].
    { intros k y t Hin Hkk Ht.
      apply (rep_frame hp hp' y t Ht). intros b Hb.
      assert (Hyv : In y (page_values hp (RRef c))).
      { unfold page_values. fold pages. rewrite Eoe.
        apply in_map_iff. now exists (k, y). }
      destruct (page_reach c hp _ y b Hinv Hyv Hb) as [B1 [-> | [_ B3]]].
      - apply A1; [exact B1|]. intros ->. apply Hkk.
        apply (Inj k key p); [now apply In_h_lookup | exact Hlk].
      - apply A1; [exact B1|]. intros ->. apply B3. now apply In_refs. }
    apply (rep_ref hp' p _ _ A2).
    apply reps_put.
    + apply (reps_transport hp); [exact Hpc|].
      intros k y t Hin Ht. apply (Tsafe y); [|exact Ht].
      apply Skept. apply (kept_page_member c hp p k); [exact Hpv | now rewrite Epc].
    + apply (rep_ref hp' o _ _ A3).
      apply (reps_transport hp); [exact Hm|].
      intros k y t Hin Ht. apply (Tsafe y); [|exact Ht]. now apply (Smerged k).
  - (* nothing written is shared *)
    apply (separated_transfer hp hp' Hsep Ec' Ep').
    intros y a Hy Ha Hr.
    assert (Hold : In y (kept hp (RRef c)) \/ y = RRef o).
    { unfold kept in Hy |- *. apply in_app_or in Hy. destruct Hy as [Hy|Hy].
      - left. apply in_or_app. left.
        change (h_own_entries hp' (RRef c)) with (cells_of hp' c) in Hy.
        now rewrite Ec' in Hy.
      - assert (Ev : page_values hp' (RRef c) = page_values hp (RRef c)).
        { unfold page_values.
          assert (Eg : h_member hp' (RRef c) "pages" = pages).
          { unfold pages, h_member. cbn [h_own_entries]. now rewrite Ec'. }
          rewrite Eg. fold pages. now rewrite Ep'. }
        rewrite Ev in Hy. apply in_flat_map in Hy. destruct Hy as [pv [Hpv' Hy]].
        destruct pv as [| | | | |a']; simpl in Hy; try contradiction.
        destruct (Nat.eq_dec a' p) as [-> | Hne].
        + unfold cells_of in Hy. rewrite A2 in Hy.
          apply in_map_iff in Hy. destruct Hy as [[k y'] [E Hy]]. simpl in E. subst y'.
          destruct (In_h_put _ _ _ _ _ Hy) as [[_ ->]|Hy']; [now right|].
          left. apply (kept_page_member c hp p k); [exact Hpv | now rewrite Epc].
        + left. apply in_or_app. right. apply in_flat_map.
          exists (RRef a'). split; [exact Hpv'|].
          assert (Ha' : a' < List.length hp).
          { destruct (page_value_rep c hp _ _ Hrep Hpv') as [t Ht].
            destruct (rep_ref_inv _ _ _ Ht) as [? [? [_ [Hn _]]]].
            apply nth_error_Some. congruence. }
          unfold cells_of in Hy |- *. rewrite A1 in Hy by assumption. exact Hy. }
    
    destruct Hold as [Hy' | ->].
    + apply (Hk y a Hy' Ha). now apply (Tsafe y (Skept y Hy')).
    + assert (Hao : a <> o).
      { destruct Ha as [<-|Ha]; [unfold o; lia|].
        apply In_refs in Ha.
        destruct (page_value_rep c hp _ _ Hrep Ha) as [t Ht].
        destruct (rep_ref_inv _ _ _ Ht) as [? [? [_ [Hn _]]]].
        assert (a < List.length hp) by (apply nth_error_Some; congruence).
        unfold o. lia. }
      inversion Hr as [?|? cs0 k y b Ho Hin Hr']; subst; [congruence|].
      rewrite A3 in Ho. injection Ho as <-.
      pose proof (Smerged k y Hin) as Sy.
      apply (Tsafe y Sy) in Hr'. destruct (Sy a Hr') as (_ & B2 & B3).
      destruct Ha as [<-|Ha]; [congruence | contradiction].
Qed.

End Loop1.

Lemma h_member_ref hp v k a :
  h_member hp v k = RRef a -> h_lookup k (h_own_entries hp v) = Some (RRef a).
Proof.
  destruct v as [| | | |s|b]; simpl; try discriminate.
  - destruct (k =? "length"); [discriminate|].
    destruct (h_lookup k (string_cells 0 s)) as [y|]; [now intros -> | discriminate].
  - destruct (h_lookup k (cells_of hp b)) as [y|]; [now intros -> | discriminate].
Qed.

Lemma h_member_same hp hp' v k :
  (forall a, v = RRef a -> cells_of hp' a = cells_of hp a) ->
  h_member hp' v k = h_member hp v k.
Proof.
  intros H. destruct v as [| | | |s|a]; try reflexivity.
  simpl. now rewrite (H a eq_refl).
Qed.

Lemma write_last (hp : heap) cs cs' :
  write (List.length hp) cs (hp ++ [cs'])%list = (hp ++ [cs])%list.
Proof. induction hp as [|c hp IH]; simpl; [reflexivity | now rewrite IH]. Qed.

Lemma put_keys_NoDup k (v : value) ps : NoDup (keys ps) -> NoDup (keys (put k v ps)).
Proof. intros H. rewrite keys_put_enum. now apply enum_put_NoDup. Qed.

Section Loops.

Variable c : nat.

Lemma propagate_loop : forall ks hp cfg,
  inv c hp cfg ->
  incl ks (h_keys (h_own_entries hp (h_member hp (RRef c) "pages"))) ->
  match foldM propagate_context ks cfg with
  | Ok cfg' =>
      exists hp',
        foldM (h_propagate_context (RRef c)) ks hp = Ok hp' /\ inv c hp' cfg'
  | Throw e => foldM (h_propagate_context (RRef c)) ks hp = Throw e
  end.
Proof.
  induction ks as [|key ks IH]; intros hp cfg Hinv Hks; simpl.
  - exists hp. now split.
  - pose proof (propagate_step c hp cfg key Hinv (Hks key (or_introl eq_refl))) as Hs.
    destruct (propagate_context cfg key) as [cfg1|e]; cbn [rbind];
      [|rewrite Hs; reflexivity].
    destruct Hs as [hp1 [E1 [Hinv1 [Ec Ep]]]]. rewrite E1. cbn [rbind].
    apply IH; [exact Hinv1|].
    assert (Eg : h_member hp1 (RRef c) "pages" = h_member hp (RRef c) "pages").
    { unfold h_member. cbn [h_own_entries]. now rewrite Ec. }
    rewrite Eg, Ep. intros k Hk. apply Hks. now right.
Qed.

(** *** The second loop *)

Variable hp1 : heap.
Variable cst : props.
Variable hs : bool.

Hypothesis Hinv : inv c hp1 (VObj cst).
Hypothesis Hpages : r_truthy (h_member hp1 (RRef c) "pages") = true.

Let pages := h_member hp1 (RRef c) "pages".
Let m := List.length hp1.
Let hpA : heap := (hp1 ++ [[]])%list.

Lemma c_allocated : c < List.length hp1.
Proof.
  destruct Hinv as [Hrep _]. destruct (rep_ref_inv _ _ _ Hrep) as [cs [ts [_ [Hc _]]]].
  apply nth_error_Some. congruence.
Qed.

Lemma pages_allocated P : pages = RRef P -> P < List.length hp1.
Proof.
  intros HP. destruct Hinv as [Hrep _].
  pose proof (rep_member hp1 _ _ "pages" Hrep) as Hpg. fold pages in Hpg.
  rewrite HP in Hpg. destruct (rep_ref_inv _ _ _ Hpg) as [cs [ts [_ [Hc _]]]].
  apply nth_error_Some. congruence.
Qed.

Lemma rekey_loop : forall ks mc memo,
  rekeying c hp1 hs mc memo ->
  exists mc' memo',
    foldM (rekey (VObj cst) hs) ks memo = Ok memo'
    /\ foldM (h_rekey (RRef c) hs m) ks (write m mc hpA) = Ok (write m mc' hpA)
    /\ rekeying c hp1 hs mc' memo'.
Proof.
  pose proof c_allocated as Hlc.
  assert (Hnp : r_nullish pages = false).
  { unfold pages. destruct (h_member hp1 (RRef c) "pages"); try reflexivity;
      discriminate. }
  destruct Hinv as [Hrep Hsep].
  pose proof (rep_member hp1 _ _ "pages" Hrep) as Hpg. fold pages in Hpg.
  induction ks as [|key ks IH]; intros mc memo HJ; simpl.
  - exists mc, memo. now split.
  - destruct HJ as (J1 & J2 & J3 & J4).
    set (x := h_member hp1 pages key).
    set (page_t := member (member (VObj cst) "pages") key).
    assert (Hx : rep hp1 x page_t) by (apply rep_member; exact Hpg).
    assert (Et : rekey (VObj cst) hs memo key
                 = Ok (put (newKey hs key) page_t memo)).
    { unfold rekey, get_prop. cbn [nullish rbind].
      rewrite <- (rep_nullish _ _ _ Hpg), Hnp. reflexivity. }
    assert (Lw : List.length (write m mc hpA) = S m).
    { rewrite length_write. unfold hpA. rewrite length_app. simpl. unfold m. lia. }
    assert (Eold : forall a, a < m -> cells_of (write m mc hpA) a = cells_of hp1 a).
    { intros a Ha. unfold cells_of.
      rewrite nth_error_write_other by lia. unfold hpA.
      now rewrite nth_error_alloc_old. }
    assert (Eh : h_rekey (RRef c) hs m (write m mc hpA) key
                 = Ok (write m (h_put (newKey hs key) x mc) hpA)).
    { unfold h_rekey, h_get_prop. cbn [r_nullish rbind].
      assert (Eg : h_member (write m mc hpA) (RRef c) "pages" = pages).
      { apply h_member_same. intros a [= <-]. now apply Eold. }
      rewrite Eg, Hnp. cbn [rbind].
      assert (Ex : h_member (write m mc hpA) pages key = x).
      { apply h_member_same. intros a Ha. apply Eold. now apply pages_allocated. }
      rewrite Ex. unfold h_set_prop.
      assert (Em : cells_of (write m mc hpA) m = mc).
      { unfold cells_of. rewrite nth_error_write_same; [reflexivity|].
        unfold hpA. rewrite length_app. simpl. unfold m. lia. }
      now rewrite Em, write_write. }
    rewrite Et, Eh. cbn [rbind]. apply IH.
    split; [now apply reps_put|]. split; [|split].
    + intros nk a Hin. destruct (In_h_put _ _ _ _ _ Hin) as [[_ E]|Hin'].
      * unfold page_values. fold pages. apply in_map_iff.
        exists (key, RRef a). split; [reflexivity|].
        apply h_lookup_In. apply h_member_ref. now rewrite E.
      * now apply (J2 nk).
    + intros nk a. rewrite h_lookup_put.
      destruct (String.eqb_spec nk (newKey hs key)) as [->|Hne].
      * intros [= E]. exists key. split; [reflexivity|]. now apply h_member_ref.
      * apply J3.
    + now apply put_keys_NoDup.
Qed.

(** *** Line 35: the new pages object is stored *)

Lemma store_pages mc memo :
  rekeying c hp1 hs mc memo ->
  exists hp',
    h_set_prop (write m mc hpA) (RRef c) "pages" (RRef m) = Ok hp'
    /\ inv c hp' (VObj (put "pages" (VObj memo) cst)).
Proof.
  intros (J1 & J2 & J3 & J4).
  pose proof c_allocated as Hlc. pose proof Hinv as [Hrep Hsep].
  destruct (rep_ref_inv _ _ _ Hrep) as [cs [cst' [[= <-] [Hc Hcs]]]].
  pose proof (cells_of_Some _ _ _ Hc) as Ecs.
  assert (HlP : h_lookup "pages" cs = Some pages).
  { unfold pages in *. simpl in *. rewrite Ecs in *.
    destruct (h_lookup "pages" cs) as [y|]; [reflexivity | discriminate]. }
  assert (Hhas : h_has "pages" cs = true) by (unfold h_has; now rewrite HlP).
  assert (Hpt : In "pages" (keys cst)).
  { rewrite <- (reps_keys _ _ _ Hcs). now apply h_has_In. }
  pose proof Hsep as Hsep'. unfold separated in Hsep'. cbv zeta in Hsep'.
  fold pages in Hsep'. rewrite Ecs in Hsep'.
  destruct Hsep' as (N1 & N2 & Inj & Hcn & HPp & Hk).
  set (hpF := write c (h_update "pages" (RRef m) cs) (write m mc hpA)).
  assert (LA : List.length hpA = S m).
  { unfold hpA. rewrite length_app. simpl. unfold m. lia. }
  assert (B1 : forall b, b < m -> b <> c -> nth_error hpF b = nth_error hp1 b).
  { intros b Hb Hbc. unfold hpF. rewrite !nth_error_write_other by lia.
    unfold hpA. now apply nth_error_alloc_old. }
  assert (B2 : nth_error hpF c = Some (h_update "pages" (RRef m) cs)).
  { unfold hpF. apply nth_error_write_same. rewrite length_write, LA. unfold m. lia. }
  assert (B3 : nth_error hpF m = Some mc).
  { unfold hpF. rewrite nth_error_write_other by (unfold m; lia).
    apply nth_error_write_same. lia. }
  assert (Skept : forall y, In y (kept hp1 (RRef c)) -> safe c hp1 y).
  { intros y Hy b Hb. exact (kept_good c hp1 _ y b Hinv Hy Hb). }
  assert (Tsafe : forall y, safe c hp1 y ->
            (forall t, rep hp1 y t -> rep hpF y t)
            /\ (forall b, reach hpF y b -> reach hp1 y b)).
  { intros y Hy.
    assert (F : forall b, reach hp1 y b -> nth_error hpF b = nth_error hp1 b).
    { intros b Hb. destruct (Hy b Hb) as (A1 & A2 & _). now apply B1. }
    split.
    - intros t Ht. now apply (rep_frame hp1 hpF y t).
    - intros b. now apply reach_frame. }
  assert (Fpage : forall y, In y (page_values hp1 (RRef c)) ->
            forall b, reach hp1 y b -> nth_error hpF b = nth_error hp1 b).
  { intros y Hy b Hb.
    destruct (page_reach c hp1 _ y b Hinv Hy Hb) as [A1 [-> | [A2 _]]].
    - apply B1; [exact A1|]. intros ->. apply Hcn. apply In_refs. now right.
    - now apply B1. }
  assert (Hvals : forall nk y t, In (nk, y) mc -> rep hp1 y t -> rep hpF y t).
  { intros nk y t Hin Ht.
    destruct y as [| | | | |a]; try (apply (rep_prim hp1); [discriminate | exact Ht]).
    apply (rep_frame hp1 hpF _ _ Ht). apply Fpage. now apply (J2 nk). }
  exists hpF. split.
  { unfold h_set_prop.
    assert (Ecw : cells_of (write m mc hpA) c = cs).
    { unfold cells_of. rewrite nth_error_write_other by (unfold m; lia).
      unfold hpA. rewrite nth_error_alloc_old by exact Hlc. now rewrite Hc. }
    rewrite Ecw, (h_put_present _ _ _ Hhas). reflexivity. }
  rewrite (put_present "pages") by exact Hpt.
  split.
  - apply (rep_ref hpF c _ _ B2).
    apply (reps_update_change hp1 hpF); [exact N1 | exact Hcs | |].
    { intros k y t Hin Hkp Ht. apply (Tsafe y); [|exact Ht].
      apply Skept. apply (kept_member c hp1 k); [now rewrite Ecs | exact Hkp]. }
    apply (rep_ref hpF m _ _ B3).
    apply (reps_transport hp1); [exact J1 | exact Hvals].
  - assert (EcF : cells_of hpF c = h_update "pages" (RRef m) cs)
      by (unfold cells_of; now rewrite B2).
    assert (EgF : h_member hpF (RRef c) "pages" = RRef m).
    { unfold h_member. cbn [h_own_entries]. rewrite EcF, h_lookup_update.
      now rewrite String.eqb_refl, Hhas. }
    assert (EmF : cells_of hpF m = mc) by (unfold cells_of; now rewrite B3).
    assert (EvF : page_values hpF (RRef c) = map snd mc).
    { unfold page_values. rewrite EgF. cbn [h_own_entries]. now rewrite EmF. }
    assert (Hsub : forall a, In a (refs (map snd mc)) ->
                             In a (refs (page_values hp1 (RRef c)))).
    { intros a Ha. apply In_refs in Ha. apply In_refs.
      apply in_map_iff in Ha. destruct Ha as [[nk y] [E Ha]]. simpl in E. subst y.
      now apply (J2 nk). }
    assert (Hpal : forall a, In a (refs (page_values hp1 (RRef c))) -> a < m).
    { intros a Ha. apply In_refs in Ha.
      destruct (page_value_rep c hp1 _ _ Hrep Ha) as [t Ht].
      destruct (rep_ref_inv _ _ _ Ht) as [? [? [_ [Hn _]]]].
      apply nth_error_Some. congruence. }
    unfold separated. cbv zeta. rewrite EcF, EgF, EvF. cbn [h_own_entries].
    rewrite EmF.
    split; [now rewrite h_keys_update|].
    split; [rewrite (reps_keys _ _ _ J1); exact J4|].
    split.
    { intros k k' a H1 H2.
      destruct (J3 k a H1) as [k0 [-> L0]]. destruct (J3 k' a H2) as [k1 [-> L1]].
      f_equal. unfold pages in L0, L1. exact (Inj k0 k1 a L0 L1). }
    split.
    { intros Hin. simpl in Hin. destruct Hin as [E|Hin]; [unfold m in E; lia|].
      apply Hcn. apply In_refs. right. apply In_refs. now apply Hsub. }
    split.
    { intros P [= <-] Hin. apply Hsub, Hpal in Hin. lia. }
    intros y a Hy Ha Hr.
    assert (Hold : In y (kept hp1 (RRef c))).
    { unfold kept in Hy. apply in_app_or in Hy. destruct Hy as [Hy|Hy].
      - cbn [h_own_entries] in Hy. rewrite EcF in Hy.
        apply in_map_iff in Hy. destruct Hy as [[k y'] [E Hy]]. simpl in E. subst y'.
        apply filter_In in Hy. destruct Hy as [Hy Hf]. simpl in Hf.
        apply negb_true_iff, String.eqb_neq in Hf.
        destruct (In_h_update _ _ _ _ _ Hy) as [[E _]|Hy']; [contradiction|].
        apply (kept_member c hp1 k); [now rewrite Ecs | exact Hf].
      - rewrite EvF in Hy. apply in_flat_map in Hy. destruct Hy as [pv [Hpv Hy]].
        destruct pv as [| | | | |a']; simpl in Hy; try contradiction.
        apply in_map_iff in Hpv. destruct Hpv as [[nk pv'] [E Hpv]]. simpl in E.
        subst pv'. apply J2 in Hpv.
        assert (Ha' : a' < m) by (apply Hpal; now apply In_refs).
        assert (Hac : a' <> c).
        { intros ->. apply Hcn. apply In_refs. now right. }
        unfold cells_of in Hy. rewrite B1 in Hy by assumption.
        apply in_map_iff in Hy. destruct Hy as [[k y'] [E Hy]]. simpl in E. subst y'.
        apply (kept_page_member c hp1 a' k); [exact Hpv|].
        unfold cells_of. exact Hy. }
    apply (Hk y a Hold).
    + destruct Ha as [<-|Ha]; [now left | right; now apply Hsub].
    + now apply (Tsafe y (Skept y Hold)).
Qed.

End Loops.

(** ** The two models agree *)

Lemma rbind_Ok_eq {A B} (m : result A) (k : A -> result B) a r :
  m = Ok a -> k a = r -> rbind m k = r.
Proof. now intros -> <-. Qed.

Lemma rekey_phase hp1 v cfg1 :
  rep hp1 v cfg1 -> separated hp1 v ->
  match
    (pages <- get_prop cfg1 "pages" ;;
     if truthy pages then
       let htmlSuffix := htmlSuffix_of cfg1 in
       ks <- Object_keys pages ;;
       memo <- foldM (rekey cfg1 htmlSuffix) ks [] ;;
       set_prop cfg1 "pages" (VObj memo)
     else Ok cfg1)
  with
  | Ok r =>
      exists hp',
        (pages <- h_get_prop hp1 v "pages" ;;
         if r_truthy pages then
           let htmlSuffix := h_htmlSuffix_of hp1 v in
           ks <- h_Object_keys hp1 pages ;;
           let memo := List.length hp1 in
           hp <- foldM (h_rekey v htmlSuffix memo) ks (hp1 ++ [[]])%list ;;
           hp <- h_set_prop hp v "pages" (RRef memo) ;;
           Ok (hp, v)
         else Ok (hp1, v))
        = Ok (hp', v)
        /\ rep hp' v r /\ separated hp' v
  | Throw e =>
      (pages <- h_get_prop hp1 v "pages" ;;
       if r_truthy pages then
         let htmlSuffix := h_htmlSuffix_of hp1 v in
         ks <- h_Object_keys hp1 pages ;;
         let memo := List.length hp1 in
         hp <- foldM (h_rekey v htmlSuffix memo) ks (hp1 ++ [[]])%list ;;
         hp <- h_set_prop hp v "pages" (RRef memo) ;;
         Ok (hp, v)
       else Ok (hp1, v))
      = Throw e
  end.
Proof.
  intros Hrep Hsep.
  pose proof (rep_get_prop hp1 v cfg1 "pages" Hrep) as Hg.
  destruct (get_prop cfg1 "pages") as [pages_t|e] eqn:Eg; cbn [rbind];
    [|rewrite Hg; reflexivity].
  destruct Hg as [pages [Eh Hpg]]. rewrite Eh. cbn [rbind].
  rewrite (rep_truthy _ _ _ Hpg).
  destruct (truthy pages_t) eqn:Etr; [|exists hp1; now split].
  assert (Em : pages_t = member cfg1 "pages").
  { unfold get_prop in Eg. destruct (nullish cfg1); [discriminate|].
    now injection Eg as <-. }
  assert (Eh' : pages = h_member hp1 v "pages").
  { unfold h_get_prop in Eh. destruct (r_nullish v); [discriminate|].
    now injection Eh as <-. }
  assert (Hobj : exists cst, cfg1 = VObj cst).
  { rewrite Em in Etr. destruct (truthy_pages_obj _ Etr) as [cs [E _]]. eauto. }
  destruct Hobj as [cst ->].
  destruct (rep_obj_inv _ _ _ Hrep) as [c [cs [-> [Hc Hcs]]]].
  cbv zeta. rewrite (rep_htmlSuffix _ _ _ Hrep).
  pose proof (rep_Object_keys hp1 pages pages_t Hpg) as Hk.
  assert (Hnn : nullish pages_t = false).
  { destruct pages_t; try reflexivity; discriminate. }
  unfold Object_keys in *. rewrite Hnn in *. rewrite Hk. cbn [rbind].
  assert (Hinv : inv c hp1 (VObj cst)) by (split; assumption).
  assert (Hpt : r_truthy (h_member hp1 (RRef c) "pages") = true).
  { rewrite <- Eh', (rep_truthy _ _ _ Hpg). exact Etr. }
  assert (J0 : rekeying c hp1 (htmlSuffix_of (VObj cst)) [] []).
  { split; [constructor|]. split; [intros nk a []|].
    split; [intros nk a; discriminate | constructor]. }
  destruct (rekey_loop c hp1 cst (htmlSuffix_of (VObj cst)) Hinv Hpt
              (keys (own_entries pages_t)) [] [] J0)
    as [mc [memo [E1 [E2 J]]]].
  rewrite write_last in E2. rewrite E1. cbn [rbind set_prop].
  destruct (store_pages c hp1 cst (htmlSuffix_of (VObj cst)) Hinv Hpt mc memo J)
    as [hp' [E3 [Hrep' Hsep']]].
  exists hp'. split; [|now split].
  apply (rbind_Ok_eq _ _ _ _ E2). apply (rbind_Ok_eq _ _ _ _ E3). reflexivity.
Qed.

Lemma normalize_rest_refines hp v cfg :
  rep hp v cfg -> separated hp v ->
  match normalize_rest cfg with
  | Ok r =>
      exists hp', h_normalize_rest hp v = Ok (hp', v)
                  /\ rep hp' v r /\ separated hp' v
  | Throw e => h_normalize_rest hp v = Throw e
  end.
Proof.
  intros Hrep Hsep. unfold normalize_rest, h_normalize_rest.
  pose proof (rep_get_prop hp v cfg "context" Hrep) as Hg.
  destruct (get_prop cfg "context") as [ctx_t|e] eqn:Ec; cbn [rbind];
    [|rewrite Hg; reflexivity].
  destruct Hg as [ctx [Eh Hctx]]. rewrite Eh. cbn [rbind].
  pose proof (rep_get_prop hp v cfg "pages" Hrep) as Hg.
  destruct (get_prop cfg "pages") as [pages_t|e] eqn:Ep; cbn [rbind];
    [|rewrite Hg; reflexivity].
  destruct Hg as [pages [Eh' Hpg]]. rewrite Eh'. cbn [rbind].
  rewrite (rep_truthy _ _ _ Hctx), (rep_truthy _ _ _ Hpg).
  assert (H1 : match (if truthy ctx_t && truthy pages_t
                      then ks <- Object_keys pages_t ;; foldM propagate_context ks cfg
                      else Ok cfg) with
               | Ok cfg1 =>
                   exists hp1,
                     (if truthy ctx_t && truthy pages_t
                      then ks <- h_Object_keys hp pages ;;
                           foldM (h_propagate_context v) ks hp
                      else Ok hp) = Ok hp1
                     /\ rep hp1 v cfg1 /\ separated hp1 v
               | Throw e =>
                   (if truthy ctx_t && truthy pages_t
                    then ks <- h_Object_keys hp pages ;;
                         foldM (h_propagate_context v) ks hp
                    else Ok hp) = Throw e
               end).
  { destruct (truthy ctx_t && truthy pages_t) eqn:Eb; [|exists hp; now split].
    apply andb_true_iff in Eb. destruct Eb as [_ Etr].
    assert (Em : pages_t = member cfg "pages").
    { unfold get_prop in Ep. destruct (nullish cfg); [discriminate|].
      now injection Ep as <-. }
    assert (Em' : pages = h_member hp v "pages").
    { unfold h_get_prop in Eh'. destruct (r_nullish v); [discriminate|].
      now injection Eh' as <-. }
    assert (Hobj : exists cst, cfg = VObj cst).
    { rewrite Em in Etr. destruct (truthy_pages_obj _ Etr) as [cs [E _]]. eauto. }
    destruct Hobj as [cst ->].
    destruct (rep_obj_inv _ _ _ Hrep) as [c [cs [-> [Hc Hcs]]]].
    pose proof (rep_Object_keys hp pages pages_t Hpg) as Hk.
    assert (Hnn : nullish pages_t = false).
    { destruct pages_t; try reflexivity; discriminate. }
    unfold Object_keys in *. rewrite Hnn in *. rewrite Hk. cbn [rbind].
    assert (Hinv : inv c hp (VObj cst)) by (split; assumption).
    pose proof (propagate_loop c (keys (own_entries pages_t)) hp (VObj cst) Hinv)
      as Hl.
    assert (Hincl : incl (keys (own_entries pages_t))
                      (h_keys (h_own_entries hp (h_member hp (RRef c) "pages")))).
    { rewrite <- Em', (reps_keys _ _ _ (rep_own_entries _ _ _ Hpg)).
      apply incl_refl. }
    specialize (Hl Hincl).
    destruct (foldM propagate_context (keys (own_entries pages_t)) (VObj cst))
      as [cfg1|e]; [|exact Hl].
    destruct Hl as [hp1 [E [Hr Hs]]]. exists hp1. now split. }
  destruct (if truthy ctx_t && truthy pages_t
            then ks <- Object_keys pages_t ;; foldM propagate_context ks cfg
            else Ok cfg) as [cfg1|e]; cbn [rbind]; [|rewrite H1; reflexivity].
  destruct H1 as [hp1 [E1 [Hrep1 Hsep1]]]. rewrite E1. cbn [rbind].
  exact (rekey_phase hp1 v cfg1 Hrep1 Hsep1).
Qed.

Lemma rep_chosen hp v x : rep hp v x -> rep hp (h_chosen hp v) (chosen x).
Proof.
  intros H. unfold h_chosen, chosen. apply rep_or; [|exact H].
  now apply rep_member.
Qed.

Lemma normalizeConfig_refines_rest hp v x :
  rep hp v x -> separated hp (h_chosen hp v) ->
  match normalizeConfig x with
  | Ok r =>
      exists hp', h_normalizeConfig hp v = Ok (hp', h_chosen hp v)
                  /\ rep hp' (h_chosen hp v) r /\ separated hp' (h_chosen hp v)
  | Throw e => h_normalizeConfig hp v = Throw e
  end.
Proof.
  intros Hrep Hsep. unfold normalizeConfig, h_normalizeConfig, get_prop, h_get_prop.
  rewrite (rep_nullish _ _ _ Hrep).
  destruct (nullish x); [reflexivity|]. cbn [rbind].
  exact (normalize_rest_refines hp (h_chosen hp v) (chosen x)
           (rep_chosen _ _ _ Hrep) Hsep).
Qed.

(** ** Idempotence *)



(** Nothing is reached from a value of a given heap. *)
Ltac no_reach :=
  let H := fresh "H" in
  intros H;
  repeat match goal with
    | H : False |- _ => destruct H
    | H : _ = _ |- _ => discriminate H
    | H : Some _ = Some _ |- _ => injection H as H; subst
    | H : (_, _) = (_, _) |- _ => injection H as ? ?; subst
    | H : In _ (_ :: _) |- _ => destruct H as [H|H]
    | H : In _ [] |- _ => destruct H
    | H : reach _ (RRef _) _ |- _ => inversion H; clear H; subst; simpl in *
    | H : reach _ RUndef _ |- _ => inversion H
    | H : reach _ RNull _ |- _ => inversion H
    | H : reach _ (RBool _) _ |- _ => inversion H
    | H : reach _ (RNum _) _ |- _ => inversion H
    | H : reach _ (RStr _) _ |- _ => inversion H
    end.

(** The example of the specification, on the heap: it holds the tree
    [spec_context_input] and shares nothing. *)
Lemma spec_context_rep : rep spec_context_heap (RRef 0) spec_context_input.
Proof. repeat econstructor. Qed.

Lemma spec_context_separated :
  separated spec_context_heap (h_chosen spec_context_heap (RRef 0)).
Proof.
  change (h_chosen spec_context_heap (RRef 0)) with (RRef 0).
  unfold separated. cbv zeta.
  change (h_member spec_context_heap (RRef 0) "pages") with (RRef 2).
  change (page_values spec_context_heap (RRef 0)) with [RRef 3; RRef 5].
  change (kept spec_context_heap (RRef 0)) with [RRef 1; RRef 4].
  change (h_own_entries spec_context_heap (RRef 2))
    with [("/a", RRef 3); ("/b", RRef 5)].
  change (cells_of spec_context_heap 0)
    with [("context", RRef 1); ("pages", RRef 2)].
  split; [repeat constructor; simpl; intuition discriminate|].
  split; [repeat constructor; simpl; intuition discriminate|].
  split.
  { intros k k' a. simpl.
    destruct (String.eqb_spec k "/a"), (String.eqb_spec k' "/a"),
      (String.eqb_spec k "/b"), (String.eqb_spec k' "/b");
      congruence. }
  split; [simpl; intuition discriminate|].
  split; [intros P [= <-]; simpl; intuition discriminate|].
  intros y a [<-|[<-|[]]] [<-|[<-|[<-|[]]]]; no_reach.
Qed.


(** ** normalizeConfig writes in place *)

Section InPlace.

Variable c : nat.

Lemma cells_nonempty hp a k x : h_lookup k (cells_of hp a) = Some x -> a < List.length hp.
Proof.
  unfold cells_of. destruct (nth_error hp a) eqn:E; [|discriminate].
  intros _. apply nth_error_Some. congruence.
Qed.

Lemma h_propagate_apart hp key hp' :
  h_propagate_context (RRef c) hp key = Ok hp' -> apart c hp ->
  apart c hp' /\ cells_of hp' c = cells_of hp c.
Proof.
  unfold h_propagate_context, h_get_prop. cbn [r_nullish rbind].
  set (pages := h_member hp (RRef c) "pages").
  destruct (r_nullish pages); [discriminate|]. cbn [rbind].
  destruct (h_member hp pages key) as [| | | | |p] eqn:Ex; try discriminate.
  cbn [r_nullish rbind h_set_prop].
  set (merged := h_spread hp _ _). set (o := List.length hp).
  intros [= <-] [Hlc Hcp].
  apply h_member_ref in Ex.
  assert (Hpv : In (RRef p) (page_values hp (RRef c))).
  { unfold page_values. fold pages. apply in_map_iff.
    exists (key, RRef p). split; [reflexivity | now apply h_lookup_In]. }
  assert (Hpc : p <> c).
  { intros ->. apply Hcp. now apply In_refs. }
  assert (HP : exists P, pages = RRef P /\ P < List.length hp).
  { destruct pages as [| | | |s|P]; try discriminate.
    - exfalso. simpl in Ex. apply h_lookup_In in Ex. revert Ex. generalize 0%N.
      induction s as [|ch s IH]; intros i; simpl; [intros []|].
      intros [[= _]|H]; now apply (IH (N.succ i)).
    - exists P. split; [reflexivity|]. simpl in Ex. eapply cells_nonempty. exact Ex. }
  destruct HP as [P [HP HlP]].
  set (hp' := write p _ _).
  assert (A1 : forall b, b < List.length hp -> b <> p ->
                         nth_error hp' b = nth_error hp b).
  { intros b Hb Hbp. unfold hp'. rewrite nth_error_write_other by congruence.
    now apply nth_error_alloc_old. }
  assert (Ec : cells_of hp' c = cells_of hp c).
  { unfold cells_of. rewrite A1; [reflexivity | exact Hlc | congruence]. }
  split; [|exact Ec]. split.
  { unfold hp'. rewrite length_write, length_app. simpl. lia. }
  assert (Eg : h_member hp' (RRef c) "pages" = pages).
  { unfold pages, h_member. cbn [h_own_entries]. now rewrite Ec. }
  intros Hin. apply In_refs in Hin. unfold page_values in Hin.
  rewrite Eg, HP in Hin. cbn [h_own_entries] in Hin.
  apply in_map_iff in Hin. destruct Hin as [[k y] [E Hin]]. simpl in E. subst y.
  destruct (Nat.eq_dec P p) as [->|Hne].
  - assert (E : cells_of hp' p
                = h_put "context" (RRef o) (cells_of (hp ++ [merged])%list p)).
    { unfold cells_of at 1. unfold hp'. rewrite nth_error_write_same; [reflexivity|].
      rewrite length_app. simpl. lia. }
    rewrite E in Hin. destruct (In_h_put _ _ _ _ _ Hin) as [[_ [= Ho]]|Hin'].
    + unfold o in Ho. lia.
    + unfold cells_of in Hin'. rewrite nth_error_alloc_old in Hin' by exact HlP.
      apply Hcp. apply In_refs. unfold page_values. fold pages. rewrite HP.
      cbn [h_own_entries]. apply in_map_iff. exists (k, RRef c). now split.
  - unfold cells_of in Hin. rewrite A1 in Hin by assumption.
    apply Hcp. apply In_refs. unfold page_values. fold pages. rewrite HP.
    cbn [h_own_entries]. apply in_map_iff. exists (k, RRef c). now split.
Qed.

Lemma h_propagate_loop_apart : forall ks hp hp',
  foldM (h_propagate_context (RRef c)) ks hp = Ok hp' -> apart c hp ->
  apart c hp' /\ cells_of hp' c = cells_of hp c.
Proof.
  induction ks as [|key ks IH]; intros hp hp'; simpl.
  - intros [= <-] H. now split.
  - destruct (h_propagate_context (RRef c) hp key) as [hp1|e] eqn:E1;
      [|discriminate].
    cbn [rbind]. intros E2 Ha.
    destruct (h_propagate_apart hp key hp1 E1 Ha) as [Ha1 Ec1].
    destruct (IH hp1 hp' E2 Ha1) as [Ha2 Ec2]. split; [exact Ha2 | congruence].
Qed.

Lemma h_rekey_loop_keeps hs m : forall ks hp hp',
  foldM (h_rekey (RRef c) hs m) ks hp = Ok hp' -> m <> c ->
  cells_of hp' c = cells_of hp c /\ List.length hp' = List.length hp.
Proof.
  induction ks as [|key ks IH]; intros hp hp'; simpl.
  - intros [= <-] _. now split.
  - destruct (h_rekey (RRef c) hs m hp key) as [hp1|e] eqn:E1; [|discriminate].
    cbn [rbind]. intros E2 Hm.
    destruct (IH hp1 hp' E2 Hm) as [Ec Hl].
    unfold h_rekey, h_get_prop in E1. cbn [r_nullish rbind] in E1.
    destruct (r_nullish (h_member hp (RRef c) "pages")); [discriminate|].
    cbn [rbind h_set_prop] in E1. injection E1 as <-.
    rewrite Ec, Hl, length_write. split; [|reflexivity].
    unfold cells_of. now rewrite nth_error_write_other.
Qed.

End InPlace.

(** X10: [normalizeConfig] returns the very object it chose at line 14,
    changed in place: unless that object is one of its own pages, it has
    the same keys in the same order after the call, and each of its
    members but [pages] is the primitive or refers to the object that it
    was or referred to before (lines 13-53). *)
Theorem normalizeConfig_frame (hp : heap) (v : ref_value) (hp' : heap)
    (r : ref_value) :
  h_normalizeConfig hp v = Ok (hp', r) ->
  (forall c, h_chosen hp v = RRef c -> ~ In c (refs (page_values hp (RRef c)))) ->
  r = h_chosen hp v
  /\ h_keys (h_own_entries hp' r) = h_keys (h_own_entries hp r)
  /\ forall k, k <> "pages" -> h_member hp' r k = h_member hp r k.
Proof.
  unfold h_normalizeConfig, h_get_prop.
  destruct (r_nullish v); [discriminate|]. cbn [rbind].
  fold (h_chosen hp v). set (cfg := h_chosen hp v).
  unfold h_normalize_rest, h_get_prop.
  destruct (r_nullish cfg) eqn:Hn; [discriminate|]. cbn [rbind].
  intros E Hap.
  destruct (r_truthy (h_member hp cfg "pages")) eqn:Hpt.
  - (* there are pages: the configuration is an object *)
    destruct cfg as [| | | |s|c] eqn:Ecfg; try discriminate.
    { exfalso. clear -Hpt. simpl in Hpt.
      destruct (h_lookup "pages" (string_cells 0 s)) as [y|] eqn:E; [|discriminate].
      apply h_lookup_In in E. revert E. generalize 0%N.
      induction s as [|ch s IH]; intros i; simpl; [intros []|].
      intros [[= Hk _]|H]; [|now apply (IH (N.succ i))].
      pose proof (index_key_digit i) as Hd. rewrite Hk in Hd. discriminate. }
    assert (Hlk : exists pg, h_lookup "pages" (cells_of hp c) = Some pg).
    { simpl in Hpt. destruct (h_lookup "pages" (cells_of hp c)) as [pg|];
        [eauto | discriminate]. }
    destruct Hlk as [pg Hlk].
    assert (Ha : apart c hp).
    { split; [eapply cells_nonempty; exact Hlk | now apply Hap]. }
    match type of E with
    | context [if ?b then ?A else Ok hp] =>
        destruct (if b then A else Ok hp) as [hp1|e] eqn:E1; [|discriminate]
    end.
    cbn [rbind] in E.
    assert (K1 : apart c hp1 /\ cells_of hp1 c = cells_of hp c).
    { revert E1.
      destruct (r_truthy (h_member hp (RRef c) "context")); cbn [andb].
      - destruct (h_Object_keys hp (h_member hp (RRef c) "pages")) as [ks|e];
          [|discriminate].
        cbn [rbind]. intros E1. now apply (h_propagate_loop_apart c ks).
      - intros [= <-]. now split. }
    destruct K1 as [[Hlc1 _] Ec1].
    assert (Eg1 : h_member hp1 (RRef c) "pages" = h_member hp (RRef c) "pages").
    { unfold h_member. cbn [h_own_entries]. now rewrite Ec1. }
    rewrite Eg1, Hpt in E. cbv zeta in E.
    destruct (h_Object_keys hp1 (h_member hp (RRef c) "pages")) as [ks|e];
      [|discriminate].
    cbn [rbind] in E.
    destruct (foldM (h_rekey (RRef c) (h_htmlSuffix_of hp1 (RRef c)) (List.length hp1))
                ks (hp1 ++ [[]])%list) as [hp2|e] eqn:E2; [|discriminate].
    cbn [rbind h_set_prop] in E. injection E as <- <-.
    destruct (h_rekey_loop_keeps c _ _ ks _ _ E2) as [Ec2 Hl2]; [lia|].
    assert (Ec2' : cells_of hp2 c = cells_of hp c).
    { rewrite Ec2, <- Ec1. unfold cells_of.
      now rewrite nth_error_alloc_old. }
    assert (EcF : cells_of (write c (h_put "pages" (RRef (List.length hp1))
                                      (cells_of hp2 c)) hp2) c
                  = h_put "pages" (RRef (List.length hp1)) (cells_of hp c)).
    { unfold cells_of at 1. rewrite nth_error_write_same; [now rewrite Ec2'|].
      rewrite Hl2, length_app. simpl. lia. }
    split; [reflexivity|]. cbn [h_own_entries h_member]. rewrite EcF.
    assert (Hhas : h_has "pages" (cells_of hp c) = true)
      by (unfold h_has; now rewrite Hlk).
    split.
    + now rewrite (h_put_present _ _ _ Hhas), h_keys_update.
    + intros k Hk. rewrite h_lookup_put.
      apply String.eqb_neq in Hk. now rewrite Hk.
  - (* no pages: nothing is written *)
    rewrite andb_false_r in E. cbn [rbind] in E. rewrite Hpt in E.
    injection E as <- <-. now split.
Qed.

Lemma normalizeConfig_frame_witness :
  RRef 0 = h_chosen shared_page_heap (RRef 0)
  /\ h_keys (h_own_entries
               [ [("context", RRef 1); ("pages", RRef 4)];
                 [("x", RNum 1); ("context", RRef 3)];
                 [("/a", RRef 1)];
                 [("x", RNum 1)];
                 [("/a", RRef 1)] ] (RRef 0))
     = h_keys (h_own_entries shared_page_heap (RRef 0))
  /\ forall k, k <> "pages" ->
       h_member [ [("context", RRef 1); ("pages", RRef 4)];
                  [("x", RNum 1); ("context", RRef 3)];
                  [("/a", RRef 1)];
                  [("x", RNum 1)];
                  [("/a", RRef 1)] ] (RRef 0) k
       = h_member shared_page_heap (RRef 0) k.
Proof.
  apply (normalizeConfig_frame shared_page_heap (RRef 0)).
  - reflexivity.
  - intros c [= <-]. simpl. intuition discriminate.
Defined.

(** ** The tree transform is the transform of unshared configurations *)

(** X22: on a finite configuration in which the objects written to are
    not shared, [normalizeConfig] returns exactly when the transform on
    the tree of the configuration returns, and what the chosen object
    holds afterwards is the tree that this transform computes; it fails
    with the same error (lines 13-53). *)
Theorem normalizeConfig_refines (hp : heap) (v : ref_value) (x : value) :
  rep hp v x ->
  separated hp (h_chosen hp v) ->
  (forall r,
      normalizeConfig x = Ok r
      <-> exists hp', h_normalizeConfig hp v = Ok (hp', h_chosen hp v)
                      /\ rep hp' (h_chosen hp v) r)
  /\ (forall e, normalizeConfig x = Throw e <-> h_normalizeConfig hp v = Throw e).
Proof.
  intros Hrep Hsep.
  pose proof (normalizeConfig_refines_rest hp v x Hrep Hsep) as H.
  destruct (normalizeConfig x) as [r0|e0].
  - destruct H as [hp0 [E0 [Hr0 _]]]. split.
    + intros r. split.
      * intros [= <-]. exists hp0. now split.
      * intros [hp' [E' Hr']]. rewrite E0 in E'. injection E' as <-.
        f_equal. exact (rep_fun _ _ _ Hr0 _ Hr').
    + intros e. rewrite E0. split; discriminate.
  - split.
    + intros r. split; [discriminate|].
      intros [hp' [E' _]]. rewrite H in E'. discriminate.
    + intros e. rewrite H. split; intros [= ->]; reflexivity.
Qed.

Lemma normalizeConfig_refines_witness :
  (forall r,
      normalizeConfig spec_context_input = Ok r
      <-> exists hp', h_normalizeConfig spec_context_heap (RRef 0)
                      = Ok (hp', h_chosen spec_context_heap (RRef 0))
                      /\ rep hp' (h_chosen spec_context_heap (RRef 0)) r)
  /\ (forall e, normalizeConfig spec_context_input = Throw e
                <-> h_normalizeConfig spec_context_heap (RRef 0) = Throw e).
Proof.
  apply (normalizeConfig_refines spec_context_heap (RRef 0) spec_context_input).
  - exact spec_context_rep.
  - exact spec_context_separated.
Defined.
